(** * nnsvs.model: inference-time composition and post-processing

    A shallow embedding of [src/nnsvs/model.py].  Tensors are shape-indexed
    arrays over the real numbers (floating point is idealised by [R]); the
    trained sub-networks ([self.model], [self.conv], [self.fc], ...) are
    arbitrary functions on tensors; Python exceptions are an error monad;
    attributes read with [hasattr]/[getattr] live in a finite map from
    attribute names to values. *)

From Stdlib Require Import Reals Lra Lia ZArith List Bool.
From stdpp Require Import base gmap strings.
Import ListNotations.

(** ** Exceptions *)

Inductive pyerr :=
| IndexError | RuntimeError | ValueError | TypeError
| AssertionError | AttributeError | LayoutMismatchError.

Inductive res (A : Type) :=
| Ok (a : A)
| Raise (e : pyerr).
Arguments Ok {A} a.
Arguments Raise {A} e.

Definition bind {A B} (m : res A) (k : A -> res B) : res B :=
  match m with
  | Ok a => k a
  | Raise e => Raise e
  end.

Notation "'let*' x ':=' m 'in' k" := (bind m (fun x => k))
  (at level 10, x name, m at level 100, k at level 200).
Notation "'let*' ' p ':=' m 'in' k" := (bind m (fun p => k))
  (at level 10, p strict pattern, m at level 100, k at level 200).

Definition is_ok {A} (m : res A) : Prop := exists a, m = Ok a.

(** ** Tensors

    A tensor is a shape and an element function; only the elements whose
    index lies inside the shape are meaningful. *)

Record Tensor := mkTensor { shape : list nat; item : list nat -> R }.

(** Python's index normalisation on an axis of size [n]: [-n <= i < n]. *)
Definition py_index (n : nat) (i : Z) : res nat :=
  if ((0 <=? i) && (i <? Z.of_nat n))%Z then Ok (Z.to_nat i)
  else if ((- Z.of_nat n <=? i) && (i <? 0))%Z then Ok (Z.to_nat (i + Z.of_nat n))
  else Raise IndexError.

(** [x[:, ..., :, i]] with the integer at axis [ax]. *)
Definition select (ax : nat) (i : Z) (x : Tensor) : res Tensor :=
  match nth_error (shape x) ax with
  | None => Raise IndexError
  | Some n =>
      let* k := py_index n i in
      Ok {| shape := firstn ax (shape x) ++ skipn (S ax) (shape x);
            item := fun idx => item x (firstn ax idx ++ k :: skipn ax idx) |}
  end.

(** [x.unsqueeze(-1)] *)
Definition unsqueeze_last (x : Tensor) : Tensor :=
  {| shape := shape x ++ [1]; item := fun idx => item x (removelast idx) |}.

(** [x.squeeze(-1)]: drops the last axis only when its size is 1. *)
Definition squeeze_last (x : Tensor) : Tensor :=
  match rev (shape x) with
  | 1 :: _ => {| shape := removelast (shape x);
                 item := fun idx => item x (idx ++ [0]) |}
  | _ => x
  end.

(** A scalar function applied to every element. *)
Definition tmap (f : R -> R) (x : Tensor) : Tensor :=
  {| shape := shape x; item := fun idx => f (item x idx) |}.

(** Broadcasting of one axis: equal sizes, or one of them is 1. *)
Definition bdim (n m : nat) : res nat :=
  if Nat.eqb n m then Ok n
  else if Nat.eqb n 1 then Ok m
  else if Nat.eqb m 1 then Ok n
  else Raise RuntimeError.

(** Broadcasting, on shapes listed from the last axis. *)
Fixpoint bshape_rev (s1 s2 : list nat) : res (list nat) :=
  match s1, s2 with
  | [], s => Ok s
  | s, [] => Ok s
  | n :: r1, m :: r2 =>
      let* d := bdim n m in
      let* r := bshape_rev r1 r2 in
      Ok (d :: r)
  end.

Definition broadcast_shapes (s1 s2 : list nat) : res (list nat) :=
  let* r := bshape_rev (rev s1) (rev s2) in Ok (rev r).

(** The index at which an operand of shape [s] is read for the element
    [idx] of the broadcast result. *)
Definition bidx (s idx : list nat) : list nat :=
  zip_with (fun n i => if Nat.eqb n 1 then 0 else i) s
           (skipn (length idx - length s) idx).

Definition tzip (f : R -> R -> R) (x y : Tensor) : res Tensor :=
  let* s := broadcast_shapes (shape x) (shape y) in
  Ok {| shape := s;
        item := fun idx => f (item x (bidx (shape x) idx))
                             (item y (bidx (shape y) idx)) |}.

(** ** Residual log-F0 prediction *)

Section PredictLf0.
Local Open Scope R_scope.

Definition predict_lf0_with_residual
    (in_feats out_feats : Tensor)
    (in_lf0_idx : Z) (in_lf0_min in_lf0_max : R)
    (out_lf0_idx : Z) (out_lf0_mean out_lf0_scale : R)
    (residual_f0_max_cent : R) : res (Tensor * Tensor) :=
  (* Denormalize lf0 from input musical score *)
  let* lf0_score := select 2 in_lf0_idx in_feats in
  let lf0_score := unsqueeze_last lf0_score in
  let lf0_score_denorm :=
    tmap (fun v => v * (in_lf0_max - in_lf0_min) + in_lf0_min) lf0_score in
  let max_lf0_ratio := residual_f0_max_cent * ln 2 / 1200 in
  let* lf0_residual :=
    (if Nat.eqb (length (shape out_feats)) 4
     then select 3 out_lf0_idx out_feats
     else let* r := select 2 out_lf0_idx out_feats in Ok (unsqueeze_last r)) in
  let lf0_residual := tmap (fun v => max_lf0_ratio * tanh v) lf0_residual in
  (* Residual connection in the denormalized f0 domain *)
  let* lf0_pred_denorm := tzip Rplus lf0_score_denorm lf0_residual in
  (* Back to normalized f0 *)
  let lf0_pred := tmap (fun v => (v - out_lf0_mean) / out_lf0_scale) lf0_pred_denorm in
  Ok (lf0_pred, lf0_residual).

End PredictLf0.


(** ** More of the tensor library *)

(** [torch.zeros_like(x)] *)
Definition zeros_like (x : Tensor) : Tensor :=
  {| shape := shape x; item := fun _ => 0%R |}.

(** A Python scalar used as a tensor. *)
Definition scalar (v : R) : Tensor := {| shape := []; item := fun _ => v |}.

(** The source of an indexed assignment is expanded to the assigned view:
    equal shapes are copied as they are; otherwise leading axes of size 1
    are dropped and the rest must broadcast to the view. *)
Fixpoint strip_ones (s : list nat) : list nat :=
  match s with
  | 1 :: r => strip_ones r
  | _ => s
  end.

Fixpoint expandable_rev (src dst : list nat) : bool :=
  match src, dst with
  | [], _ => true
  | _ :: _, [] => false
  | n :: r1, m :: r2 => (Nat.eqb n m || Nat.eqb n 1) && expandable_rev r1 r2
  end.

Definition expand_to (v : Tensor) (target : list nat) : res Tensor :=
  if decide (shape v = target) then Ok v
  else
    let s := strip_ones (shape v) in
    let dropped := length (shape v) - length s in
    if expandable_rev (rev s) (rev target)
    then Ok {| shape := target;
               item := fun idx => item v (repeat 0 dropped ++ bidx s idx) |}
    else Raise RuntimeError.

(** [dst[:, ..., i, ..., :] = v] with the integer at axis [ax]. *)
Definition setitem_select (ax : nat) (i : Z) (dst v : Tensor) : res Tensor :=
  match nth_error (shape dst) ax with
  | None => Raise IndexError
  | Some n =>
      let* k := py_index n i in
      let* v' := expand_to v (firstn ax (shape dst) ++ skipn (S ax) (shape dst)) in
      Ok {| shape := shape dst;
            item := fun idx =>
              if Nat.eqb (nth ax idx 0) k
              then item v' (firstn ax idx ++ skipn (S ax) idx)
              else item dst idx |}
  end.

(** [x[..., start : start + size]] inside the last axis. *)
Definition narrow_last (start size : nat) (x : Tensor) : Tensor :=
  {| shape := removelast (shape x) ++ [size];
     item := fun idx => item x (removelast idx ++ [start + List.last idx 0]) |}.

(** [x.transpose(1, 2)] *)
Definition swap12 {A} (l : list A) : list A :=
  match l with
  | a :: b :: c :: r => a :: c :: b :: r
  | _ => l
  end.

Definition transpose12 (x : Tensor) : res Tensor :=
  if 3 <=? length (shape x)
  then Ok {| shape := swap12 (shape x); item := fun idx => item x (swap12 idx) |}
  else Raise IndexError.

(** [torch.cat(ts, dim)]: a non-empty list of tensors whose shapes agree
    outside axis [dim]. *)
Fixpoint cat_item (ts : list Tensor) (ax : nat) (idx : list nat) : R :=
  match ts with
  | [] => 0%R
  | t :: r =>
      let n := nth ax (shape t) 0 in
      let i := nth ax idx 0 in
      if i <? n then item t idx
      else cat_item r ax (<[ax := i - n]> idx)
  end.

Definition cat (ts : list Tensor) (dim : Z) : res Tensor :=
  match ts with
  | [] => Raise RuntimeError
  | t0 :: _ =>
      let* ax := py_index (length (shape t0)) dim in
      if forallb (fun t => bool_decide (<[ax := 0]> (shape t) = <[ax := 0]> (shape t0))) ts
      then Ok {| shape := <[ax := list_sum (map (fun t => nth ax (shape t) 0) ts)]> (shape t0);
                 item := cat_item ts ax |}
      else Raise RuntimeError
  end.

(** [x.view(-1)] as the list of the elements in row-major order. *)
Fixpoint indices (s : list nat) : list (list nat) :=
  match s with
  | [] => [[]]
  | n :: r => flat_map (fun i => map (cons i) (indices r)) (seq 0 n)
  end.

Definition view_flat (x : Tensor) : list R := map (item x) (indices (shape x)).

(** [v[0] = 1] on a coefficient vector. *)
Definition set_first_one (v : list R) : res (list R) :=
  match v with
  | [] => Raise IndexError
  | _ :: r => Ok (1%R :: r)
  end.

(** Monadic loops. *)
Fixpoint foldM {A S} (f : S -> A -> res S) (l : list A) (s : S) : res S :=
  match l with
  | [] => Ok s
  | a :: r => let* s' := f s a in foldM f r s'
  end.

Fixpoint mapM_enum {A B} (f : nat -> A -> res B) (i : nat) (l : list A)
  : res (list B) :=
  match l with
  | [] => Ok []
  | a :: r => let* b := f i a in
              let* bs := mapM_enum f (S i) r in
              Ok (b :: bs)
  end.

(** ** [torchaudio.functional.lfilter]

    The direct-form difference equation
    [a0 y[n] = b0 x[n] + ... + bK x[n-K] - a1 y[n-1] - ... - aK y[n-K]]
    along the last axis, from zero initial conditions. *)

Section LFilter.
Local Open Scope R_scope.

Fixpoint dot (u v : list R) : R :=
  match u, v with
  | a :: u', b :: v' => a * b + dot u' v'
  | _, _ => 0
  end.

(** [x[n], x[n-1], ..., x[0]] *)
Fixpoint past (x : nat -> R) (n : nat) : list R :=
  match n with
  | O => [x O]
  | S m => x n :: past x m
  end.

(** The outputs [y[n-1], ..., y[0]], most recent first. *)
Fixpoint iir_hist (a b : list R) (x : nat -> R) (n : nat) : list R :=
  match n with
  | O => []
  | S m =>
      let h := iir_hist a b x m in
      ((dot b (past x m) - dot (tl a) h) / hd 0 a) :: h
  end.

Definition iir (a b : list R) (x : nat -> R) (n : nat) : R :=
  hd 0 (iir_hist a b x (S n)).

Definition lfilter (waveform : Tensor) (a_coeffs b_coeffs : list R) : res Tensor :=
  if negb (Nat.eqb (length a_coeffs) (length b_coeffs)) then Raise AssertionError
  else match shape waveform with
       | [] => Raise IndexError
       | _ :: _ =>
           Ok {| shape := shape waveform;
                 item := fun idx =>
                   iir a_coeffs b_coeffs
                       (fun n => item waveform (removelast idx ++ [n]))
                       (List.last idx O) |}
       end.

End LFilter.

(** ** Stream splitting *)

Fixpoint split_from (x : Tensor) (start : nat) (sizes : list nat) : list Tensor :=
  match sizes with
  | [] => []
  | n :: r => narrow_last start n x :: split_from x (start + n) r
  end.

(** Modelled from the spec: [nnsvs.multistream.split_streams] is not part
    of the sources.  Section 4.4: the flat vector is split into the ordered
    list of sub-vectors of the declared widths, and the split fails with
    LayoutMismatchError when the widths do not sum to the last dimension. *)
Definition split_streams (inputs : Tensor) (stream_sizes : list nat)
  : res (list Tensor) :=
  match rev (shape inputs) with
  | [] => Raise LayoutMismatchError
  | c :: _ =>
      if list_sum stream_sizes =? c
      then Ok (split_from inputs 0 stream_sizes)
      else Raise LayoutMismatchError
  end.

(** ** The analysis filter bank *)

(** Modelled from the spec: [nnsvs.dsp.TrTimeInvFIRFilter] is not part of
    the sources.  Section 3: an ordered set of K+1 learned coefficients per
    scalar dimension of a stream, here the kernel of shape
    (channels, 1, K+1) that the callers read with [a[idx].view(-1)]. *)
Record TrTimeInvFIRFilter := { weight : Tensor }.

(** Modelled from the spec: [TrTimeInvFIRFilter.get_filt_coefs].
    Section 4.2: the coefficient that has index zero in the recursion is
    fixed to 1; the recursion runs on the time-reversed coefficients, so
    this is the coefficient stored last. *)
Definition get_filt_coefs (f : TrTimeInvFIRFilter) : res Tensor :=
  setitem_select 2 (-1) (weight f) (scalar 1).

(** The coefficients of channel [c], in stored order: [a[c].view(-1)]. *)
Definition taps (a : Tensor) (c : nat) : list R :=
  view_flat {| shape := tl (shape a); item := fun r => item a (c :: r) |}.

(** The start of stream [s] in the flat layout. *)
Definition stream_offset (stream_sizes : list nat) (s : nat) : nat :=
  list_sum (firstn s stream_sizes).

Section Analysis.
Local Open Scope R_scope.

(** One output sample of a causal K+1-tap filter kept in the layout of a
    convolution kernel: tap [j] meets the sample [K - j] steps back, and the
    samples before time 0 are zero. *)
Definition causal_conv (w : list R) (x : nat -> R) (t : nat) : R :=
  let K := (length w - 1)%nat in
  dot w (map (fun j => if (t + j <? K)%nat then 0 else x (t + j - K)%nat)
             (seq 0 (length w))).

(** Modelled from the spec: [TrTimeInvFIRFilter.forward].  Section 4.2,
    training side: every scalar dimension of a (batch, channel, time)
    trajectory is convolved causally along time with its own K+1 taps, from
    zero history; the output has the shape of the input.  The callers hand
    the filter the "conv1d friendly (B, C, T) format" and reverse the
    coefficients before the recursion, so the taps are kept as a
    convolution kernel. *)
Definition fir_forward (f : TrTimeInvFIRFilter) (x : Tensor) : res Tensor :=
  let* b := get_filt_coefs f in
  match shape x, shape b with
  | [B; C; T], [C'; 1%nat; _] =>
      if (C =? C')%nat
      then Ok {| shape := [B; C; T];
                 item := fun idx =>
                   let bi := nth 0 idx O in
                   let c := nth 1 idx O in
                   causal_conv (taps b c) (fun n => item x [bi; c; n])
                               (nth 2 idx O) |}
      else Raise RuntimeError
  | _, _ => Raise RuntimeError
  end.

End Analysis.

(** ** Shallow-AR synthesis *)

Definition getitem {A} (l : list A) (i : nat) : res A :=
  match nth_error l i with
  | Some a => Ok a
  | None => Raise IndexError
  end.

(** The body of the loop over the dimensions of one stream. *)
Definition sar_dim (os a : Tensor) (out_stream_syn : Tensor) (idx : nat)
  : res Tensor :=
  let* arow := select 0 (Z.of_nat idx) a in
  let ai := rev (view_flat arow) in
  let* bi := set_first_one (map (fun _ => 0%R) ai) in
  let* w := select 1 (Z.of_nat idx) os in
  let* y := lfilter w ai bi in
  setitem_select 1 (Z.of_nat idx) out_stream_syn y.

(** The body of the loop over the streams. *)
Definition sar_stream (analysis_filts : list TrTimeInvFIRFilter)
    (sidx : nat) (x : Tensor) : res Tensor :=
  (* back to conv1d friendly (B, C, T) format *)
  let* os := transpose12 x in
  let out_stream_syn := zeros_like os in
  let* filt := getitem analysis_filts sidx in
  let* a := get_filt_coefs filt in
  (* apply IIR filter for each dimension *)
  foldM (sar_dim os a) (seq 0 (nth 1 (shape os) 0)) out_stream_syn.

Definition _shallow_ar_inference (out : Tensor) (stream_sizes : list nat)
    (analysis_filts : list TrTimeInvFIRFilter) : res Tensor :=
  let* out_streams := split_streams out stream_sizes in
  let* out_syn := mapM_enum (sar_stream analysis_filts) 0 out_streams in
  let* out_syn := cat out_syn 1 in
  transpose12 out_syn.

(** [preprocess_target] of [Conv1dResnetSAR] and of [LSTMRNNSAR]. *)
Definition preprocess_target (stream_sizes : list nat)
    (analysis_filts : list TrTimeInvFIRFilter) (y : Tensor) : res Tensor :=
  match rev (shape y) with
  | [] => Raise IndexError
  | c :: _ =>
      if negb (list_sum stream_sizes =? c) then Raise AssertionError
      else
        let* ys := split_streams y stream_sizes in
        let* ys :=
          mapM_enum (fun idx yi =>
                       let* filt := getitem analysis_filts idx in
                       let* yt := transpose12 yi in
                       let* r := fir_forward filt yt in
                       transpose12 r) 0 ys in
        cat ys (-1)
  end.

(** ** Python values and attributes *)

Inductive pyval :=
| PyInt (z : Z)
| PyFloat (r : R).

Definition float_of (v : pyval) : R :=
  match v with
  | PyInt z => IZR z
  | PyFloat r => r
  end.

(** A tensor is indexed by integers only. *)
Definition index_of (v : pyval) : res Z :=
  match v with
  | PyInt z => Ok z
  | PyFloat _ => Raise IndexError
  end.

(** [v == n] for an integer [n]. *)
Definition py_eq_int (v : pyval) (n : Z) : bool :=
  match v with
  | PyInt z => Z.eqb z n
  | PyFloat r => if Req_dec_T r (IZR n) then true else false
  end.

Definition hasattr (a : gmap string pyval) (name : string) : bool :=
  bool_decide (is_Some (a !! name)).

Definition getattr (a : gmap string pyval) (name : string) : res pyval :=
  match a !! name with
  | Some v => Ok v
  | None => Raise AttributeError
  end.

(** The optional [lengths] argument. *)
Definition Lengths := option (list nat).

(** A trained network: any function on tensors that may raise. *)
Definition Net := Tensor -> res Tensor.

(** A recurrent block (pack, LSTM, pad) that also reads [lengths]. *)
Definition SeqNet := Tensor -> Lengths -> res Tensor.

(** An MDN layer returns [(log_pi, log_sigma, mu)]. *)
Definition MDNLayer := Tensor -> res (Tensor * Tensor * Tensor).

(** What [forward] and [inference] return. *)
Inductive Output :=
| Traj (out : Tensor)
| Mixture (log_pi log_sigma mu : Tensor)
| MeanVar (mu sigma : Tensor).

(** Calling an attribute that may be [None] or absent. *)
Definition call_opt {A B} (f : option (A -> res B)) (a : A) : res B :=
  match f with
  | Some g => g a
  | None => Raise TypeError
  end.

(** ** Residual-F0 injection

    The tail shared, statement for statement, by the [forward] methods of
    [ResF0Conv1dResnet], [ResSkipF0FFConvLSTM] and [ResF0VariancePredictor]:
    the call of [predict_lf0_with_residual] with the model's six
    attributes (and the default [residual_f0_max_cent = 600]) and the
    assignment of the predicted lf0 into [mu]. *)
Definition lf0_injection (attrs : gmap string pyval) (use_mdn : bool)
    (x mu : Tensor) : res (Tensor * Tensor) :=
  let* in_lf0_idx := getattr attrs "in_lf0_idx" in
  let* in_lf0_min := getattr attrs "in_lf0_min" in
  let* in_lf0_max := getattr attrs "in_lf0_max" in
  let* out_lf0_idx := getattr attrs "out_lf0_idx" in
  let* out_lf0_mean := getattr attrs "out_lf0_mean" in
  let* out_lf0_scale := getattr attrs "out_lf0_scale" in
  let* i := index_of in_lf0_idx in
  let* o := index_of out_lf0_idx in
  let* '(lf0_pred, lf0_residual) :=
    predict_lf0_with_residual x mu i (float_of in_lf0_min) (float_of in_lf0_max)
      o (float_of out_lf0_mean) (float_of out_lf0_scale) 600 in
  (* Inject the predicted lf0 into the output features *)
  let* mu' :=
    (if use_mdn
     then setitem_select 3 o mu (squeeze_last lf0_pred)
     else setitem_select 2 o mu (squeeze_last lf0_pred)) in
  Ok (mu', lf0_residual).

(** The six attributes as [forward] reads them: both indices are
    integers. *)
Definition lf0_attrs (a : gmap string pyval) (i o : Z)
    (vmin vmax vmean vscale : pyval) : Prop :=
  a !! "in_lf0_idx" = Some (PyInt i) /\
  a !! "in_lf0_min" = Some vmin /\
  a !! "in_lf0_max" = Some vmax /\
  a !! "out_lf0_idx" = Some (PyInt o) /\
  a !! "out_lf0_mean" = Some vmean /\
  a !! "out_lf0_scale" = Some vscale.

(** ** The predictors *)

Section Predictors.

(** [nnsvs.mdn.mdn_get_most_probable_sigma_and_mu] is not part of the
    sources; the predictors take it as a parameter. *)
Variable mdn_get_most_probable_sigma_and_mu :
  Tensor -> Tensor -> Tensor -> res (Tensor * Tensor).

Definition resolve_mixture (o : Output) : res Output :=
  match o with
  | Mixture log_pi log_sigma mu =>
      let* '(sigma, mu) := mdn_get_most_probable_sigma_and_mu log_pi log_sigma mu in
      Ok (MeanVar mu sigma)
  | _ => Raise TypeError
  end.

(** [self.model(x.transpose(1, 2)).transpose(1, 2)] *)
Definition conv_apply (model : Net) (x : Tensor) : res Tensor :=
  let* xt := transpose12 x in
  let* o := model xt in
  transpose12 o.

(** *** Conv1dResnet *)

Record Conv1dResnet := {
  c_use_mdn : bool;
  c_model : Net;
  c_mdn_layer : option MDNLayer
}.

Definition Conv1dResnet_forward (self : Conv1dResnet) (x : Tensor)
    (lengths : Lengths) : res Output :=
  let* out := conv_apply (c_model self) x in
  if c_use_mdn self
  then let* '(log_pi, log_sigma, mu) := call_opt (c_mdn_layer self) out in
       Ok (Mixture log_pi log_sigma mu)
  else Ok (Traj out).

Definition Conv1dResnet_inference (self : Conv1dResnet) (x : Tensor)
    (lengths : Lengths) : res Output :=
  if c_use_mdn self
  then let* o := Conv1dResnet_forward self x lengths in resolve_mixture o
  else Conv1dResnet_forward self x lengths.

(** *** Conv1dResnetSAR

    A subclass of [Conv1dResnet]: its constructor calls the parent's
    without [use_mdn], so [use_mdn] is [False] and [forward] is inherited. *)

Record Conv1dResnetSAR := {
  cs_model : Net;
  cs_stream_sizes : list nat;
  cs_analysis_filts : list TrTimeInvFIRFilter
}.

Definition Conv1dResnetSAR_super (self : Conv1dResnetSAR) : Conv1dResnet :=
  {| c_use_mdn := false; c_model := cs_model self; c_mdn_layer := None |}.

Definition Conv1dResnetSAR_forward (self : Conv1dResnetSAR) (x : Tensor)
    (lengths : Lengths) : res Output :=
  Conv1dResnet_forward (Conv1dResnetSAR_super self) x lengths.

Definition Conv1dResnetSAR_preprocess_target (self : Conv1dResnetSAR)
    (y : Tensor) : res Tensor :=
  preprocess_target (cs_stream_sizes self) (cs_analysis_filts self) y.

Definition Conv1dResnetSAR_inference (self : Conv1dResnetSAR) (x : Tensor)
    (lengths : Lengths) : res Output :=
  let* out := conv_apply (cs_model self) x in
  let* r := _shallow_ar_inference out (cs_stream_sizes self)
                                  (cs_analysis_filts self) in
  Ok (Traj r).

(** *** LSTMRNN and LSTMRNNSAR *)

Record LSTMRNN := {
  l_lstm : SeqNet;
  l_hidden2out : Net
}.

Definition LSTMRNN_forward (self : LSTMRNN) (x : Tensor) (lengths : Lengths)
  : res Output :=
  let* out := l_lstm self x lengths in
  let* out := l_hidden2out self out in
  Ok (Traj out).

Record LSTMRNNSAR := {
  ls_super : LSTMRNN;
  ls_stream_sizes : list nat;
  ls_analysis_filts : list TrTimeInvFIRFilter
}.

Definition LSTMRNNSAR_forward (self : LSTMRNNSAR) (x : Tensor)
    (lengths : Lengths) : res Output :=
  LSTMRNN_forward (ls_super self) x lengths.

Definition LSTMRNNSAR_preprocess_target (self : LSTMRNNSAR) (y : Tensor)
  : res Tensor :=
  preprocess_target (ls_stream_sizes self) (ls_analysis_filts self) y.

Definition LSTMRNNSAR_inference (self : LSTMRNNSAR) (x : Tensor)
    (lengths : Lengths) : res Output :=
  let* o := LSTMRNNSAR_forward self x lengths in
  match o with
  | Traj out =>
      let* r := _shallow_ar_inference out (ls_stream_sizes self)
                                      (ls_analysis_filts self) in
      Ok (Traj r)
  | _ => Raise TypeError
  end.

(** *** ResF0Conv1dResnet *)

Record ResF0Conv1dResnet := {
  rc_attrs : gmap string pyval;
  rc_use_mdn : bool;
  rc_model : Net;
  rc_mdn_layer : option MDNLayer
}.

(** The network output before the lf0 is injected: the mixture weights
    and scales, if any, and [mu]. *)
Definition ResF0Conv1dResnet_raw (self : ResF0Conv1dResnet) (x : Tensor)
    (lengths : Lengths) : res (option (Tensor * Tensor) * Tensor) :=
  let* out := conv_apply (rc_model self) x in
  if rc_use_mdn self
  then let* '(log_pi, log_sigma, mu) := call_opt (rc_mdn_layer self) out in
       Ok (Some (log_pi, log_sigma), mu)
  else Ok (None, out).

Definition with_mu (mix : option (Tensor * Tensor)) (mu : Tensor) : Output :=
  match mix with
  | Some (log_pi, log_sigma) => Mixture log_pi log_sigma mu
  | None => Traj mu
  end.

Definition ResF0Conv1dResnet_forward (self : ResF0Conv1dResnet) (x : Tensor)
    (lengths : Lengths) : res (Output * Tensor) :=
  let* '(mix, mu) := ResF0Conv1dResnet_raw self x lengths in
  let* '(mu, lf0_residual) :=
    lf0_injection (rc_attrs self) (rc_use_mdn self) x mu in
  Ok (with_mu mix mu, lf0_residual).

Definition ResF0Conv1dResnet_inference (self : ResF0Conv1dResnet) (x : Tensor)
    (lengths : Lengths) : res Output :=
  if rc_use_mdn self
  then let* '(o, _) := ResF0Conv1dResnet_forward self x lengths in
       resolve_mixture o
  else let* r := ResF0Conv1dResnet_forward self x lengths in Ok (fst r).

(** *** ResSkipF0FFConvLSTM *)

Record ResSkipF0FFConvLSTM := {
  rs_attrs : gmap string pyval;
  rs_skip_inputs : bool;
  rs_use_mdn : bool;
  rs_ff : Net;
  rs_conv : Net;
  rs_lstm : SeqNet;
  rs_fc : option Net;
  rs_mdn_layer : option MDNLayer
}.

Definition ResSkipF0FFConvLSTM_raw (self : ResSkipF0FFConvLSTM) (x : Tensor)
    (lengths : Lengths) : res (option (Tensor * Tensor) * Tensor) :=
  let* in_lf0_idx := getattr (rs_attrs self) "in_lf0_idx" in
  let* i := index_of in_lf0_idx in
  let* lf0_score := select 2 i x in
  let lf0_score := unsqueeze_last lf0_score in
  let* out := rs_ff self x in
  let* out := cat [out; lf0_score] (-1) in
  let* out := conv_apply (rs_conv self) out in
  let* out := rs_lstm self out lengths in
  let* out := (if rs_skip_inputs self then cat [out; x] (-1) else Ok out) in
  if rs_use_mdn self
  then let* '(log_pi, log_sigma, mu) := call_opt (rs_mdn_layer self) out in
       Ok (Some (log_pi, log_sigma), mu)
  else let* mu := call_opt (rs_fc self) out in Ok (None, mu).

Definition ResSkipF0FFConvLSTM_forward (self : ResSkipF0FFConvLSTM)
    (x : Tensor) (lengths : Lengths) : res (Output * Tensor) :=
  let* '(mix, mu) := ResSkipF0FFConvLSTM_raw self x lengths in
  let* '(mu, lf0_residual) :=
    lf0_injection (rs_attrs self) (rs_use_mdn self) x mu in
  Ok (with_mu mix mu, lf0_residual).

Definition ResSkipF0FFConvLSTM_inference (self : ResSkipF0FFConvLSTM)
    (x : Tensor) (lengths : Lengths) : res Output :=
  if rs_use_mdn self
  then let* '(o, _) := ResSkipF0FFConvLSTM_forward self x lengths in
       resolve_mixture o
  else let* r := ResSkipF0FFConvLSTM_forward self x lengths in Ok (fst r).

(** *** ResF0VariancePredictor *)

Record ResF0VariancePredictor := {
  rv_attrs : gmap string pyval;
  rv_conv : Net;
  rv_fc : Net
}.

Definition ResF0VariancePredictor_raw (self : ResF0VariancePredictor)
    (x : Tensor) (lengths : Lengths) : res Tensor :=
  let* xt := transpose12 x in
  let* out := rv_conv self xt in
  let* ot := transpose12 out in
  rv_fc self ot.

Definition ResF0VariancePredictor_forward (self : ResF0VariancePredictor)
    (x : Tensor) (lengths : Lengths) : res (Tensor * Tensor) :=
  let* out := ResF0VariancePredictor_raw self x lengths in
  lf0_injection (rv_attrs self) false x out.

Definition ResF0VariancePredictor_inference (self : ResF0VariancePredictor)
    (x : Tensor) (lengths : Lengths) : res Tensor :=
  let* r := ResF0VariancePredictor_forward self x lengths in Ok (fst r).

(** *** The predictors with a deterministic configuration

    The classes of this module that define [inference] and can be
    deterministic.  [RMDN], [MDN] and [Conv1dResnetMDN] are always
    probabilistic; [FFN], [LSTMRNN], [FFConvLSTM] and [VariancePredictor]
    inherit [inference] from [nnsvs.base.BaseModel], which is not part of
    the sources. *)

Inductive Predictor :=
| PConv1dResnet (m : Conv1dResnet)
| PConv1dResnetSAR (m : Conv1dResnetSAR)
| PLSTMRNNSAR (m : LSTMRNNSAR)
| PResF0Conv1dResnet (m : ResF0Conv1dResnet)
| PResSkipF0FFConvLSTM (m : ResSkipF0FFConvLSTM)
| PResF0VariancePredictor (m : ResF0VariancePredictor).

(** [use_mdn]; the classes without the flag have no mixture layer. *)
Definition use_mdn (p : Predictor) : bool :=
  match p with
  | PConv1dResnet m => c_use_mdn m
  | PConv1dResnetSAR m => c_use_mdn (Conv1dResnetSAR_super m)
  | PLSTMRNNSAR _ => false
  | PResF0Conv1dResnet m => rc_use_mdn m
  | PResSkipF0FFConvLSTM m => rs_use_mdn m
  | PResF0VariancePredictor _ => false
  end.

(** The stream sizes and filters of the shallow-AR predictors. *)
Definition sar_config (p : Predictor)
  : option (list nat * list TrTimeInvFIRFilter) :=
  match p with
  | PConv1dResnetSAR m => Some (cs_stream_sizes m, cs_analysis_filts m)
  | PLSTMRNNSAR m => Some (ls_stream_sizes m, ls_analysis_filts m)
  | _ => None
  end.

(** The synthesis filter applied to a trajectory. *)
Definition sar_filtered (cfg : list nat * list TrTimeInvFIRFilter) (o : Output)
  : res Output :=
  match o with
  | Traj out =>
      let* r := _shallow_ar_inference out (fst cfg) (snd cfg) in Ok (Traj r)
  | _ => Raise TypeError
  end.

(** The output of [forward]; for the residual-F0 models the first
    component of the pair. *)
Definition forward_output (p : Predictor) (x : Tensor) (lengths : Lengths)
  : res Output :=
  match p with
  | PConv1dResnet m => Conv1dResnet_forward m x lengths
  | PConv1dResnetSAR m => Conv1dResnetSAR_forward m x lengths
  | PLSTMRNNSAR m => LSTMRNNSAR_forward m x lengths
  | PResF0Conv1dResnet m =>
      let* r := ResF0Conv1dResnet_forward m x lengths in Ok (fst r)
  | PResSkipF0FFConvLSTM m =>
      let* r := ResSkipF0FFConvLSTM_forward m x lengths in Ok (fst r)
  | PResF0VariancePredictor m =>
      let* r := ResF0VariancePredictor_forward m x lengths in Ok (Traj (fst r))
  end.

Definition inference (p : Predictor) (x : Tensor) (lengths : Lengths)
  : res Output :=
  match p with
  | PConv1dResnet m => Conv1dResnet_inference m x lengths
  | PConv1dResnetSAR m => Conv1dResnetSAR_inference m x lengths
  | PLSTMRNNSAR m => LSTMRNNSAR_inference m x lengths
  | PResF0Conv1dResnet m => ResF0Conv1dResnet_inference m x lengths
  | PResSkipF0FFConvLSTM m => ResSkipF0FFConvLSTM_inference m x lengths
  | PResF0VariancePredictor m =>
      let* r := ResF0VariancePredictor_inference m x lengths in Ok (Traj r)
  end.

End Predictors.

(** *** The residual-F0 predictors *)

Inductive ResF0Predictor :=
| RConv (m : ResF0Conv1dResnet)
| RSkip (m : ResSkipF0FFConvLSTM)
| RVar (m : ResF0VariancePredictor).

Definition resf0_attrs (p : ResF0Predictor) : gmap string pyval :=
  match p with
  | RConv m => rc_attrs m
  | RSkip m => rs_attrs m
  | RVar m => rv_attrs m
  end.

Definition resf0_use_mdn (p : ResF0Predictor) : bool :=
  match p with
  | RConv m => rc_use_mdn m
  | RSkip m => rs_use_mdn m
  | RVar _ => false
  end.

(** The model's raw output: [mu] before the assignment to its lf0 column. *)
Definition resf0_raw (p : ResF0Predictor) (x : Tensor) (lengths : Lengths)
  : res (option (Tensor * Tensor) * Tensor) :=
  match p with
  | RConv m => ResF0Conv1dResnet_raw m x lengths
  | RSkip m => ResSkipF0FFConvLSTM_raw m x lengths
  | RVar m => let* out := ResF0VariancePredictor_raw m x lengths in Ok (None, out)
  end.

Definition resf0_forward (p : ResF0Predictor) (x : Tensor) (lengths : Lengths)
  : res (Output * Tensor) :=
  match p with
  | RConv m => ResF0Conv1dResnet_forward m x lengths
  | RSkip m => ResSkipF0FFConvLSTM_forward m x lengths
  | RVar m =>
      let* '(out, lf0_residual) := ResF0VariancePredictor_forward m x lengths in
      Ok (Traj out, lf0_residual)
  end.

(** ** Sub-models of the composer

    A sub-model is an object with attributes and a [forward] that reads
    them when it is called. *)

Record PyModule (O : Type) := {
  attrs : gmap string pyval;
  call : gmap string pyval -> Tensor -> Lengths -> res O
}.
Arguments attrs {O} _.
Arguments call {O} _ _ _ _.

Definition invoke {O} (m : PyModule O) (x : Tensor) (lengths : Lengths) : res O :=
  call m (attrs m) x lengths.

Definition set_attrs {O} (m : PyModule O) (a : gmap string pyval) : PyModule O :=
  {| attrs := a; call := call m |}.

(** A [ResF0VariancePredictor] as a sub-model. *)
Definition ResF0VariancePredictor_module (p : ResF0VariancePredictor)
  : PyModule (Tensor * Tensor) :=
  {| attrs := rv_attrs p;
     call := fun a x lengths =>
       ResF0VariancePredictor_forward
         {| rv_attrs := a; rv_conv := rv_conv p; rv_fc := rv_fc p |} x lengths |}.

(** Tuple unpacking of a list. *)
Definition unpack2 {A} (l : list A) : res (A * A) :=
  match l with
  | [a; b] => Ok (a, b)
  | _ => Raise ValueError
  end.

Definition unpack3 {A} (l : list A) : res (A * A * A) :=
  match l with
  | [a; b; c] => Ok (a, b, c)
  | _ => Raise ValueError
  end.

Definition unpack4 {A} (l : list A) : res (A * A * A * A) :=
  match l with
  | [a; b; c; d] => Ok (a, b, c, d)
  | _ => Raise ValueError
  end.

(** ** MultistreamParametricModel *)

Module MultistreamParametricModel.

(** The [*_has_dynamic_features] and [*_num_windows] arguments are stored
    and never read in this file; they are left out. *)
Record t := {
  energy_model : PyModule Tensor;
  energy_stream_sizes : list nat;
  pitch_model : PyModule (Tensor * Tensor);
  pitch_stream_sizes : list nat;
  timbre_model : PyModule Tensor;
  timbre_stream_sizes : list nat;
  in_lf0_idx : pyval;
  in_lf0_min : pyval;
  in_lf0_max : pyval;
  out_lf0_idx : pyval;
  out_lf0_mean : pyval;
  out_lf0_scale : pyval
}.

(** [if hasattr(model, "out_dim"): assert model.out_dim == sum(sizes)] *)
Definition check_out_dim {O} (model : PyModule O) (stream_sizes : list nat)
  : res unit :=
  if hasattr (attrs model) "out_dim"
  then let* out_dim := getattr (attrs model) "out_dim" in
       if py_eq_int out_dim (Z.of_nat (list_sum stream_sizes))
       then Ok tt
       else Raise AssertionError
  else Ok tt.

Definition __init__
    (energy_model : PyModule Tensor) (energy_stream_sizes : list nat)
    (pitch_model : PyModule (Tensor * Tensor)) (pitch_stream_sizes : list nat)
    (timbre_model : PyModule Tensor) (timbre_stream_sizes : list nat)
    (in_lf0_idx in_lf0_min in_lf0_max out_lf0_idx out_lf0_mean out_lf0_scale : pyval)
  : res t :=
  let* _ := check_out_dim energy_model energy_stream_sizes in
  let* _ := check_out_dim pitch_model pitch_stream_sizes in
  let* _ := check_out_dim timbre_model timbre_stream_sizes in
  Ok {| energy_model := energy_model;
        energy_stream_sizes := energy_stream_sizes;
        pitch_model := pitch_model;
        pitch_stream_sizes := pitch_stream_sizes;
        timbre_model := timbre_model;
        timbre_stream_sizes := timbre_stream_sizes;
        in_lf0_idx := in_lf0_idx;
        in_lf0_min := in_lf0_min;
        in_lf0_max := in_lf0_max;
        out_lf0_idx := out_lf0_idx;
        out_lf0_mean := out_lf0_mean;
        out_lf0_scale := out_lf0_scale |}.

Definition set_pitch_model (self : t) (m : PyModule (Tensor * Tensor)) : t :=
  {| energy_model := energy_model self;
     energy_stream_sizes := energy_stream_sizes self;
     pitch_model := m;
     pitch_stream_sizes := pitch_stream_sizes self;
     timbre_model := timbre_model self;
     timbre_stream_sizes := timbre_stream_sizes self;
     in_lf0_idx := in_lf0_idx self;
     in_lf0_min := in_lf0_min self;
     in_lf0_max := in_lf0_max self;
     out_lf0_idx := out_lf0_idx self;
     out_lf0_mean := out_lf0_mean self;
     out_lf0_scale := out_lf0_scale self |}.

(** The five assignments of [_set_lf0_params], in the order of the source. *)
Definition propagate (self : t) (a : gmap string pyval) : gmap string pyval :=
  <["out_lf0_scale" := out_lf0_scale self]>
  (<["out_lf0_mean" := out_lf0_mean self]>
  (<["in_lf0_max" := in_lf0_max self]>
  (<["in_lf0_min" := in_lf0_min self]>
  (<["in_lf0_idx" := in_lf0_idx self]> a)))).

Definition _set_lf0_params (self : t) : t :=
  (* Special care for residual F0 prediction models *)
  (* NOTE: don't overwrite out_lf0_idx *)
  if hasattr (attrs (pitch_model self)) "out_lf0_mean"
  then set_pitch_model self
         (set_attrs (pitch_model self)
                    (propagate self (attrs (pitch_model self))))
  else self.

(** The streams of the pitch model, by the length of [pitch_stream_sizes]. *)
Inductive pitch_streams :=
| Pitch2 (lf0 vuv : Tensor)
| Pitch3 (lf0 vuv vib : Tensor)
| Pitch4 (lf0 vuv vib vib_flags : Tensor).

(** The body of [forward] after [self._set_lf0_params()]. *)
Definition compose (self : t) (x : Tensor) (lengths : Lengths)
  : res (Tensor * Tensor) :=
  let* out := invoke (energy_model self) x lengths in
  let* es := split_streams out (energy_stream_sizes self) in
  let* erg := getitem es 0 in
  (* NOTE: so far assuming residual F0 prediction models *)
  let* '(out, lf0_residual) := invoke (pitch_model self) x lengths in
  let* ps := split_streams out (pitch_stream_sizes self) in
  let* pitch :=
    (if length (pitch_stream_sizes self) =? 2
     then let* '(lf0, vuv) := unpack2 ps in Ok (Pitch2 lf0 vuv)
     else if length (pitch_stream_sizes self) =? 3
     then let* '(lf0, vuv, vib) := unpack3 ps in Ok (Pitch3 lf0 vuv vib)
     else let* '(lf0, vuv, vib, vib_flags) := unpack4 ps in
          Ok (Pitch4 lf0 vuv vib vib_flags)) in
  let* out := invoke (timbre_model self) x lengths in
  let* ts := split_streams out (timbre_stream_sizes self) in
  let* '(mgc, bap) := unpack2 ts in
  (* concat mgcs' 0-th and rest dims *)
  let* mgc := cat [erg; mgc] (-1) in
  (* make a concatenated stream *)
  let* out :=
    match pitch with
    | Pitch2 lf0 vuv => cat [mgc; lf0; vuv; bap] (-1)
    | Pitch3 lf0 vuv vib => cat [mgc; lf0; vuv; bap; vib] (-1)
    | Pitch4 lf0 vuv vib vib_flags => cat [mgc; lf0; vuv; bap; vib; vib_flags] (-1)
    end in
  Ok (out, lf0_residual).

(** [forward] returns the object after the assignments to the pitch
    model's attributes, and the result or the exception. *)
Definition forward (self : t) (x : Tensor) (lengths : Lengths)
  : t * res (Tensor * Tensor) :=
  let self := _set_lf0_params self in
  (self, compose self x lengths).

Definition inference (self : t) (x : Tensor) (lengths : Lengths)
  : t * res Tensor :=
  let '(self, r) := forward self x lengths in
  (self, let* '(out, _) := r in Ok out).

End MultistreamParametricModel.

(** A sub-model declares an output width that disagrees with the sum of
    its stream sizes. *)
Definition declares_mismatch {O} (model : PyModule O) (stream_sizes : list nat)
  : Prop :=
  exists v, attrs model !! "out_dim" = Some v /\
            py_eq_int v (Z.of_nat (list_sum stream_sizes)) = false.

(** Every stream has its filter, with one row of K+1 coefficients per
    dimension of the stream. *)
Definition filters_fit (stream_sizes : list nat)
    (analysis_filts : list TrTimeInvFIRFilter) : Prop :=
  forall s n, nth_error stream_sizes s = Some n ->
    exists f K, nth_error analysis_filts s = Some f /\
                shape (weight f) = [n; 1; S K].

(** ** Example inputs *)

Definition const_tensor (s : list nat) (v : R) : Tensor :=
  {| shape := s; item := fun _ => v |}.

(** A sub-model without attributes that answers with a fixed tensor. *)
Definition const_module (out : Tensor) : PyModule Tensor :=
  {| attrs := ∅; call := fun _ _ _ => Ok out |}.



(** A one-frame batch whose score pitch is 1/2, and an all-zero raw
    output. *)
Definition half_frame : Tensor :=
  {| shape := [1; 1; 1]; item := fun _ => (/ 2)%R |}.
Definition zero_frame : Tensor :=
  {| shape := [1; 1; 1]; item := fun _ => 0%R |}.

(** Attributes of a residual-F0 model whose lf0 is column 0 on both
    sides. *)
Definition example_attrs : gmap string pyval :=
  <["in_lf0_idx" := PyInt 0]>
  (<["in_lf0_min" := PyInt 5]>
  (<["in_lf0_max" := PyInt 6]>
  (<["out_lf0_idx" := PyInt 0]>
  (<["out_lf0_mean" := PyInt 0]>
  (<["out_lf0_scale" := PyInt 1]> ∅))))).

(** A variance predictor whose network answers with [zero_frame]. *)
Definition example_variance_predictor : ResF0VariancePredictor :=
  {| rv_attrs := example_attrs;
     rv_conv := fun x => Ok x;
     rv_fc := fun _ => Ok zero_frame |}.

(** A pitch predictor with streams lf0, vuv and vibrato (widths 1, 1, 3)
    whose network answers with zeros. *)
Definition example_pitch_predictor : ResF0VariancePredictor :=
  {| rv_attrs := example_attrs;
     rv_conv := fun x => Ok x;
     rv_fc := fun _ => Ok (const_tensor [1; 1; 5] 0%R) |}.

(** The composer of section 8 of the specification: energy width 1, timbre
    widths 179 and 15, pitch widths 1, 1 and 3. *)
Definition example_composer : MultistreamParametricModel.t :=
  {| MultistreamParametricModel.energy_model := const_module (const_tensor [1; 1; 1] 1%R);
     MultistreamParametricModel.energy_stream_sizes := [1];
     MultistreamParametricModel.pitch_model :=
       ResF0VariancePredictor_module example_pitch_predictor;
     MultistreamParametricModel.pitch_stream_sizes := [1; 1; 3];
     MultistreamParametricModel.timbre_model := const_module (const_tensor [1; 1; 194] 2%R);
     MultistreamParametricModel.timbre_stream_sizes := [179; 15];
     MultistreamParametricModel.in_lf0_idx := PyInt 0;
     MultistreamParametricModel.in_lf0_min := PyFloat (539 / 100)%R;
     MultistreamParametricModel.in_lf0_max := PyFloat (649 / 100)%R;
     MultistreamParametricModel.out_lf0_idx := PyInt 180;
     MultistreamParametricModel.out_lf0_mean := PyFloat (595 / 100)%R;
     MultistreamParametricModel.out_lf0_scale := PyFloat (23 / 100)%R |}.

(** A shallow-AR predictor with one stream of width 1 and a two-tap filter
    whose learned coefficients are 1/2; its network returns its input. *)
Definition example_sar : Conv1dResnetSAR :=
  {| cs_model := fun x => Ok x;
     cs_stream_sizes := [1];
     cs_analysis_filts := [ {| weight := const_tensor [1; 1; 2] (/ 2)%R |} ] |}.

(** Two frames of width 1, both equal to 1. *)
Definition two_frames : Tensor := const_tensor [1; 2; 1] 1%R.

(** No mixture is resolved in the examples. *)
Definition no_resolver (log_pi log_sigma mu : Tensor) : res (Tensor * Tensor) :=
  Raise TypeError.

(** A mixture predictor with a single Gaussian: its layer answers with
    tensors of shape (1, 2, 1, 1). *)
Definition example_single_gaussian : ResF0Conv1dResnet :=
  {| rc_attrs := example_attrs;
     rc_use_mdn := true;
     rc_model := fun x => Ok x;
     rc_mdn_layer :=
       Some (fun _ => Ok (const_tensor [1; 2; 1] 0%R,
                          const_tensor [1; 2; 1; 1] 0%R,
                          const_tensor [1; 2; 1; 1] 0%R)) |}.

(** The composer with another value of its own [out_lf0_idx]. *)
Definition with_out_lf0_idx (self : MultistreamParametricModel.t) (v : pyval)
  : MultistreamParametricModel.t :=
  {| MultistreamParametricModel.energy_model :=
       MultistreamParametricModel.energy_model self;
     MultistreamParametricModel.energy_stream_sizes :=
       MultistreamParametricModel.energy_stream_sizes self;
     MultistreamParametricModel.pitch_model :=
       MultistreamParametricModel.pitch_model self;
     MultistreamParametricModel.pitch_stream_sizes :=
       MultistreamParametricModel.pitch_stream_sizes self;
     MultistreamParametricModel.timbre_model :=
       MultistreamParametricModel.timbre_model self;
     MultistreamParametricModel.timbre_stream_sizes :=
       MultistreamParametricModel.timbre_stream_sizes self;
     MultistreamParametricModel.in_lf0_idx :=
       MultistreamParametricModel.in_lf0_idx self;
     MultistreamParametricModel.in_lf0_min :=
       MultistreamParametricModel.in_lf0_min self;
     MultistreamParametricModel.in_lf0_max :=
       MultistreamParametricModel.in_lf0_max self;
     MultistreamParametricModel.out_lf0_idx := v;
     MultistreamParametricModel.out_lf0_mean :=
       MultistreamParametricModel.out_lf0_mean self;
     MultistreamParametricModel.out_lf0_scale :=
       MultistreamParametricModel.out_lf0_scale self |}.

(** The names that [_set_lf0_params] assigns. *)
Definition propagated_names : list string :=
  ["in_lf0_idx"; "in_lf0_min"; "in_lf0_max"; "out_lf0_mean"; "out_lf0_scale"].

(** The composer of the example with a third timbre stream. *)
Definition example_composer_three_timbre : MultistreamParametricModel.t :=
  {| MultistreamParametricModel.energy_model := const_module (const_tensor [1; 1; 1] 1%R);
     MultistreamParametricModel.energy_stream_sizes := [1];
     MultistreamParametricModel.pitch_model :=
       ResF0VariancePredictor_module example_pitch_predictor;
     MultistreamParametricModel.pitch_stream_sizes := [1; 1; 3];
     MultistreamParametricModel.timbre_model := const_module (const_tensor [1; 1; 194] 2%R);
     MultistreamParametricModel.timbre_stream_sizes := [100; 79; 15];
     MultistreamParametricModel.in_lf0_idx := PyInt 0;
     MultistreamParametricModel.in_lf0_min := PyFloat (539 / 100)%R;
     MultistreamParametricModel.in_lf0_max := PyFloat (649 / 100)%R;
     MultistreamParametricModel.out_lf0_idx := PyInt 180;
     MultistreamParametricModel.out_lf0_mean := PyFloat (595 / 100)%R;
     MultistreamParametricModel.out_lf0_scale := PyFloat (23 / 100)%R |}.

(** A two-tap filter whose learned coefficients are zero. *)
Definition zero_filter : TrTimeInvFIRFilter :=
  {| weight := const_tensor [1; 1; 2] 0%R |}.

(** The learned coefficients of a filter bank, the one that
    [get_filt_coefs] overwrites apart, are all zero. *)
Definition zero_feedback (analysis_filts : list TrTimeInvFIRFilter) : Prop :=
  forall s f n K c j,
    nth_error analysis_filts s = Some f ->
    shape (weight f) = [n; 1; S K] -> j < K ->
    item (weight f) [c; 0; j] = 0%R.

(** ** The other predictors of the module *)

(** [torch.relu] and [torch.sigmoid], element by element. *)
Definition relu (x : Tensor) : Tensor := tmap (fun v => Rmax 0 v) x.

(** The sigmoid is taken over the reals, as every float operation here.
    In single precision its value rounds to 0 or to 1 for inputs of large
    magnitude, so that only the closed bounds are stated of it. *)
Definition sigmoid (x : Tensor) : Tensor :=
  tmap (fun v => (/ (1 + exp (- v)))%R) x.

(** *** FFN

    The linear layers are trained networks; [dropout] is the module
    [nn.Dropout], the identity in evaluation mode. *)
Record FFN := {
  f_first_linear : Net;
  f_hidden_layers : list Net;
  f_last_linear : Net;
  f_dropout : Net;
  f_last_sigmoid : bool
}.

Definition FFN_forward (self : FFN) (x : Tensor) (lengths : Lengths)
  : res Tensor :=
  let* h := f_first_linear self x in
  let h := relu h in
  let* h := foldM (fun h hl => let* a := hl h in f_dropout self (relu a))
                  (f_hidden_layers self) h in
  let* out := f_last_linear self h in
  Ok (if f_last_sigmoid self then sigmoid out else out).

(** [nnsvs.base.PredictionType] is not part of the sources; these are the
    two members that this file names. *)
Inductive PredictionType := DETERMINISTIC | PROBABILISTIC.

Section MixturePredictors.

Variable mdn_get_most_probable_sigma_and_mu :
  Tensor -> Tensor -> Tensor -> res (Tensor * Tensor).

(** *** RMDN *)

Record RMDN := {
  rm_linear : Net;
  rm_lstm : SeqNet;
  rm_mdn : MDNLayer
}.

Definition RMDN_forward (self : RMDN) (x : Tensor) (lengths : Lengths)
  : res Output :=
  let* out := rm_linear self x in
  let* out := rm_lstm self (relu out) lengths in
  let* '(log_pi, log_sigma, mu) := rm_mdn self out in
  Ok (Mixture log_pi log_sigma mu).

Definition RMDN_inference (self : RMDN) (x : Tensor) (lengths : Lengths)
  : res Output :=
  let* o := RMDN_forward self x lengths in
  resolve_mixture mdn_get_most_probable_sigma_and_mu o.

(** *** MDN: [self.model] ends with the MDN layer *)

Record MDN := { md_model : MDNLayer }.

Definition MDN_forward (self : MDN) (x : Tensor) (lengths : Lengths)
  : res Output :=
  let* '(log_pi, log_sigma, mu) := md_model self x in
  Ok (Mixture log_pi log_sigma mu).

Definition MDN_inference (self : MDN) (x : Tensor) (lengths : Lengths)
  : res Output :=
  let* o := MDN_forward self x lengths in
  resolve_mixture mdn_get_most_probable_sigma_and_mu o.

(** *** Conv1dResnetMDN: a [Conv1dResnet], a ReLU and an MDN layer in
    sequence *)

Record Conv1dResnetMDN := {
  cm_resnet : Net;
  cm_mdn : MDNLayer
}.

Definition Conv1dResnetMDN_forward (self : Conv1dResnetMDN) (x : Tensor)
    (lengths : Lengths) : res Output :=
  let* h := conv_apply (cm_resnet self) x in
  let* '(log_pi, log_sigma, mu) := cm_mdn self (relu h) in
  Ok (Mixture log_pi log_sigma mu).

Definition Conv1dResnetMDN_inference (self : Conv1dResnetMDN) (x : Tensor)
    (lengths : Lengths) : res Output :=
  let* o := Conv1dResnetMDN_forward self x lengths in
  resolve_mixture mdn_get_most_probable_sigma_and_mu o.

(** *** The classes that define [prediction_type] *)

Inductive TypedPredictor :=
| TConv1dResnet (m : Conv1dResnet)
| TConv1dResnetSAR (m : Conv1dResnetSAR)
| TRMDN (m : RMDN)
| TMDN (m : MDN)
| TConv1dResnetMDN (m : Conv1dResnetMDN)
| TResF0Conv1dResnet (m : ResF0Conv1dResnet)
| TResSkipF0FFConvLSTM (m : ResSkipF0FFConvLSTM).

Definition by_use_mdn (use_mdn : bool) : PredictionType :=
  if use_mdn then PROBABILISTIC else DETERMINISTIC.

Definition prediction_type (p : TypedPredictor) : PredictionType :=
  match p with
  | TConv1dResnet m => by_use_mdn (c_use_mdn m)
  | TConv1dResnetSAR m => by_use_mdn (c_use_mdn (Conv1dResnetSAR_super m))
  | TRMDN _ => PROBABILISTIC
  | TMDN _ => PROBABILISTIC
  | TConv1dResnetMDN _ => PROBABILISTIC
  | TResF0Conv1dResnet m => by_use_mdn (rc_use_mdn m)
  | TResSkipF0FFConvLSTM m => by_use_mdn (rs_use_mdn m)
  end.

Definition typed_inference (p : TypedPredictor) (x : Tensor) (lengths : Lengths)
  : res Output :=
  match p with
  | TConv1dResnet m =>
      Conv1dResnet_inference mdn_get_most_probable_sigma_and_mu m x lengths
  | TConv1dResnetSAR m => Conv1dResnetSAR_inference m x lengths
  | TRMDN m => RMDN_inference m x lengths
  | TMDN m => MDN_inference m x lengths
  | TConv1dResnetMDN m => Conv1dResnetMDN_inference m x lengths
  | TResF0Conv1dResnet m =>
      ResF0Conv1dResnet_inference mdn_get_most_probable_sigma_and_mu m x lengths
  | TResSkipF0FFConvLSTM m =>
      ResSkipF0FFConvLSTM_inference mdn_get_most_probable_sigma_and_mu m x lengths
  end.

End MixturePredictors.

(** A feed-forward network with one hidden layer and a final sigmoid whose
    layers return their input. *)
Definition example_ffn : FFN :=
  {| f_first_linear := fun x => Ok x;
     f_hidden_layers := [fun x => Ok x];
     f_last_linear := fun x => Ok x;
     f_dropout := fun x => Ok x;
     f_last_sigmoid := true |}.

(** A mixture network that answers with one-frame tensors, and a resolver
    that picks them. *)
Definition example_mdn : MDN :=
  {| md_model := fun _ => Ok (zero_frame, zero_frame, zero_frame) |}.

Definition first_resolver (log_pi log_sigma mu : Tensor) : res (Tensor * Tensor) :=
  Ok (log_sigma, mu).

(** A raw output of three columns holding 0, 1 and 2, and a variance
    predictor whose network answers with it. *)
Definition ramp_frame : Tensor :=
  {| shape := [1; 1; 3]; item := fun idx => INR (nth 2 idx 0) |}.

Definition example_ramp_predictor : ResF0VariancePredictor :=
  {| rv_attrs := example_attrs;
     rv_conv := fun x => Ok x;
     rv_fc := fun _ => Ok ramp_frame |}.

(** A sub-model whose call raises, and the example composer with it as
    energy model. *)
Definition failing_module (e : pyerr) : PyModule Tensor :=
  {| attrs := ∅; call := fun _ _ _ => Raise e |}.

Definition example_composer_failing_energy : MultistreamParametricModel.t :=
  {| MultistreamParametricModel.energy_model := failing_module RuntimeError;
     MultistreamParametricModel.energy_stream_sizes := [1];
     MultistreamParametricModel.pitch_model :=
       ResF0VariancePredictor_module example_pitch_predictor;
     MultistreamParametricModel.pitch_stream_sizes := [1; 1; 3];
     MultistreamParametricModel.timbre_model := const_module (const_tensor [1; 1; 194] 2%R);
     MultistreamParametricModel.timbre_stream_sizes := [179; 15];
     MultistreamParametricModel.in_lf0_idx := PyInt 0;
     MultistreamParametricModel.in_lf0_min := PyFloat (539 / 100)%R;
     MultistreamParametricModel.in_lf0_max := PyFloat (649 / 100)%R;
     MultistreamParametricModel.out_lf0_idx := PyInt 180;
     MultistreamParametricModel.out_lf0_mean := PyFloat (595 / 100)%R;
     MultistreamParametricModel.out_lf0_scale := PyFloat (23 / 100)%R |}.

(** * Properties *)

(** ** The definitions on small inputs *)

Example py_index_negative : py_index 5 (-1) = Ok 4.
Proof. reflexivity. Qed.

Example py_index_out_of_range : py_index 5 5 = Raise IndexError.
Proof. reflexivity. Qed.

Example broadcast_component_axis :
  broadcast_shapes [2; 3; 1] [2; 3; 4] = Ok [2; 3; 4].
Proof. reflexivity. Qed.

Example broadcast_mismatch : broadcast_shapes [2; 3] [2; 4] = Raise RuntimeError.
Proof. reflexivity. Qed.

Example split_streams_shapes :
  (let* ss := split_streams (const_tensor [2; 3; 5] 0%R) [1; 1; 3] in
   Ok (map shape ss))
  = Ok [[2; 3; 1]; [2; 3; 1]; [2; 3; 3]].
Proof. reflexivity. Qed.

Example split_streams_mismatch :
  split_streams (const_tensor [2; 3; 5] 0%R) [1; 1] = Raise LayoutMismatchError.
Proof. reflexivity. Qed.

Example cat_shape :
  (let* r := cat [const_tensor [2; 3; 180] 0%R; const_tensor [2; 3; 1] 0%R;
                  const_tensor [2; 3; 19] 0%R] (-1) in
   Ok (shape r))
  = Ok [2; 3; 200].
Proof. reflexivity. Qed.

Example cat_mismatch :
  cat [const_tensor [2; 3; 180] 0%R; const_tensor [2; 4; 1] 0%R] (-1)
  = Raise RuntimeError.
Proof. reflexivity. Qed.

Example unpack2_of_three :
  unpack2 [zero_frame; zero_frame; zero_frame] = Raise ValueError.
Proof. reflexivity. Qed.

Example iir_second_sample :
  iir [1; / 2]%R [1; 0]%R (fun _ => 1%R) 1 = (/ 2)%R.
Proof. unfold iir. cbn [iir_hist past dot hd tl]. lra. Qed.

Example causal_conv_second_sample :
  causal_conv [/ 2; 1]%R (fun _ => 1%R) 1 = (3 / 2)%R.
Proof. unfold causal_conv. cbn. lra. Qed.

(** ** Index and broadcasting facts *)

Lemma py_index_lt n i k : py_index n i = Ok k -> k < n.
Proof.
  unfold py_index.
  destruct ((0 <=? i) && (i <? Z.of_nat n))%Z eqn:E1.
  - intros [= <-]. apply andb_prop in E1 as [? ?]. lia.
  - destruct ((- Z.of_nat n <=? i) && (i <? 0))%Z eqn:E2; [|discriminate].
    intros [= <-]. apply andb_prop in E2 as [? ?]. lia.
Qed.

Lemma py_index_nat n k : k < n -> py_index n (Z.of_nat k) = Ok k.
Proof.
  intros H. unfold py_index.
  replace ((0 <=? Z.of_nat k) && (Z.of_nat k <? Z.of_nat n))%Z with true.
  - now rewrite Nat2Z.id.
  - symmetry. apply andb_true_intro. split; lia.
Qed.

Lemma bone_lt n i : i < n -> (if Nat.eqb n 1 then 0 else i) = i.
Proof. intros H. destruct (Nat.eqb_spec n 1); lia. Qed.

Lemma bdim_refl n : bdim n n = Ok n.
Proof. unfold bdim. now rewrite Nat.eqb_refl. Qed.

Lemma bdim_one_l m : bdim 1 m = Ok m.
Proof. unfold bdim. destruct (Nat.eqb_spec 1 m); subst; reflexivity. Qed.

Lemma bshape_rev_refl r : bshape_rev r r = Ok r.
Proof.
  induction r as [|n r IH]; simpl; [reflexivity|].
  now rewrite bdim_refl, IH.
Qed.

Lemma broadcast_shapes_refl s : broadcast_shapes s s = Ok s.
Proof.
  unfold broadcast_shapes. rewrite bshape_rev_refl. simpl.
  now rewrite rev_involutive.
Qed.

Lemma broadcast_shapes_last1 s G :
  broadcast_shapes (s ++ [1]) (s ++ [G]) = Ok (s ++ [G]).
Proof.
  unfold broadcast_shapes. rewrite !rev_app_distr. cbn [rev app bshape_rev].
  rewrite bdim_one_l. cbn [bind]. rewrite bshape_rev_refl. cbn [bind].
  f_equal. simpl. now rewrite rev_involutive.
Qed.

(** ** The hyperbolic tangent *)

Section Tanh.
Local Open Scope R_scope.

Lemma exp_mul_neg x : exp x * exp (- x) = 1.
Proof. rewrite <- exp_plus. replace (x + - x) with 0 by lra. apply exp_0. Qed.

Lemma tanh_alt x : tanh x = (exp x - exp (- x)) / (exp x + exp (- x)).
Proof.
  unfold tanh, sinh, cosh.
  pose proof (exp_pos x). pose proof (exp_pos (- x)).
  field. lra.
Qed.

Lemma tanh_zero : tanh 0 = 0.
Proof. rewrite tanh_alt, Ropp_0, exp_0. lra. Qed.

Lemma tanh_neg x : tanh (- x) = - tanh x.
Proof.
  rewrite !tanh_alt, Ropp_involutive.
  pose proof (exp_pos x). pose proof (exp_pos (- x)). field. lra.
Qed.

Lemma tanh_bounds x : -1 < tanh x < 1.
Proof.
  rewrite tanh_alt. pose proof (exp_pos x). pose proof (exp_pos (- x)).
  split; apply Rmult_lt_reg_r with (exp x + exp (- x)); try lra;
    unfold Rdiv; rewrite Rmult_assoc, Rinv_l by lra; lra.
Qed.

Lemma tanh_saturates eps :
  0 < eps -> exists M, 0 < M /\ forall x, M < x -> 1 - tanh x < eps.
Proof.
  intros He. exists (2 / eps).
  assert (H2 : 0 < 2 / eps) by (apply Rdiv_lt_0_compat; lra).
  split; [exact H2|]. intros x Hx.
  assert (Hx0 : x <> 0) by lra.
  pose proof (exp_ineq1 x Hx0) as Ha.
  pose proof (exp_pos (- x)) as Hb. pose proof (exp_mul_neg x) as Hab.
  rewrite tanh_alt.
  set (a := exp x) in *. set (b := exp (- x)) in *.
  assert (Hea : 2 < eps * a).
  { replace 2 with (eps * (2 / eps)) at 1 by (field; lra).
    apply Rmult_lt_compat_l; lra. }
  assert (Hb1 : b < 1) by nra.
  apply Rmult_lt_reg_r with (a + b); [lra|].
  replace ((1 - (a - b) / (a + b)) * (a + b)) with (2 * b) by (field; lra).
  nra.
Qed.

Lemma ln2_pos : 0 < ln 2.
Proof. pose proof ln_lt_2. lra. Qed.

(** The bounded residual [L * tanh r] for a positive limit [L]. *)
Lemma scaled_tanh_bound L r : 0 < L -> Rabs (L * tanh r) < L.
Proof.
  intros HL. destruct (tanh_bounds r) as [Hlo Hhi].
  apply Rabs_def1; nra.
Qed.

Lemma scaled_tanh_saturates L eps :
  0 < L -> 0 < eps ->
  exists M, forall r,
    (M < r -> Rabs (L * tanh r - L) < eps) /\
    (r < - M -> Rabs (L * tanh r + L) < eps).
Proof.
  intros HL He.
  destruct (tanh_saturates (eps / L)) as (M & HM & Hsat).
  { apply Rdiv_lt_0_compat; lra. }
  assert (Hmul : forall d, d < eps / L -> L * d < eps).
  { intros d Hd. replace eps with (L * (eps / L)) by (field; lra).
    apply Rmult_lt_compat_l; lra. }
  exists M. intros r. split; intros Hr.
  - specialize (Hsat r Hr). apply Hmul in Hsat.
    destruct (tanh_bounds r). apply Rabs_def1; nra.
  - assert (Hr' : M < - r) by lra.
    specialize (Hsat (- r) Hr'). rewrite tanh_neg in Hsat.
    apply Hmul in Hsat.
    destruct (tanh_bounds r). apply Rabs_def1; nra.
Qed.

End Tanh.

(** ** The residual pitch correction *)

Section PredictLf0Facts.
Local Open Scope R_scope.

Ltac bone := rewrite ?bone_lt by assumption.

Lemma predict_lf0_3axis
    (in_feats out_feats : Tensor) (in_lf0_idx out_lf0_idx : Z)
    (in_lf0_min in_lf0_max out_lf0_mean out_lf0_scale cent : R)
    (B T D C kin kout : nat) :
  shape in_feats = [B; T; D] ->
  shape out_feats = [B; T; C] ->
  py_index D in_lf0_idx = Ok kin ->
  py_index C out_lf0_idx = Ok kout ->
  exists pred resid,
    predict_lf0_with_residual in_feats out_feats in_lf0_idx in_lf0_min
      in_lf0_max out_lf0_idx out_lf0_mean out_lf0_scale cent
    = Ok (pred, resid) /\
    shape pred = [B; T; 1%nat] /\ shape resid = [B; T; 1%nat] /\
    forall b t, (b < B)%nat -> (t < T)%nat ->
      item pred [b; t; 0%nat] =
        ((item in_feats [b; t; kin] * (in_lf0_max - in_lf0_min) + in_lf0_min)
         + (cent * ln 2 / 1200) * tanh (item out_feats [b; t; kout])
         - out_lf0_mean) / out_lf0_scale /\
      item resid [b; t; 0%nat] =
        (cent * ln 2 / 1200) * tanh (item out_feats [b; t; kout]).
Proof.
  intros Hin Hout Hkin Hkout.
  unfold predict_lf0_with_residual, select, tzip.
  rewrite Hin, Hout. cbn [nth_error length Nat.eqb bind].
  rewrite Hkin, Hkout. cbn [bind].
  cbn [shape tmap unsqueeze_last firstn skipn app].
  change [B; T; 1%nat] with ([B; T] ++ [1%nat]).
  rewrite broadcast_shapes_last1. cbn [bind app].
  eexists _, _. split; [reflexivity|].
  split; [reflexivity|]. split; [reflexivity|].
  intros b t Hb Ht. cbn. bone. split; reflexivity.
Qed.

Lemma predict_lf0_4axis
    (in_feats out_feats : Tensor) (in_lf0_idx out_lf0_idx : Z)
    (in_lf0_min in_lf0_max out_lf0_mean out_lf0_scale cent : R)
    (B T D G C kin kout : nat) :
  shape in_feats = [B; T; D] ->
  shape out_feats = [B; T; G; C] ->
  py_index D in_lf0_idx = Ok kin ->
  py_index C out_lf0_idx = Ok kout ->
  exists pred resid,
    predict_lf0_with_residual in_feats out_feats in_lf0_idx in_lf0_min
      in_lf0_max out_lf0_idx out_lf0_mean out_lf0_scale cent
    = Ok (pred, resid) /\
    shape pred = [B; T; G] /\ shape resid = [B; T; G] /\
    forall b t g, (b < B)%nat -> (t < T)%nat -> (g < G)%nat ->
      item pred [b; t; g] =
        ((item in_feats [b; t; kin] * (in_lf0_max - in_lf0_min) + in_lf0_min)
         + (cent * ln 2 / 1200) * tanh (item out_feats [b; t; g; kout])
         - out_lf0_mean) / out_lf0_scale /\
      item resid [b; t; g] =
        (cent * ln 2 / 1200) * tanh (item out_feats [b; t; g; kout]).
Proof.
  intros Hin Hout Hkin Hkout.
  unfold predict_lf0_with_residual, select, tzip.
  rewrite Hin, Hout. cbn [nth_error length Nat.eqb bind].
  rewrite Hkin, Hkout. cbn [bind].
  cbn [shape tmap unsqueeze_last firstn skipn app].
  change [B; T; 1%nat] with ([B; T] ++ [1%nat]).
  change [B; T; G] with ([B; T] ++ [G]).
  rewrite broadcast_shapes_last1. cbn [bind app].
  eexists _, _. split; [reflexivity|].
  split; [reflexivity|]. split; [reflexivity|].
  intros b t g Hb Ht Hg. cbn. bone. split; reflexivity.
Qed.

(** C1. [predict_lf0_with_residual] de-normalises the score pitch
    linearly, adds [max_ratio * tanh] of the raw output column in the
    log-frequency domain, with [max_ratio = residual_f0_max_cent * ln 2 /
    1200], and renormalises with the output statistics; for a 4-axis
    (mixture) output the same transform is applied to every component. *)
Theorem predict_lf0_with_residual_formula
    (in_feats out_feats : Tensor) (in_lf0_idx out_lf0_idx : Z)
    (in_lf0_min in_lf0_max out_lf0_mean out_lf0_scale cent : R)
    (B T D C kin kout : nat) :
  shape in_feats = [B; T; D] ->
  py_index D in_lf0_idx = Ok kin ->
  py_index C out_lf0_idx = Ok kout ->
  (shape out_feats = [B; T; C] ->
   exists pred resid,
     predict_lf0_with_residual in_feats out_feats in_lf0_idx in_lf0_min
       in_lf0_max out_lf0_idx out_lf0_mean out_lf0_scale cent
     = Ok (pred, resid) /\
     shape pred = [B; T; 1%nat] /\ shape resid = [B; T; 1%nat] /\
     forall b t, (b < B)%nat -> (t < T)%nat ->
       item pred [b; t; 0%nat] =
         ((item in_feats [b; t; kin] * (in_lf0_max - in_lf0_min) + in_lf0_min)
          + (cent * ln 2 / 1200) * tanh (item out_feats [b; t; kout])
          - out_lf0_mean) / out_lf0_scale /\
       item resid [b; t; 0%nat] =
         (cent * ln 2 / 1200) * tanh (item out_feats [b; t; kout])) /\
  (forall G, shape out_feats = [B; T; G; C] ->
   exists pred resid,
     predict_lf0_with_residual in_feats out_feats in_lf0_idx in_lf0_min
       in_lf0_max out_lf0_idx out_lf0_mean out_lf0_scale cent
     = Ok (pred, resid) /\
     shape pred = [B; T; G] /\ shape resid = [B; T; G] /\
     forall b t g, (b < B)%nat -> (t < T)%nat -> (g < G)%nat ->
       item pred [b; t; g] =
         ((item in_feats [b; t; kin] * (in_lf0_max - in_lf0_min) + in_lf0_min)
          + (cent * ln 2 / 1200) * tanh (item out_feats [b; t; g; kout])
          - out_lf0_mean) / out_lf0_scale /\
       item resid [b; t; g] =
         (cent * ln 2 / 1200) * tanh (item out_feats [b; t; g; kout])).
Proof.
  intros Hin Hkin Hkout. split.
  - intros Hout. now apply predict_lf0_3axis with (D := D) (C := C).
  - intros G Hout. now apply predict_lf0_4axis with (D := D) (C := C).
Qed.

Lemma predict_lf0_with_residual_formula_witness :
  exists pred resid,
    predict_lf0_with_residual half_frame zero_frame 0 5 6 0 0 1 600
    = Ok (pred, resid) /\
    shape pred = [1; 1; 1]%nat /\ shape resid = [1; 1; 1]%nat /\
    forall b t, (b < 1)%nat -> (t < 1)%nat ->
      item pred [b; t; 0%nat] =
        ((item half_frame [b; t; 0%nat] * (6 - 5) + 5)
         + (600 * ln 2 / 1200) * tanh (item zero_frame [b; t; 0%nat])
         - 0) / 1 /\
      item resid [b; t; 0%nat] =
        (600 * ln 2 / 1200) * tanh (item zero_frame [b; t; 0%nat]).
Proof.
  apply (predict_lf0_with_residual_formula half_frame zero_frame 0 0 5 6 0 1 600
           1 1 1 1 0 0); reflexivity.
Defined.

(** C2. With [residual_f0_max_cent = 600]: where the raw residual is 0 the
    bounded residual is 0 and the corrected pitch is the de-normalised score
    pitch renormalised with [out_lf0_mean] and [out_lf0_scale]; the bounded
    residual is smaller in magnitude than [600 * ln 2 / 1200] for every raw
    residual, and tends to plus or minus that limit as the raw residual
    tends to plus or minus infinity. *)
Theorem residual_600_bounded
    (in_feats : Tensor) (in_lf0_idx out_lf0_idx : Z)
    (in_lf0_min in_lf0_max out_lf0_mean out_lf0_scale : R)
    (B T D C kin kout : nat) :
  shape in_feats = [B; T; D] ->
  py_index D in_lf0_idx = Ok kin ->
  py_index C out_lf0_idx = Ok kout ->
  (forall out_feats, shape out_feats = [B; T; C] ->
   exists pred resid,
     predict_lf0_with_residual in_feats out_feats in_lf0_idx in_lf0_min
       in_lf0_max out_lf0_idx out_lf0_mean out_lf0_scale 600
     = Ok (pred, resid) /\
     forall b t, (b < B)%nat -> (t < T)%nat ->
       (item out_feats [b; t; kout] = 0 ->
        item resid [b; t; 0%nat] = 0 /\
        item pred [b; t; 0%nat] =
          ((item in_feats [b; t; kin] * (in_lf0_max - in_lf0_min) + in_lf0_min)
           - out_lf0_mean) / out_lf0_scale) /\
       Rabs (item resid [b; t; 0%nat]) < 600 * ln 2 / 1200) /\
  (forall eps, 0 < eps -> exists M,
   forall out_feats, shape out_feats = [B; T; C] ->
   exists pred resid,
     predict_lf0_with_residual in_feats out_feats in_lf0_idx in_lf0_min
       in_lf0_max out_lf0_idx out_lf0_mean out_lf0_scale 600
     = Ok (pred, resid) /\
     forall b t, (b < B)%nat -> (t < T)%nat ->
       (M < item out_feats [b; t; kout] ->
        Rabs (item resid [b; t; 0%nat] - 600 * ln 2 / 1200) < eps) /\
       (item out_feats [b; t; kout] < - M ->
        Rabs (item resid [b; t; 0%nat] + 600 * ln 2 / 1200) < eps)).
Proof.
  intros Hin Hkin Hkout.
  assert (HL : 0 < 600 * ln 2 / 1200) by (pose proof ln2_pos; lra).
  split.
  - intros out_feats Hout.
    destruct (predict_lf0_3axis in_feats out_feats in_lf0_idx out_lf0_idx
                in_lf0_min in_lf0_max out_lf0_mean out_lf0_scale 600
                B T D C kin kout Hin Hout Hkin Hkout)
      as (pred & resid & Heq & _ & _ & Hval).
    exists pred, resid. split; [exact Heq|].
    intros b t Hb Ht. destruct (Hval b t Hb Ht) as [Hp Hr]. split.
    + intros H0. rewrite Hp, Hr, H0, tanh_zero. split; [lra|].
      f_equal. lra.
    + rewrite Hr. now apply scaled_tanh_bound.
  - intros eps He.
    destruct (scaled_tanh_saturates (600 * ln 2 / 1200) eps HL He) as [M HM].
    exists M. intros out_feats Hout.
    destruct (predict_lf0_3axis in_feats out_feats in_lf0_idx out_lf0_idx
                in_lf0_min in_lf0_max out_lf0_mean out_lf0_scale 600
                B T D C kin kout Hin Hout Hkin Hkout)
      as (pred & resid & Heq & _ & _ & Hval).
    exists pred, resid. split; [exact Heq|].
    intros b t Hb Ht. destruct (Hval b t Hb Ht) as [_ Hr]. rewrite Hr.
    apply HM.
Qed.

Lemma residual_600_bounded_witness :
  exists pred resid,
    predict_lf0_with_residual half_frame zero_frame 0 5 6 0 0 1 600
    = Ok (pred, resid) /\
    forall b t, (b < 1)%nat -> (t < 1)%nat ->
      (item zero_frame [b; t; 0%nat] = 0 ->
       item resid [b; t; 0%nat] = 0 /\
       item pred [b; t; 0%nat] =
         ((item half_frame [b; t; 0%nat] * (6 - 5) + 5) - 0) / 1) /\
      Rabs (item resid [b; t; 0%nat]) < 600 * ln 2 / 1200.
Proof.
  apply (proj1 (residual_600_bounded half_frame 0 0 5 6 0 1 1 1 1 1 0 0
                  eq_refl eq_refl eq_refl) zero_frame eq_refl).
Defined.

End PredictLf0Facts.

(** ** The injection of the corrected pitch *)

Section Injection.
Local Open Scope R_scope.

Lemma getattr_some (a : gmap string pyval) name v :
  a !! name = Some v -> getattr a name = Ok v.
Proof. unfold getattr. now intros ->. Qed.

Lemma expand_to_same v s : shape v = s -> expand_to v s = Ok v.
Proof. intros H. unfold expand_to. now rewrite decide_True. Qed.

Lemma lf0_injection_3axis
    (a : gmap string pyval) (x mu : Tensor) (i o : Z)
    (vmin vmax vmean vscale : pyval) (B T D C kin kout : nat) :
  lf0_attrs a i o vmin vmax vmean vscale ->
  shape x = [B; T; D] ->
  shape mu = [B; T; C] ->
  py_index D i = Ok kin ->
  py_index C o = Ok kout ->
  exists mu' resid,
    lf0_injection a false x mu = Ok (mu', resid) /\
    shape mu' = shape mu /\
    shape resid = [B; T; 1%nat] /\
    (forall idx, nth 2 idx 0%nat <> kout -> item mu' idx = item mu idx) /\
    forall b t, (b < B)%nat -> (t < T)%nat ->
      item mu' [b; t; kout] =
        ((item x [b; t; kin] * (float_of vmax - float_of vmin) + float_of vmin)
         + (600 * ln 2 / 1200) * tanh (item mu [b; t; kout])
         - float_of vmean) / float_of vscale /\
      item resid [b; t; 0%nat] =
        (600 * ln 2 / 1200) * tanh (item mu [b; t; kout]).
Proof.
  intros (H1 & H2 & H3 & H4 & H5 & H6) Hx Hmu Hkin Hkout.
  destruct (predict_lf0_3axis x mu i o (float_of vmin) (float_of vmax)
              (float_of vmean) (float_of vscale) 600 B T D C kin kout
              Hx Hmu Hkin Hkout)
    as (pred & resid & Heq & Hsp & Hsr & Hval).
  unfold lf0_injection.
  rewrite (getattr_some _ _ _ H1), (getattr_some _ _ _ H2),
    (getattr_some _ _ _ H3), (getattr_some _ _ _ H4),
    (getattr_some _ _ _ H5), (getattr_some _ _ _ H6).
  cbn [bind index_of]. rewrite Heq. cbn [bind].
  unfold setitem_select. rewrite Hmu. cbn [nth_error]. rewrite Hkout.
  cbn [bind firstn skipn app].
  rewrite expand_to_same
    by (unfold squeeze_last; rewrite Hsp; reflexivity).
  cbn [bind]. eexists _, _. split; [reflexivity|].
  split; [reflexivity|]. split; [exact Hsr|]. split.
  - intros idx Hne. cbn [item].
    destruct (Nat.eqb_spec (nth 2 idx 0%nat) kout); [contradiction|reflexivity].
  - intros b t Hb Ht. cbn [item nth]. rewrite Nat.eqb_refl.
    unfold squeeze_last. rewrite Hsp. cbn [rev app item firstn skipn].
    apply (Hval b t Hb Ht).
Qed.

Lemma squeeze_last_keeps x B T G :
  shape x = [B; T; G] -> G <> 1%nat -> squeeze_last x = x.
Proof.
  intros Hs HG. unfold squeeze_last. rewrite Hs. cbn [rev app].
  destruct G as [|[|G']]; [reflexivity|contradiction|reflexivity].
Qed.

Lemma lf0_injection_4axis
    (a : gmap string pyval) (x mu : Tensor) (i o : Z)
    (vmin vmax vmean vscale : pyval) (B T D G C kin kout : nat) :
  lf0_attrs a i o vmin vmax vmean vscale ->
  shape x = [B; T; D] ->
  shape mu = [B; T; G; C] ->
  G <> 1%nat ->
  py_index D i = Ok kin ->
  py_index C o = Ok kout ->
  exists mu' resid,
    lf0_injection a true x mu = Ok (mu', resid) /\
    shape mu' = shape mu /\
    shape resid = [B; T; G] /\
    (forall idx, nth 3 idx 0%nat <> kout -> item mu' idx = item mu idx) /\
    forall b t g, (b < B)%nat -> (t < T)%nat -> (g < G)%nat ->
      item mu' [b; t; g; kout] =
        ((item x [b; t; kin] * (float_of vmax - float_of vmin) + float_of vmin)
         + (600 * ln 2 / 1200) * tanh (item mu [b; t; g; kout])
         - float_of vmean) / float_of vscale /\
      item resid [b; t; g] =
        (600 * ln 2 / 1200) * tanh (item mu [b; t; g; kout]).
Proof.
  intros (H1 & H2 & H3 & H4 & H5 & H6) Hx Hmu HG Hkin Hkout.
  destruct (predict_lf0_4axis x mu i o (float_of vmin) (float_of vmax)
              (float_of vmean) (float_of vscale) 600 B T D G C kin kout
              Hx Hmu Hkin Hkout)
    as (pred & resid & Heq & Hsp & Hsr & Hval).
  unfold lf0_injection.
  rewrite (getattr_some _ _ _ H1), (getattr_some _ _ _ H2),
    (getattr_some _ _ _ H3), (getattr_some _ _ _ H4),
    (getattr_some _ _ _ H5), (getattr_some _ _ _ H6).
  cbn [bind index_of]. rewrite Heq. cbn [bind].
  rewrite (squeeze_last_keeps pred B T G Hsp HG).
  unfold setitem_select. rewrite Hmu. cbn [nth_error]. rewrite Hkout.
  cbn [bind firstn skipn app].
  rewrite expand_to_same by exact Hsp.
  cbn [bind]. eexists _, _. split; [reflexivity|].
  split; [reflexivity|]. split; [exact Hsr|]. split.
  - intros idx Hne. cbn [item].
    destruct (Nat.eqb_spec (nth 3 idx 0%nat) kout); [contradiction|reflexivity].
  - intros b t g Hb Ht Hg. cbn [item nth]. rewrite Nat.eqb_refl.
    cbn [firstn skipn app].
    apply (Hval b t g Hb Ht Hg).
Qed.

End Injection.

(** ** The forward step of the residual-F0 predictors *)

Section ResF0Forward.
Local Open Scope R_scope.

Lemma resf0_forward_unfold p x lengths :
  resf0_forward p x lengths =
  (let* '(mix, mu) := resf0_raw p x lengths in
   let* '(mu', r) := lf0_injection (resf0_attrs p) (resf0_use_mdn p) x mu in
   Ok (with_mu mix mu', r)).
Proof.
  destruct p as [m|m|m]; cbn [resf0_forward resf0_raw resf0_attrs resf0_use_mdn].
  - reflexivity.
  - reflexivity.
  - unfold ResF0VariancePredictor_forward.
    destruct (ResF0VariancePredictor_raw m x lengths) as [out|e]; cbn [bind];
      [|reflexivity].
    destruct (lf0_injection (rv_attrs m) false x out) as [[mu' r]|e];
      reflexivity.
Qed.

(** X20. For a deterministic residual-F0 predictor, and for a mixture
    predictor with a number of Gaussians other than 1, the forward step
    returns an output of the shape of the model's raw output [mu]; it
    differs from [mu] only in the column [out_lf0_idx], which holds the
    corrected, renormalised pitch. *)
Theorem resf0_forward_replaces_lf0_column
    (p : ResF0Predictor) (x : Tensor) (lengths : Lengths)
    (mix : option (Tensor * Tensor)) (mu : Tensor) (i o : Z)
    (vmin vmax vmean vscale : pyval) (B T D C kin kout : nat) :
  resf0_raw p x lengths = Ok (mix, mu) ->
  lf0_attrs (resf0_attrs p) i o vmin vmax vmean vscale ->
  shape x = [B; T; D] ->
  py_index D i = Ok kin ->
  py_index C o = Ok kout ->
  (resf0_use_mdn p = false -> shape mu = [B; T; C] ->
   exists mu' resid,
     resf0_forward p x lengths = Ok (with_mu mix mu', resid) /\
     shape mu' = shape mu /\
     (forall idx, nth 2 idx 0%nat <> kout -> item mu' idx = item mu idx) /\
     forall b t, (b < B)%nat -> (t < T)%nat ->
       item mu' [b; t; kout] =
         ((item x [b; t; kin] * (float_of vmax - float_of vmin) + float_of vmin)
          + (600 * ln 2 / 1200) * tanh (item mu [b; t; kout])
          - float_of vmean) / float_of vscale) /\
  (resf0_use_mdn p = true ->
   forall G, G <> 1%nat -> shape mu = [B; T; G; C] ->
   exists mu' resid,
     resf0_forward p x lengths = Ok (with_mu mix mu', resid) /\
     shape mu' = shape mu /\
     (forall idx, nth 3 idx 0%nat <> kout -> item mu' idx = item mu idx) /\
     forall b t g, (b < B)%nat -> (t < T)%nat -> (g < G)%nat ->
       item mu' [b; t; g; kout] =
         ((item x [b; t; kin] * (float_of vmax - float_of vmin) + float_of vmin)
          + (600 * ln 2 / 1200) * tanh (item mu [b; t; g; kout])
          - float_of vmean) / float_of vscale).
Proof.
  intros Hraw Hattrs Hx Hkin Hkout. split.
  - intros Hmdn Hmu.
    destruct (lf0_injection_3axis _ x mu i o vmin vmax vmean vscale
                B T D C kin kout Hattrs Hx Hmu Hkin Hkout)
      as (mu' & resid & Heq & Hs & _ & Hoff & Hcol).
    exists mu', resid. rewrite resf0_forward_unfold, Hraw, Hmdn. cbn [bind].
    rewrite Heq. cbn [bind]. split; [reflexivity|].
    split; [exact Hs|]. split; [exact Hoff|].
    intros b t Hb Ht. apply (Hcol b t Hb Ht).
  - intros Hmdn G HG Hmu.
    destruct (lf0_injection_4axis _ x mu i o vmin vmax vmean vscale
                B T D G C kin kout Hattrs Hx Hmu HG Hkin Hkout)
      as (mu' & resid & Heq & Hs & _ & Hoff & Hcol).
    exists mu', resid. rewrite resf0_forward_unfold, Hraw, Hmdn. cbn [bind].
    rewrite Heq. cbn [bind]. split; [reflexivity|].
    split; [exact Hs|]. split; [exact Hoff|].
    intros b t g Hb Ht Hg. apply (Hcol b t g Hb Ht Hg).
Qed.

Lemma example_attrs_ok :
  lf0_attrs example_attrs 0 0 (PyInt 5) (PyInt 6) (PyInt 0) (PyInt 1).
Proof. repeat split; reflexivity. Qed.

Lemma resf0_forward_replaces_lf0_column_witness :
  exists mu' resid,
    resf0_forward (RVar example_ramp_predictor) half_frame None
    = Ok (with_mu None mu', resid) /\
    shape mu' = shape ramp_frame /\
    (forall idx, nth 2 idx 0%nat <> 0%nat -> item mu' idx = item ramp_frame idx) /\
    forall b t, (b < 1)%nat -> (t < 1)%nat ->
      item mu' [b; t; 0%nat] =
        ((item half_frame [b; t; 0%nat]
          * (float_of (PyInt 6) - float_of (PyInt 5)) + float_of (PyInt 5))
         + (600 * ln 2 / 1200) * tanh (item ramp_frame [b; t; 0%nat])
         - float_of (PyInt 0)) / float_of (PyInt 1).
Proof.
  apply (proj1 (resf0_forward_replaces_lf0_column
                  (RVar example_ramp_predictor) half_frame None
                  None ramp_frame 0 0 (PyInt 5) (PyInt 6) (PyInt 0) (PyInt 1)
                  1 1 1 3 0 0
                  eq_refl example_attrs_ok eq_refl eq_refl eq_refl)
               eq_refl eq_refl).
Defined.

End ResF0Forward.

(** ** The composer: parameter propagation and construction *)

Section Composer.
Import MultistreamParametricModel.

Lemma hasattr_true (a : gmap string pyval) name :
  hasattr a name = true <-> is_Some (a !! name).
Proof. unfold hasattr. apply bool_decide_eq_true. Qed.

Lemma propagate_lookup self a :
  propagate self a !! "in_lf0_idx" = Some (in_lf0_idx self) /\
  propagate self a !! "in_lf0_min" = Some (in_lf0_min self) /\
  propagate self a !! "in_lf0_max" = Some (in_lf0_max self) /\
  propagate self a !! "out_lf0_mean" = Some (out_lf0_mean self) /\
  propagate self a !! "out_lf0_scale" = Some (out_lf0_scale self) /\
  propagate self a !! "out_lf0_idx" = a !! "out_lf0_idx".
Proof.
  unfold propagate. repeat split; now simplify_map_eq.
Qed.

(** C5. For a pitch model that carries the residual-F0 attributes, every
    [forward] and [inference] call first assigns the composer's
    [in_lf0_idx], [in_lf0_min], [in_lf0_max], [out_lf0_mean] and
    [out_lf0_scale] to the pitch model and leaves its [out_lf0_idx] as it
    was; the pitch model is then invoked with these attributes. *)
Theorem set_lf0_params_before_pitch_model
    (self : t) (x : Tensor) (lengths : Lengths) :
  hasattr (attrs (pitch_model self)) "out_lf0_mean" = true ->
  let a := attrs (pitch_model self) in
  let self' := _set_lf0_params self in
  let a' := attrs (pitch_model self') in
  (a' !! "in_lf0_idx" = Some (in_lf0_idx self) /\
   a' !! "in_lf0_min" = Some (in_lf0_min self) /\
   a' !! "in_lf0_max" = Some (in_lf0_max self) /\
   a' !! "out_lf0_mean" = Some (out_lf0_mean self) /\
   a' !! "out_lf0_scale" = Some (out_lf0_scale self) /\
   a' !! "out_lf0_idx" = a !! "out_lf0_idx") /\
  forward self x lengths = (self', compose self' x lengths) /\
  inference self x lengths =
    (self', let* '(out, _) := compose self' x lengths in Ok out) /\
  invoke (pitch_model self') x lengths =
    call (pitch_model self) (propagate self a) x lengths.
Proof.
  intros Hhas a self' a'. subst a a' self'.
  unfold _set_lf0_params. rewrite Hhas.
  split; [apply propagate_lookup|].
  split; [unfold forward, _set_lf0_params; now rewrite Hhas|].
  split; [unfold inference, forward, _set_lf0_params; now rewrite Hhas|].
  reflexivity.
Qed.

Lemma set_lf0_params_before_pitch_model_witness :
  let a := attrs (pitch_model example_composer) in
  let self' := _set_lf0_params example_composer in
  let a' := attrs (pitch_model self') in
  (a' !! "in_lf0_idx" = Some (in_lf0_idx example_composer) /\
   a' !! "in_lf0_min" = Some (in_lf0_min example_composer) /\
   a' !! "in_lf0_max" = Some (in_lf0_max example_composer) /\
   a' !! "out_lf0_mean" = Some (out_lf0_mean example_composer) /\
   a' !! "out_lf0_scale" = Some (out_lf0_scale example_composer) /\
   a' !! "out_lf0_idx" = a !! "out_lf0_idx") /\
  forward example_composer half_frame None
  = (self', compose self' half_frame None) /\
  inference example_composer half_frame None =
    (self', let* '(out, _) := compose self' half_frame None in Ok out) /\
  invoke (pitch_model self') half_frame None =
    call (pitch_model example_composer) (propagate example_composer a)
         half_frame None.
Proof.
  apply (set_lf0_params_before_pitch_model example_composer half_frame None).
  reflexivity.
Defined.

(** Without the attribute [out_lf0_mean] nothing is assigned. *)
Lemma set_lf0_params_skips (self : t) :
  hasattr (attrs (pitch_model self)) "out_lf0_mean" = false ->
  _set_lf0_params self = self.
Proof. intros H. unfold _set_lf0_params. now rewrite H. Qed.

Lemma check_out_dim_mismatch {O} (m : PyModule O) sizes :
  declares_mismatch m sizes -> check_out_dim m sizes = Raise AssertionError.
Proof.
  intros (v & Hv & Hne). unfold check_out_dim.
  replace (hasattr (attrs m) "out_dim") with true
    by (symmetry; apply hasattr_true; rewrite Hv; eauto).
  unfold getattr. rewrite Hv. cbn [bind]. now rewrite Hne.
Qed.





(** Without a declared mismatch the construction succeeds. *)
Lemma init_accepts
    (energy_model : PyModule Tensor) (energy_stream_sizes : list nat)
    (pitch_model : PyModule (Tensor * Tensor)) (pitch_stream_sizes : list nat)
    (timbre_model : PyModule Tensor) (timbre_stream_sizes : list nat)
    (i vmin vmax o vmean vscale : pyval) :
  ~ declares_mismatch energy_model energy_stream_sizes ->
  ~ declares_mismatch pitch_model pitch_stream_sizes ->
  ~ declares_mismatch timbre_model timbre_stream_sizes ->
  is_ok (__init__ energy_model energy_stream_sizes pitch_model pitch_stream_sizes
              timbre_model timbre_stream_sizes i vmin vmax o vmean vscale).
Proof.
  assert (Hok : forall O (m : PyModule O) sizes,
             ~ declares_mismatch m sizes -> check_out_dim m sizes = Ok tt).
  { intros O m sizes Hn. unfold check_out_dim.
    destruct (hasattr (attrs m) "out_dim") eqn:E; [|reflexivity].
    apply hasattr_true in E as [v Hv]. unfold getattr. rewrite Hv. cbn [bind].
    destruct (py_eq_int v _) eqn:E2; [reflexivity|].
    exfalso. apply Hn. now exists v. }
  intros He Hp Ht. unfold __init__.
  rewrite (Hok _ _ _ He), (Hok _ _ _ Hp), (Hok _ _ _ Ht). cbn [bind].
  eexists. reflexivity.
Qed.

(** C10. [inference] returns the first component of [forward]'s pair, the
    flat acoustic feature vector, and drops the pitch residual; an exception
    of [forward] is passed on. *)
Theorem inference_is_forward_output
    (self : t) (x : Tensor) (lengths : Lengths) :
  fst (inference self x lengths) = fst (forward self x lengths) /\
  snd (inference self x lengths) =
    (let* r := snd (forward self x lengths) in Ok (fst r)).
Proof.
  unfold inference. destruct (forward self x lengths) as [self' r].
  cbn [fst snd]. split; [reflexivity|].
  destruct r as [[out resid]|e]; reflexivity.
Qed.

End Composer.

(** ** Lists, loops and streams *)

Lemma mapM_enum_spec {A B} (f : nat -> A -> res B) (P : nat -> A -> B -> Prop)
    (l : list A) (s : nat) :
  (forall i a, nth_error l i = Some a ->
               exists b, f (s + i) a = Ok b /\ P (s + i) a b) ->
  exists bs, mapM_enum f s l = Ok bs /\ length bs = length l /\
    forall i a, nth_error l i = Some a ->
                exists b, nth_error bs i = Some b /\ P (s + i) a b.
Proof.
  revert s. induction l as [|a l IH]; intros s H.
  - exists []. repeat split. intros [|i] a Hi; discriminate.
  - destruct (H 0 a eq_refl) as (b & Hb & HP).
    rewrite Nat.add_0_r in Hb, HP.
    destruct (IH (S s)) as (bs & Hbs & Hlen & Hnth).
    { intros i a' Hi. destruct (H (S i) a' Hi) as (b' & Hb' & HP').
      exists b'. now rewrite Nat.add_succ_comm. }
    exists (b :: bs). cbn [mapM_enum]. rewrite Hb. cbn [bind].
    rewrite Hbs. cbn [bind]. split; [reflexivity|].
    split; [cbn; now rewrite Hlen|].
    intros [|i] a' Hi.
    + injection Hi as <-. exists b. rewrite Nat.add_0_r. now split.
    + destruct (Hnth i a' Hi) as (b' & Hb' & HP').
      exists b'. split; [exact Hb'|]. now rewrite <- Nat.add_succ_comm.
Qed.

Lemma split_from_length x start sizes :
  length (split_from x start sizes) = length sizes.
Proof.
  revert start. induction sizes as [|n r IH]; intros start; cbn; [reflexivity|].
  now rewrite IH.
Qed.

Lemma split_from_nth x start sizes s n :
  nth_error sizes s = Some n ->
  nth_error (split_from x start sizes) s
  = Some (narrow_last (start + stream_offset sizes s) n x).
Proof.
  revert start s. induction sizes as [|m r IH]; intros start [|s] H;
    try discriminate.
  - injection H as <-. cbn. unfold stream_offset. cbn.
    now rewrite Nat.add_0_r.
  - cbn [split_from nth_error]. rewrite (IH _ _ H).
    unfold stream_offset. cbn [firstn list_sum fold_right].
    now rewrite Nat.add_assoc.
Qed.

Lemma split_from_nth_inv x start sizes s t :
  nth_error (split_from x start sizes) s = Some t ->
  exists n, nth_error sizes s = Some n /\
            t = narrow_last (start + stream_offset sizes s) n x.
Proof.
  intros H.
  destruct (nth_error sizes s) as [n|] eqn:E.
  - exists n. split; [reflexivity|].
    rewrite (split_from_nth x start sizes s n E) in H. now injection H.
  - apply nth_error_None in E. rewrite <- (split_from_length x start) in E.
    apply nth_error_None in E. congruence.
Qed.

Lemma split_streams_3axis x sizes B T C :
  shape x = [B; T; C] -> list_sum sizes = C ->
  split_streams x sizes = Ok (split_from x 0 sizes).
Proof.
  intros Hs Hsum. unfold split_streams. rewrite Hs. cbn [rev app].
  now rewrite Hsum, Nat.eqb_refl.
Qed.

Lemma stream_offset_bound sizes s n d :
  nth_error sizes s = Some n -> d < n ->
  stream_offset sizes s + d < list_sum sizes.
Proof.
  unfold stream_offset. revert s. induction sizes as [|m r IH]; intros [|s] H Hd;
    try discriminate.
  - injection H as <-. simpl. lia.
  - specialize (IH s H Hd). simpl. lia.
Qed.

(** ** Concatenation *)

Lemma nth_insert_eq (l : list nat) i x : i < length l -> nth i (<[i:=x]> l) 0 = x.
Proof.
  intros H. apply nth_lookup_Some. now apply list_lookup_insert_eq.
Qed.

Lemma insert_nth_id (l : list nat) i : <[i := nth i l 0]> l = l.
Proof.
  apply list_insert_id'. intros H.
  destruct (nth_lookup_or_length l i 0) as [E|E]; [exact E|lia].
Qed.

Lemma Forall2_of_nth {A B} (Q : A -> B -> Prop) (l : list A) (k : list B) :
  length l = length k ->
  (forall i a b, nth_error l i = Some a -> nth_error k i = Some b -> Q a b) ->
  Forall2 Q l k.
Proof.
  revert k. induction l as [|a l IH]; intros [|b k] Hlen H; try discriminate.
  - constructor.
  - constructor.
    + apply (H 0 a b); reflexivity.
    + apply IH; [now injection Hlen|].
      intros i a' b' Ha Hb. apply (H (S i) a' b'); assumption.
Qed.

Lemma cat_item_nth ts ax : forall idx i t d,
  nth_error ts i = Some t ->
  d < nth ax (shape t) 0 ->
  nth ax idx 0 =
    list_sum (map (fun t => nth ax (shape t) 0) (firstn i ts)) + d ->
  ax < length idx ->
  cat_item ts ax idx = item t (<[ax := d]> idx).
Proof.
  induction ts as [|t0 r IH]; intros idx [|i] t d Hi Hd Hidx Hax;
    try discriminate.
  - injection Hi as <-. cbn in Hidx. cbn [cat_item].
    rewrite Hidx. replace (d <? nth ax (shape t0) 0) with true
      by (symmetry; apply Nat.ltb_lt; exact Hd).
    rewrite <- Hidx. now rewrite insert_nth_id.
  - cbn [cat_item]. cbn [firstn map] in Hidx. simpl list_sum in Hidx.
    replace (nth ax idx 0 <? nth ax (shape t0) 0) with false
      by (symmetry; apply Nat.ltb_ge; lia).
    rewrite (IH _ i t d Hi Hd).
    + now rewrite list_insert_insert_eq.
    + rewrite nth_insert_eq by exact Hax. lia.
    + now rewrite length_insert.
Qed.

(** Tensors of the shapes [tmpl] with the widths [widths] at axis [ax]
    are joined into one of width [list_sum widths]; the columns of tensor
    [i] start at [stream_offset widths i]. *)
Lemma cat_spec ts widths tmpl ax dim :
  ts <> [] ->
  py_index (length tmpl) dim = Ok ax ->
  Forall2 (fun t n => shape t = <[ax := n]> tmpl) ts widths ->
  exists r, cat ts dim = Ok r /\
    shape r = <[ax := list_sum widths]> tmpl /\
    forall i t n idx d,
      nth_error ts i = Some t -> nth_error widths i = Some n -> d < n ->
      length idx = length tmpl ->
      nth ax idx 0 = stream_offset widths i + d ->
      item r idx = item t (<[ax := d]> idx).
Proof.
  intros Hne Hax HF.
  pose proof (py_index_lt _ _ _ Hax) as Hlt.
  assert (Hw : map (fun t => nth ax (shape t) 0) ts = widths).
  { induction HF as [|t n ts' ws Hs HF' IH]; [reflexivity|].
    cbn [map]. rewrite Hs, nth_insert_eq by exact Hlt. f_equal.
    destruct ts' as [|t' ts'']; [now inversion HF'|]. now apply IH. }
  destruct ts as [|t0 rest]; [contradiction|].
  assert (Hs0 : exists n0, shape t0 = <[ax := n0]> tmpl).
  { inversion HF; subst. eauto. }
  destruct Hs0 as [n0 Hs0].
  unfold cat. rewrite Hs0, length_insert, Hax. cbn [bind].
  replace (forallb _ (t0 :: rest)) with true.
  - eexists. split; [reflexivity|]. cbn [shape item].
    rewrite Hw, list_insert_insert_eq. split; [reflexivity|].
    intros i t n idx d Hi Hn Hd Hlen Hidx.
    assert (Hst : shape t = <[ax := n]> tmpl).
    { clear - HF Hi Hn. revert i Hi Hn.
      induction HF as [|t' n' ts' ws Hs HF' IH]; intros [|i] Hi Hn;
        try discriminate.
      - injection Hi as <-. injection Hn as <-. exact Hs.
      - now apply (IH i). }
    apply cat_item_nth with (i := i).
    + exact Hi.
    + rewrite Hst, nth_insert_eq by exact Hlt. exact Hd.
    + rewrite Hidx. unfold stream_offset. rewrite <- Hw.
      now rewrite firstn_map.
    + lia.
  - symmetry. apply forallb_forall. intros t Ht.
    apply bool_decide_eq_true.
    assert (Hst : exists n, shape t = <[ax := n]> tmpl).
    { clear - HF Ht. induction HF as [|t' n' ts' ws Hs HF' IH];
        [destruct Ht|].
      destruct Ht as [<-|Ht]; [eauto|now apply IH]. }
    destruct Hst as [n Hst]. rewrite Hst.
    now rewrite !list_insert_insert_eq.
Qed.

Lemma cat_last3 ts widths B T :
  ts <> [] ->
  Forall2 (fun t n => shape t = [B; T; n]) ts widths ->
  exists r, cat ts (-1) = Ok r /\
    shape r = [B; T; list_sum widths] /\
    forall i t n b u d,
      nth_error ts i = Some t -> nth_error widths i = Some n -> d < n ->
      item r [b; u; stream_offset widths i + d] = item t [b; u; d].
Proof.
  intros Hne HF.
  destruct (cat_spec ts widths [B; T; 0] 2 (-1) Hne eq_refl HF)
    as (r & Hr & Hs & Hit).
  exists r. split; [exact Hr|]. split; [exact Hs|].
  intros i t n b u d Hi Hn Hd.
  now rewrite (Hit i t n [b; u; stream_offset widths i + d] d Hi Hn Hd eq_refl eq_refl).
Qed.

Lemma cat_axis1 ts widths B T :
  ts <> [] ->
  Forall2 (fun t n => shape t = [B; n; T]) ts widths ->
  exists r, cat ts 1 = Ok r /\
    shape r = [B; list_sum widths; T] /\
    forall i t n b u d,
      nth_error ts i = Some t -> nth_error widths i = Some n -> d < n ->
      item r [b; stream_offset widths i + d; u] = item t [b; d; u].
Proof.
  intros Hne HF.
  destruct (cat_spec ts widths [B; 0; T] 1 1 Hne eq_refl HF)
    as (r & Hr & Hs & Hit).
  exists r. split; [exact Hr|]. split; [exact Hs|].
  intros i t n b u d Hi Hn Hd.
  now rewrite (Hit i t n [b; stream_offset widths i + d; u] d Hi Hn Hd eq_refl eq_refl).
Qed.

Lemma narrow_last_shape3 x start n B T C :
  shape x = [B; T; C] -> shape (narrow_last start n x) = [B; T; n].
Proof. intros H. unfold narrow_last. cbn [shape]. now rewrite H. Qed.

Lemma narrow_last_item3 x start n b u d :
  item (narrow_last start n x) [b; u; d] = item x [b; u; start + d].
Proof. reflexivity. Qed.

(** ** The composer: the order of the streams *)

Section ComposerOrder.
Import MultistreamParametricModel.

Lemma set_lf0_params_fields self :
  energy_model (_set_lf0_params self) = energy_model self /\
  timbre_model (_set_lf0_params self) = timbre_model self /\
  energy_stream_sizes (_set_lf0_params self) = energy_stream_sizes self /\
  pitch_stream_sizes (_set_lf0_params self) = pitch_stream_sizes self /\
  timbre_stream_sizes (_set_lf0_params self) = timbre_stream_sizes self.
Proof.
  unfold _set_lf0_params.
  destruct (hasattr (attrs (pitch_model self)) "out_lf0_mean");
    repeat split; reflexivity.
Qed.

Lemma unpack4_wrong_length {A} (l : list A) :
  length l <> 4 -> unpack4 l = Raise ValueError.
Proof.
  destruct l as [|a [|b [|c [|d [|e l]]]]]; cbn; intros H;
    try reflexivity; contradiction.
Qed.

Ltac stream_shapes :=
  repeat (constructor;
          [first [eassumption | eapply narrow_last_shape3; eassumption]|]);
  constructor.

Lemma item_col_eq x (b u c c' : nat) :
  c = c' -> item x [b; u; c] = item x [b; u; c'].
Proof. now intros ->. Qed.

(** Closes [item o [b; u; A] = item s [b; u; S]] with an equation between
    the same columns written with other sums. *)
Ltac by_col H :=
  let E := fresh "E" in
  pose proof H as E;
  unfold stream_offset in E; cbn in E;
  unfold stream_offset; cbn;
  lazymatch type of E with
  | item ?o [?b; ?u; ?A'] = item ?s [?b; ?u; ?S'] =>
      transitivity (item o [b; u; A']);
      [apply item_col_eq; lia
      |transitivity (item s [b; u; S']);
       [exact E | apply item_col_eq; lia]]
  end.

(** The five streams that every arity has. *)
Ltac front_cols Hio Hm0 Hm1 mgc e0 b u d :=
  split; [intros Hd; transitivity (item mgc [b; u; d]);
          [by_col (Hio 0 mgc _ b u d eq_refl eq_refl ltac:(simpl; lia))
          |exact (Hm0 b u d Hd)]|];
  split; [intros Hd; transitivity (item mgc [b; u; e0 + d]);
          [by_col (Hio 0 mgc _ b u (e0 + d) eq_refl eq_refl ltac:(simpl; lia))
          |exact (Hm1 b u d Hd)]|];
  split; [intros Hd; by_col (Hio 1 _ _ b u d eq_refl eq_refl Hd)|];
  split; [intros Hd; by_col (Hio 2 _ _ b u d eq_refl eq_refl Hd)|];
  split; [intros Hd; by_col (Hio 3 _ _ b u d eq_refl eq_refl Hd)|].

(** C4. [forward] joins the streams in the order merged spectral stream
    (energy in front of the spectral envelope), lf0, vuv, aperiodicity, then
    vibrato and vibrato flags when present; it accepts 2, 3 or 4 pitch
    streams and no other number. *)
Theorem forward_stream_order
    (self : t) (x : Tensor) (lengths : Lengths)
    (eo po resid to : Tensor) (e0 m a : nat) (es : list nat) (B T : nat) :
  energy_stream_sizes self = e0 :: es ->
  timbre_stream_sizes self = [m; a] ->
  invoke (energy_model self) x lengths = Ok eo ->
  shape eo = [B; T; list_sum (e0 :: es)] ->
  invoke (pitch_model (_set_lf0_params self)) x lengths = Ok (po, resid) ->
  shape po = [B; T; list_sum (pitch_stream_sizes self)] ->
  invoke (timbre_model self) x lengths = Ok to ->
  shape to = [B; T; m + a] ->
  (forall p0 p1 rest,
     pitch_stream_sizes self = p0 :: p1 :: rest -> length rest <= 2 ->
     exists out,
       snd (forward self x lengths) = Ok (out, resid) /\
       shape out = [B; T; e0 + m + p0 + p1 + a + list_sum rest] /\
       forall b u d,
         (d < e0 -> item out [b; u; d] = item eo [b; u; d]) /\
         (d < m -> item out [b; u; e0 + d] = item to [b; u; d]) /\
         (d < p0 -> item out [b; u; e0 + m + d] = item po [b; u; d]) /\
         (d < p1 -> item out [b; u; e0 + m + p0 + d] = item po [b; u; p0 + d]) /\
         (d < a ->
          item out [b; u; e0 + m + p0 + p1 + d] = item to [b; u; m + d]) /\
         (forall i r, nth_error rest i = Some r -> d < r ->
            item out [b; u; e0 + m + p0 + p1 + a + stream_offset rest i + d]
            = item po [b; u; p0 + p1 + stream_offset rest i + d])) /\
  (length (pitch_stream_sizes self) < 2 \/ 4 < length (pitch_stream_sizes self) ->
   snd (forward self x lengths) = Raise ValueError).
Proof.
  intros Hes Hts He Hseo Hp Hspo Ht Hsto.
  destruct (set_lf0_params_fields self) as (F1 & F2 & F3 & F4 & F5).
  assert (Hstart :
    snd (forward self x lengths) =
    (let* ps := Ok (split_from po 0 (pitch_stream_sizes self)) in
     let* pitch :=
       (if length (pitch_stream_sizes self) =? 2
        then let* '(lf0, vuv) := unpack2 ps in Ok (Pitch2 lf0 vuv)
        else if length (pitch_stream_sizes self) =? 3
        then let* '(lf0, vuv, vib) := unpack3 ps in Ok (Pitch3 lf0 vuv vib)
        else let* '(lf0, vuv, vib, vib_flags) := unpack4 ps in
             Ok (Pitch4 lf0 vuv vib vib_flags)) in
     let* '(mgc, bap) := Ok (narrow_last 0 m to, narrow_last (0 + m) a to) in
     let* mgc := cat [narrow_last 0 e0 eo; mgc] (-1) in
     let* out :=
       match pitch with
       | Pitch2 lf0 vuv => cat [mgc; lf0; vuv; bap] (-1)
       | Pitch3 lf0 vuv vib => cat [mgc; lf0; vuv; bap; vib] (-1)
       | Pitch4 lf0 vuv vib vib_flags =>
           cat [mgc; lf0; vuv; bap; vib; vib_flags] (-1)
       end in
     Ok (out, resid))).
  { unfold forward, compose. cbn [snd]. rewrite F1, F2, F3, F4, F5.
    rewrite He. cbn [bind].
    rewrite Hes, (split_streams_3axis eo _ B T _ Hseo eq_refl).
    cbn [bind split_from getitem nth_error]. rewrite Hp. cbn [bind].
    rewrite (split_streams_3axis po _ B T _ Hspo eq_refl). cbn [bind].
    destruct (if length (pitch_stream_sizes self) =? 2 then _ else _)
      as [pitch|e]; cbn [bind]; [|reflexivity].
    rewrite Ht. cbn [bind].
    rewrite Hts, (split_streams_3axis to _ B T (m + a) Hsto)
      by (simpl; lia).
    reflexivity. }
  rewrite Hstart. clear Hstart. cbn [bind]. split.
  - intros p0 p1 rest Hps Hlen. rewrite Hps.
    destruct (cat_last3 [narrow_last 0 e0 eo; narrow_last 0 m to] [e0; m] B T
                ltac:(discriminate) ltac:(stream_shapes))
      as (mgc & Hmgc & Hsm & Him).
    rewrite Hmgc.
    assert (Hm0 : forall b u d, d < e0 -> item mgc [b; u; d] = item eo [b; u; d]).
    { intros b u d Hd. by_col (Him 0 _ e0 b u d eq_refl eq_refl Hd). }
    assert (Hm1 : forall b u d, d < m -> item mgc [b; u; e0 + d] = item to [b; u; d]).
    { intros b u d Hd. by_col (Him 1 _ m b u d eq_refl eq_refl Hd). }
    destruct rest as [|p2 [|p3 [|p4 rest]]]; [| | |simpl in Hlen; lia];
      cbn [length Nat.eqb split_from unpack2 unpack3 unpack4 bind].
    + destruct (cat_last3
                  [mgc; narrow_last 0 p0 po; narrow_last (0 + p0) p1 po;
                   narrow_last (0 + m) a to]
                  [list_sum [e0; m]; p0; p1; a] B T
                  ltac:(discriminate) ltac:(stream_shapes))
        as (out & Hout & Hso & Hio).
      rewrite Hout. cbn [bind]. exists out. split; [reflexivity|].
      split; [rewrite Hso; apply (f_equal (fun n => [B; T; n])); simpl; lia|].
      intros b u d. front_cols Hio Hm0 Hm1 mgc e0 b u d.
      intros [|i] r Hi Hd; discriminate.
    + destruct (cat_last3
                  [mgc; narrow_last 0 p0 po; narrow_last (0 + p0) p1 po;
                   narrow_last (0 + m) a to;
                   narrow_last (0 + p0 + p1) p2 po]
                  [list_sum [e0; m]; p0; p1; a; p2] B T
                  ltac:(discriminate) ltac:(stream_shapes))
        as (out & Hout & Hso & Hio).
      rewrite Hout. cbn [bind]. exists out. split; [reflexivity|].
      split; [rewrite Hso; apply (f_equal (fun n => [B; T; n])); simpl; lia|].
      intros b u d. front_cols Hio Hm0 Hm1 mgc e0 b u d.
      intros [|[|i]] r Hi Hd; try discriminate.
      injection Hi as <-.
      by_col (Hio 4 _ p2 b u d eq_refl eq_refl Hd).
    + destruct (cat_last3
                  [mgc; narrow_last 0 p0 po; narrow_last (0 + p0) p1 po;
                   narrow_last (0 + m) a to;
                   narrow_last (0 + p0 + p1) p2 po;
                   narrow_last (0 + p0 + p1 + p2) p3 po]
                  [list_sum [e0; m]; p0; p1; a; p2; p3] B T
                  ltac:(discriminate) ltac:(stream_shapes))
        as (out & Hout & Hso & Hio).
      rewrite Hout. cbn [bind]. exists out. split; [reflexivity|].
      split; [rewrite Hso; apply (f_equal (fun n => [B; T; n])); simpl; lia|].
      intros b u d. front_cols Hio Hm0 Hm1 mgc e0 b u d.
      intros [|[|[|i]]] r Hi Hd; try discriminate; injection Hi as <-.
      * by_col (Hio 4 _ p2 b u d eq_refl eq_refl Hd).
      * by_col (Hio 5 _ p3 b u d eq_refl eq_refl Hd).
  - intros Hlen.
    replace (length (pitch_stream_sizes self) =? 2) with false
      by (symmetry; apply Nat.eqb_neq; lia).
    replace (length (pitch_stream_sizes self) =? 3) with false
      by (symmetry; apply Nat.eqb_neq; lia).
    rewrite unpack4_wrong_length by (rewrite split_from_length; lia).
    reflexivity.
Qed.

End ComposerOrder.

(** ** The scenario of section 8: widths 1, [179, 15] and [1, 1, 3] *)

Section Scenario.
Import MultistreamParametricModel.
Local Open Scope R_scope.

Lemma example_propagated_attrs :
  lf0_attrs (attrs (pitch_model (_set_lf0_params example_composer))) 0 0
    (PyFloat (539 / 100)) (PyFloat (649 / 100))
    (PyFloat (595 / 100)) (PyFloat (23 / 100)).
Proof. repeat split; reflexivity. Qed.

(** The pitch model of the example, called with the composer's
    parameters, returns the corrected pitch in its column 0. *)
Lemma example_pitch_output :
  exists po resid,
    invoke (pitch_model (_set_lf0_params example_composer)) half_frame None
    = Ok (po, resid) /\
    shape po = [1; 1; 5]%nat /\
    item po [0; 0; 0]%nat =
      ((/ 2 * (649 / 100 - 539 / 100) + 539 / 100)
       + (600 * ln 2 / 1200) * tanh 0 - 595 / 100) / (23 / 100).
Proof.
  destruct (lf0_injection_3axis
              (attrs (pitch_model (_set_lf0_params example_composer)))
              half_frame (const_tensor [1; 1; 5]%nat 0) 0 0
              (PyFloat (539 / 100)) (PyFloat (649 / 100))
              (PyFloat (595 / 100)) (PyFloat (23 / 100))
              1 1 1 5 0 0 example_propagated_attrs
              eq_refl eq_refl eq_refl eq_refl)
    as (mu' & resid & Heq & Hs & _ & _ & Hcol).
  exists mu', resid. split; [exact Heq|]. split; [exact Hs|].
  destruct (Hcol 0%nat 0%nat) as [Hp _]; [lia|lia|]. exact Hp.
Qed.

Lemma forward_stream_order_witness :
  exists out resid,
    snd (forward example_composer half_frame None) = Ok (out, resid) /\
    shape out = [1; 1; 200]%nat /\
    item out [0; 0; 180]%nat =
      ((/ 2 * (649 / 100 - 539 / 100) + 539 / 100)
       + (600 * ln 2 / 1200) * tanh 0 - 595 / 100) / (23 / 100).
Proof.
  destruct example_pitch_output as (po & resid & Hp & Hs & Hv).
  destruct (proj1 (forward_stream_order example_composer half_frame None
                     (const_tensor [1; 1; 1]%nat 1) po resid
                     (const_tensor [1; 1; 194]%nat 2) 1 179 15 [] 1 1
                     eq_refl eq_refl eq_refl eq_refl Hp Hs eq_refl eq_refl)
                  1%nat 1%nat [3%nat] eq_refl ltac:(simpl; lia))
    as (out & Hout & Hso & Hcols).
  exists out, resid. split; [exact Hout|]. split; [exact Hso|].
  destruct (Hcols 0%nat 0%nat 0%nat) as (_ & _ & Hlf0 & _).
  rewrite <- Hv. apply Hlf0. lia.
Defined.

End Scenario.

(** ** The filter coefficients *)

Section Coefficients.
Local Open Scope R_scope.

Lemma py_index_last K : py_index (S K) (-1) = Ok K.
Proof.
  unfold py_index.
  replace ((0 <=? -1) && (-1 <? Z.of_nat (S K)))%Z with false by reflexivity.
  replace ((- Z.of_nat (S K) <=? -1) && (-1 <? 0))%Z with true.
  - replace (Z.to_nat (-1 + Z.of_nat (S K))) with K by lia. reflexivity.
  - symmetry. apply andb_true_intro. split; [apply Z.leb_le; lia|reflexivity].
Qed.

Lemma flat_map_cons_nil (l : list nat) :
  flat_map (fun i => map (cons i) [[]]) l = map (fun j => [j]) l.
Proof.
  induction l as [|i l IH]; [reflexivity|].
  change (flat_map (fun i => map (cons i) [[]]) (i :: l))
    with ([i] :: flat_map (fun i => map (cons i) [[]]) l).
  now rewrite IH.
Qed.

Lemma indices_1 m : indices [m] = map (fun j => [j]) (seq 0 m).
Proof. apply flat_map_cons_nil. Qed.

Lemma indices_row m : indices [1%nat; m] = map (fun j => [0%nat; j]) (seq 0 m).
Proof.
  change (indices [1%nat; m]) with (map (cons 0%nat) (indices [m]) ++ []).
  now rewrite app_nil_r, indices_1, map_map.
Qed.

Lemma taps_row a c n m :
  shape a = [n; 1%nat; m] ->
  taps a c = map (fun j => item a [c; 0%nat; j]) (seq 0 m).
Proof.
  intros Hs. unfold taps, view_flat. rewrite Hs. cbn [tl shape item].
  now rewrite indices_row, map_map.
Qed.

Lemma taps_length a c n m : shape a = [n; 1%nat; m] -> length (taps a c) = m.
Proof.
  intros Hs. rewrite (taps_row a c n m Hs). now rewrite length_map, length_seq.
Qed.

Lemma get_filt_coefs_spec f n K :
  shape (weight f) = [n; 1%nat; S K] ->
  exists a, get_filt_coefs f = Ok a /\
    shape a = [n; 1%nat; S K] /\
    forall c j, item a [c; 0%nat; j] =
                if (j =? K)%nat then 1 else item (weight f) [c; 0%nat; j].
Proof.
  intros Hs. unfold get_filt_coefs, setitem_select.
  rewrite Hs. cbn [nth_error]. rewrite py_index_last. cbn [bind].
  unfold expand_to. rewrite decide_False by discriminate.
  cbn [scalar shape strip_ones rev expandable_rev bind].
  eexists. split; [reflexivity|]. split; [reflexivity|].
  intros c j. cbn [item nth]. reflexivity.
Qed.

(** The coefficient that the recursion divides by is 1. *)
Lemma taps_last_one f a n K c :
  shape (weight f) = [n; 1%nat; S K] -> get_filt_coefs f = Ok a ->
  exists h', rev (taps a c) = 1 :: h' /\ length h' = K.
Proof.
  intros Hs Ha.
  destruct (get_filt_coefs_spec f n K Hs) as (a' & Ha' & Hsa & Hit).
  rewrite Ha in Ha'. injection Ha' as <-.
  rewrite (taps_row a c n (S K) Hsa), seq_S, map_app, rev_app_distr.
  cbn [map rev app plus]. rewrite Hit, Nat.eqb_refl.
  eexists. split; [reflexivity|].
  now rewrite length_rev, length_map, length_seq.
Qed.

End Coefficients.

(** ** Shallow-AR synthesis, stream by stream *)

Section Synthesis.
Local Open Scope R_scope.

Lemma map_zero_repeat (l : list R) : map (fun _ => 0) l = repeat 0 (length l).
Proof. induction l as [|a l IH]; cbn; [reflexivity|now rewrite IH]. Qed.

(** One dimension: the column [idx] of the result is the filtered column
    of the input, the others are untouched. *)
Lemma sar_dim_spec os a out idx B Cs T K :
  shape os = [B; Cs; T] -> shape a = [Cs; 1%nat; S K] ->
  shape out = [B; Cs; T] -> (idx < Cs)%nat ->
  exists out', sar_dim os a out idx = Ok out' /\
    shape out' = [B; Cs; T] /\
    forall b c t, item out' [b; c; t] =
      if (c =? idx)%nat
      then iir (rev (taps a idx)) (1 :: repeat 0 K)
               (fun n => item os [b; idx; n]) t
      else item out [b; c; t].
Proof.
  intros Hos Ha Hout Hidx. unfold sar_dim, select.
  rewrite Ha, Hos. cbn [nth_error]. rewrite !py_index_nat by exact Hidx.
  cbn [bind firstn skipn app].
  assert (Hv : view_flat
                 {| shape := [1%nat; S K];
                    item := fun idx0 =>
                      item a (firstn 0 idx0 ++ idx :: skipn 0 idx0) |}
               = taps a idx).
  { unfold taps. now rewrite Ha. }
  rewrite Hv.
  assert (Hlen : length (rev (taps a idx)) = S K).
  { now rewrite length_rev, (taps_length a idx Cs (S K) Ha). }
  rewrite map_zero_repeat, Hlen. cbn [repeat set_first_one bind].
  unfold lfilter. rewrite Hlen. cbn [length].
  rewrite repeat_length, Nat.eqb_refl. cbn [negb shape bind].
  unfold setitem_select. rewrite Hout. cbn [nth_error].
  rewrite py_index_nat by exact Hidx. cbn [bind firstn skipn app].
  rewrite expand_to_same by reflexivity. cbn [bind].
  eexists. split; [reflexivity|]. split; [reflexivity|].
  intros b c t. cbn [item nth firstn skipn app removelast List.last].
  reflexivity.
Qed.

(** The loop over the dimensions [start, start + n). *)
Lemma sar_loop_spec os a B Cs T K n : forall start out,
  shape os = [B; Cs; T] -> shape a = [Cs; 1%nat; S K] ->
  shape out = [B; Cs; T] -> (start + n <= Cs)%nat ->
  exists out', foldM (sar_dim os a) (seq start n) out = Ok out' /\
    shape out' = [B; Cs; T] /\
    forall b c t, item out' [b; c; t] =
      if ((start <=? c) && (c <? start + n))%nat
      then iir (rev (taps a c)) (1 :: repeat 0 K)
               (fun m => item os [b; c; m]) t
      else item out [b; c; t].
Proof.
  induction n as [|n IH]; intros start out Hos Ha Hout Hle.
  - exists out. split; [reflexivity|]. split; [exact Hout|].
    intros b c t.
    replace ((start <=? c) && (c <? start + 0))%nat with false; [reflexivity|].
    symmetry. apply andb_false_iff.
    destruct (Nat.leb_spec start c); [right; apply Nat.ltb_ge; lia|now left].
  - cbn [seq foldM].
    destruct (sar_dim_spec os a out start B Cs T K Hos Ha Hout)
      as (o1 & Ho1 & Hs1 & Hi1); [lia|].
    rewrite Ho1. cbn [bind].
    destruct (IH (S start) o1 Hos Ha Hs1) as (o2 & Ho2 & Hs2 & Hi2); [lia|].
    exists o2. split; [exact Ho2|]. split; [exact Hs2|].
    intros b c t. rewrite Hi2, Hi1.
    destruct (Nat.leb_spec (S start) c) as [H1|H1];
      destruct (Nat.ltb_spec c (S start + n)) as [H2|H2];
      destruct (Nat.leb_spec start c) as [H3|H3];
      destruct (Nat.ltb_spec c (start + S n)) as [H4|H4];
      destruct (Nat.eqb_spec c start) as [H5|H5];
      cbn [andb]; try lia; try reflexivity.
    now subst c.
Qed.

Lemma getitem_some {A} (l : list A) i a :
  nth_error l i = Some a -> getitem l i = Ok a.
Proof. unfold getitem. now intros ->. Qed.

(** One stream of width [n], in the (batch, time, feature) layout. *)
Lemma sar_stream_spec filts s x f B T n K :
  shape x = [B; T; n] -> nth_error filts s = Some f ->
  shape (weight f) = [n; 1%nat; S K] ->
  exists r a, get_filt_coefs f = Ok a /\ sar_stream filts s x = Ok r /\
    shape r = [B; n; T] /\
    forall b c t, (c < n)%nat ->
      item r [b; c; t] =
        iir (rev (taps a c)) (1 :: repeat 0 K) (fun m => item x [b; m; c]) t.
Proof.
  intros Hx Hf Hw.
  destruct (get_filt_coefs_spec f n K Hw) as (a & Ha & Hsa & _).
  unfold sar_stream, transpose12. rewrite Hx. cbn [length Nat.leb bind].
  rewrite (getitem_some _ _ _ Hf). cbn [bind]. rewrite Ha. cbn [bind].
  cbn [shape swap12 nth].
  destruct (sar_loop_spec
              {| shape := [B; n; T]; item := fun idx => item x (swap12 idx) |}
              a B n T K n 0%nat
              (zeros_like
                 {| shape := [B; n; T]; item := fun idx => item x (swap12 idx) |})
              eq_refl Hsa eq_refl)
    as (r & Hr & Hs & Hi); [lia|].
  exists r, a. split; [reflexivity|]. split; [exact Hr|]. split; [exact Hs|].
  intros b c t Hc. rewrite Hi. cbn [Nat.leb andb].
  replace (c <? 0 + n)%nat with true by (symmetry; apply Nat.ltb_lt; lia).
  reflexivity.
Qed.

End Synthesis.

(** ** Shallow-AR synthesis of the flat vector *)

Section SynthesisFlat.
Local Open Scope R_scope.

Lemma length_nonempty {A} (l : list A) : l <> [] -> (0 < length l)%nat.
Proof. destruct l; [contradiction|cbn; lia]. Qed.

Lemma nonempty_of_length {A B} (l : list A) (k : list B) :
  length l = length k -> k <> [] -> l <> [].
Proof. destruct l, k; cbn; congruence. Qed.

(** Column [stream_offset sizes s + d] of the result is the IIR recursion
    on the same column of the input, with the reversed coefficients of
    dimension [d] of stream [s] as denominator and a unit impulse as
    numerator. *)
Lemma shallow_ar_inference_cols out sizes filts B T C :
  shape out = [B; T; C] -> list_sum sizes = C -> sizes <> [] ->
  filters_fit sizes filts ->
  exists r, _shallow_ar_inference out sizes filts = Ok r /\
    shape r = [B; T; C] /\
    forall s n f a b t d,
      nth_error sizes s = Some n -> nth_error filts s = Some f ->
      get_filt_coefs f = Ok a -> (d < n)%nat ->
      item r [b; t; (stream_offset sizes s + d)%nat] =
        iir (rev (taps a d)) (1 :: repeat 0 (length (taps a d) - 1))
            (fun m => item out [b; m; (stream_offset sizes s + d)%nat]) t.
Proof.
  intros Hout Hsum Hne Hfit. unfold _shallow_ar_inference.
  rewrite (split_streams_3axis out sizes B T C Hout Hsum). cbn [bind].
  set (P := fun (i : nat) (x r : Tensor) =>
    forall n, nth_error sizes i = Some n ->
      shape r = [B; n; T] /\
      forall f a, nth_error filts i = Some f -> get_filt_coefs f = Ok a ->
        forall b d t, (d < n)%nat ->
          item r [b; d; t] =
            iir (rev (taps a d)) (1 :: repeat 0 (length (taps a d) - 1))
                (fun m => item out [b; m; (stream_offset sizes i + d)%nat]) t).
  destruct (mapM_enum_spec (sar_stream filts) P (split_from out 0 sizes) 0)
    as (rs & Hrs & Hlen & Hnth).
  { intros i x Hi. cbn [plus].
    destruct (split_from_nth_inv _ _ _ _ _ Hi) as (n & Hn & ->).
    destruct (Hfit i n Hn) as (f & K & Hf & Hw).
    destruct (sar_stream_spec filts i (narrow_last (0 + stream_offset sizes i) n out)
                f B T n K (narrow_last_shape3 _ _ _ B T C Hout) Hf Hw)
      as (r & a & Ha & Hr & Hsr & Hir).
    exists r. split; [exact Hr|]. intros n' Hn'.
    rewrite Hn in Hn'. injection Hn' as <-. split; [exact Hsr|].
    intros f' a' Hf' Ha'. rewrite Hf in Hf'. injection Hf' as <-.
    rewrite Ha in Ha'. injection Ha' as <-.
    intros b d t Hd. rewrite (Hir b d t Hd).
    destruct (get_filt_coefs_spec f n K Hw) as (a2 & Ha2 & Hsa & _).
    rewrite Ha in Ha2. injection Ha2 as <-.
    rewrite (taps_length a d n (S K) Hsa).
    replace (S K - 1)%nat with K by lia. reflexivity. }
  rewrite Hrs. cbn [bind]. rewrite split_from_length in Hlen.
  assert (HP : forall i r n, nth_error rs i = Some r ->
                             nth_error sizes i = Some n -> P i (narrow_last
                               (0 + stream_offset sizes i) n out) r).
  { intros i r n Hr Hn.
    destruct (Hnth i _ (split_from_nth out 0 sizes i n Hn)) as (r' & Hr' & HP').
    rewrite Hr in Hr'. injection Hr' as <-. exact HP'. }
  destruct (cat_axis1 rs sizes B T) as (r1 & Hr1 & Hs1 & Hi1).
  { now apply (nonempty_of_length rs sizes). }
  { apply Forall2_of_nth; [exact Hlen|].
    intros i r n Hr Hn. exact (proj1 (HP i r n Hr Hn n Hn)). }
  rewrite Hr1. cbn [bind]. unfold transpose12. rewrite Hs1.
  cbn [length Nat.leb swap12].
  eexists. split; [reflexivity|]. split; [now rewrite Hsum|].
  intros s n f a b t d Hn Hf Ha Hd. cbn [item swap12].
  destruct (nth_error rs s) as [r|] eqn:Hr.
  - rewrite (Hi1 s r n b t d Hr Hn Hd).
    exact (proj2 (HP s r n Hr Hn n Hn) f a Hf Ha b d t Hd).
  - apply nth_error_None in Hr. assert (s < length sizes)%nat
      by (apply nth_error_Some; congruence). lia.
Qed.

End SynthesisFlat.

(** ** The recursion and its inverse *)

Section Recursion.
Local Open Scope R_scope.

Lemma dot_nil_r u : dot u [] = 0.
Proof. destruct u; reflexivity. Qed.

Lemma dot_zeros_l K v : dot (repeat 0 K) v = 0.
Proof.
  revert v. induction K as [|K IH]; intros [|b v]; cbn; try reflexivity.
  rewrite IH. lra.
Qed.

Lemma dot_zeros_r {A} u (l : list A) : dot u (map (fun _ => 0) l) = 0.
Proof.
  revert l. induction u as [|a u IH]; intros [|b l]; cbn; try reflexivity.
  rewrite IH. lra.
Qed.

Lemma dot_unit K v x : dot (1 :: repeat 0 K) (x :: v) = x.
Proof. cbn [dot]. rewrite dot_zeros_l. lra. Qed.

Lemma dot_app u1 u2 v1 v2 :
  length u1 = length v1 ->
  dot (u1 ++ u2) (v1 ++ v2) = dot u1 v1 + dot u2 v2.
Proof.
  revert v1. induction u1 as [|a u1 IH]; intros [|b v1] H; try discriminate.
  - cbn. lra.
  - cbn [app dot]. rewrite IH by (now injection H). lra.
Qed.

Lemma dot_rev u v : length u = length v -> dot (rev u) (rev v) = dot u v.
Proof.
  revert v. induction u as [|a u IH]; intros [|b v] H; try discriminate.
  - reflexivity.
  - cbn [rev]. rewrite dot_app by (rewrite !length_rev; now injection H).
    rewrite IH by (now injection H). cbn. lra.
Qed.

Lemma rev_seq_S t : rev (seq 0 (S t)) = t :: rev (seq 0 t).
Proof. now rewrite seq_S, rev_app_distr. Qed.

Lemma rev_seq0 n : rev (seq 0 n) = map (fun k => (n - 1 - k)%nat) (seq 0 n).
Proof.
  induction n as [|n IH]; [reflexivity|].
  rewrite rev_seq_S, IH. cbn [seq map]. f_equal; [f_equal; lia|].
  rewrite <- seq_shift, map_map. apply map_ext. intros k. lia.
Qed.

Lemma past_cons x t : past x t = x t :: map x (rev (seq 0 t)).
Proof.
  induction t as [|t IH]; [reflexivity|].
  cbn [past]. now rewrite IH, rev_seq_S.
Qed.

(** The history is the list of the earlier outputs. *)
Lemma iir_hist_outputs a b x t :
  iir_hist a b x t = map (iir a b x) (rev (seq 0 t)).
Proof.
  induction t as [|t IH]; [reflexivity|].
  rewrite rev_seq_S. cbn [map]. rewrite <- IH. reflexivity.
Qed.

(** With a unit impulse as numerator, the output is the input minus the
    feedback of the earlier outputs, divided by the leading coefficient. *)
Lemma iir_unit_recursion a0 a' K x t :
  iir (a0 :: a') (1 :: repeat 0 K) x t
  = (x t - dot a' (map (iir (a0 :: a') (1 :: repeat 0 K) x) (rev (seq 0 t))))
    / a0.
Proof.
  unfold iir at 1. cbn [iir_hist hd tl].
  now rewrite past_cons, dot_unit, iir_hist_outputs.
Qed.

Lemma dot_past x h : forall t,
  dot h (map (fun k => if (t <? k)%nat then 0 else x (t - k)%nat)
             (seq 0 (length h)))
  = dot h (past x t).
Proof.
  induction h as [|a h IH]; intros t; [reflexivity|].
  cbn [length seq map]. rewrite <- seq_shift, map_map.
  destruct t as [|t].
  - cbn [past dot Nat.ltb Nat.leb Nat.sub].
    rewrite dot_nil_r. f_equal.
    apply (dot_zeros_r h (seq 0 (length h))).
  - cbn [past dot]. rewrite <- (IH t). reflexivity.
Qed.

(** The causal convolution in kernel layout is the dot product of the
    reversed coefficients with the past of the input. *)
Lemma causal_conv_dot w x t : causal_conv w x t = dot (rev w) (past x t).
Proof.
  unfold causal_conv.
  rewrite <- dot_rev by (now rewrite length_map, length_seq).
  rewrite <- map_rev, rev_seq0, map_map.
  rewrite <- dot_past, length_rev.
  f_equal. apply map_ext_in. intros k Hk. apply in_seq in Hk.
  destruct (Nat.ltb_spec (t + (length w - 1 - k)) (length w - 1));
    destruct (Nat.ltb_spec t k); try lia; [reflexivity|].
  f_equal. lia.
Qed.

(** The recursion with leading coefficient 1 undoes the convolution
    with the same coefficients. *)
Lemma iir_inverts_fir h' K e x :
  (forall n, e n = dot (1 :: h') (past x n)) ->
  forall t, iir (1 :: h') (1 :: repeat 0 K) e t = x t.
Proof.
  intros He.
  assert (H : forall t, iir_hist (1 :: h') (1 :: repeat 0 K) e t
                        = map x (rev (seq 0 t))).
  { induction t as [|t IH]; [reflexivity|].
    cbn [iir_hist hd tl]. rewrite IH, rev_seq_S. cbn [map]. f_equal.
    rewrite (past_cons e), dot_unit, He, (past_cons x). cbn [dot]. field. }
  intros t. unfold iir. rewrite H, rev_seq_S. reflexivity.
Qed.

End Recursion.

(** ** Shallow-AR synthesis: the claim *)

Section SynthesisClaim.
Local Open Scope R_scope.

(** C7. [_shallow_ar_inference] splits the flat input by the stream sizes
    and returns an output of the same shape; the column of dimension [d] of
    stream [s], at its place in the stream layout, is the IIR recursion on
    the same column of the input whose denominator is that dimension's
    analysis coefficients reversed and whose numerator is the unit impulse:
    each sample is the input sample minus the feedback of the earlier
    output samples. *)
Theorem shallow_ar_inference_spec
    (out : Tensor) (stream_sizes : list nat)
    (analysis_filts : list TrTimeInvFIRFilter) (B T C : nat) :
  shape out = [B; T; C] ->
  list_sum stream_sizes = C ->
  stream_sizes <> [] ->
  filters_fit stream_sizes analysis_filts ->
  exists r,
    _shallow_ar_inference out stream_sizes analysis_filts = Ok r /\
    shape r = shape out /\
    forall s n f a b t d,
      nth_error stream_sizes s = Some n ->
      nth_error analysis_filts s = Some f ->
      get_filt_coefs f = Ok a -> (d < n)%nat ->
      let c := (stream_offset stream_sizes s + d)%nat in
      let y := fun m => item r [b; m; c] in
      y t = iir (rev (taps a d)) (1 :: repeat 0 (length (taps a d) - 1))
                (fun m => item out [b; m; c]) t /\
      y t = (item out [b; t; c]
             - dot (tl (rev (taps a d))) (map y (rev (seq 0 t))))
            / hd 0 (rev (taps a d)).
Proof.
  intros Hout Hsum Hne Hfit.
  destruct (shallow_ar_inference_cols out stream_sizes analysis_filts B T C
              Hout Hsum Hne Hfit) as (r & Hr & Hs & Hcols).
  exists r. split; [exact Hr|]. split; [now rewrite Hs, Hout|].
  intros s n f a b t d Hn Hf Ha Hd. cbv zeta.
  split; [exact (Hcols s n f a b t d Hn Hf Ha Hd)|].
  destruct (Hfit s n Hn) as (f' & K & Hf' & Hw).
  rewrite Hf in Hf'. injection Hf' as <-.
  destruct (taps_last_one f a n K d Hw Ha) as (h' & Hh & _).
  rewrite (map_ext _ _ (fun m => Hcols s n f a b m d Hn Hf Ha Hd)).
  rewrite (Hcols s n f a b t d Hn Hf Ha Hd).
  rewrite Hh. cbn [hd tl]. apply iir_unit_recursion.
Qed.

Lemma example_filters_fit : filters_fit [1%nat] (cs_analysis_filts example_sar).
Proof.
  intros [|s] n Hn; [|destruct s; discriminate].
  injection Hn as <-. eexists _, 1%nat. split; reflexivity.
Qed.

Lemma shallow_ar_inference_spec_witness :
  exists r,
    _shallow_ar_inference two_frames [1%nat] (cs_analysis_filts example_sar)
    = Ok r /\
    shape r = shape two_frames /\
    forall s n f a b t d,
      nth_error [1%nat] s = Some n ->
      nth_error (cs_analysis_filts example_sar) s = Some f ->
      get_filt_coefs f = Ok a -> (d < n)%nat ->
      let c := (stream_offset [1%nat] s + d)%nat in
      let y := fun m => item r [b; m; c] in
      y t = iir (rev (taps a d)) (1 :: repeat 0 (length (taps a d) - 1))
                (fun m => item two_frames [b; m; c]) t /\
      y t = (item two_frames [b; t; c]
             - dot (tl (rev (taps a d))) (map y (rev (seq 0 t))))
            / hd 0 (rev (taps a d)).
Proof.
  apply (shallow_ar_inference_spec two_frames [1%nat]
           (cs_analysis_filts example_sar) 1 2 1 eq_refl eq_refl).
  - discriminate.
  - exact example_filters_fit.
Defined.

End SynthesisClaim.

(** ** Analysis followed by synthesis *)

Section RoundTrip.
Local Open Scope R_scope.

Lemma fir_forward_spec f x B n T K :
  shape x = [B; n; T] -> shape (weight f) = [n; 1%nat; S K] ->
  exists r a, get_filt_coefs f = Ok a /\ fir_forward f x = Ok r /\
    shape r = [B; n; T] /\
    forall b c t, item r [b; c; t] =
      causal_conv (taps a c) (fun m => item x [b; c; m]) t.
Proof.
  intros Hx Hw.
  destruct (get_filt_coefs_spec f n K Hw) as (a & Ha & Hsa & _).
  unfold fir_forward. rewrite Ha. cbn [bind]. rewrite Hx, Hsa.
  rewrite Nat.eqb_refl.
  exists {| shape := [B; n; T];
            item := fun idx =>
              causal_conv (taps a (nth 1 idx 0%nat))
                (fun m => item x [nth 0 idx 0%nat; nth 1 idx 0%nat; m])
                (nth 2 idx 0%nat) |}, a.
  repeat split; reflexivity.
Qed.

(** Column [stream_offset sizes s + d] of the training target is the
    causal convolution of the same column of the trajectory with the
    coefficients of dimension [d] of stream [s]. *)
Lemma preprocess_target_cols y sizes filts B T C :
  shape y = [B; T; C] -> list_sum sizes = C -> sizes <> [] ->
  filters_fit sizes filts ->
  exists e, preprocess_target sizes filts y = Ok e /\
    shape e = [B; T; C] /\
    forall s n f a b t d,
      nth_error sizes s = Some n -> nth_error filts s = Some f ->
      get_filt_coefs f = Ok a -> (d < n)%nat ->
      item e [b; t; (stream_offset sizes s + d)%nat] =
        causal_conv (taps a d)
          (fun m => item y [b; m; (stream_offset sizes s + d)%nat]) t.
Proof.
  intros Hy Hsum Hne Hfit. unfold preprocess_target.
  rewrite Hy. cbn [rev app]. rewrite Hsum, Nat.eqb_refl. cbn [negb].
  rewrite (split_streams_3axis y sizes B T C Hy Hsum). cbn [bind].
  set (body := fun (idx : nat) (yi : Tensor) =>
                 let* filt := getitem filts idx in
                 let* yt := transpose12 yi in
                 let* r := fir_forward filt yt in transpose12 r).
  set (P := fun (i : nat) (x r : Tensor) =>
    forall n, nth_error sizes i = Some n ->
      shape r = [B; T; n] /\
      forall f a, nth_error filts i = Some f -> get_filt_coefs f = Ok a ->
        forall b d t,
          item r [b; t; d] =
            causal_conv (taps a d)
              (fun m => item y [b; m; (stream_offset sizes i + d)%nat]) t).
  destruct (mapM_enum_spec body P (split_from y 0 sizes) 0)
    as (rs & Hrs & Hlen & Hnth).
  { intros i x Hi. cbn [plus].
    destruct (split_from_nth_inv _ _ _ _ _ Hi) as (n & Hn & ->).
    destruct (Hfit i n Hn) as (f & K & Hf & Hw).
    unfold body. rewrite (getitem_some _ _ _ Hf). cbn [bind].
    unfold transpose12 at 1.
    rewrite (narrow_last_shape3 y _ n B T C Hy). cbn [length Nat.leb bind swap12].
    destruct (fir_forward_spec f
                {| shape := [B; n; T];
                   item := fun idx =>
                     item (narrow_last (0 + stream_offset sizes i) n y)
                          (swap12 idx) |}
                B n T K eq_refl Hw)
      as (r & a & Ha & Hr & Hsr & Hir).
    rewrite Hr. cbn [bind]. unfold transpose12. rewrite Hsr.
    cbn [length Nat.leb swap12].
    eexists. split; [reflexivity|]. intros n' Hn'.
    rewrite Hn in Hn'. injection Hn' as <-. split; [reflexivity|].
    intros f' a' Hf' Ha'. rewrite Hf in Hf'. injection Hf' as <-.
    rewrite Ha in Ha'. injection Ha' as <-.
    intros b d t. cbn [item swap12]. rewrite Hir. reflexivity. }
  rewrite Hrs. cbn [bind]. rewrite split_from_length in Hlen.
  assert (HP : forall i r n, nth_error rs i = Some r ->
                             nth_error sizes i = Some n -> P i (narrow_last
                               (0 + stream_offset sizes i) n y) r).
  { intros i r n Hr Hn.
    destruct (Hnth i _ (split_from_nth y 0 sizes i n Hn)) as (r' & Hr' & HP').
    rewrite Hr in Hr'. injection Hr' as <-. exact HP'. }
  destruct (cat_last3 rs sizes B T) as (e & He & Hse & Hie).
  { now apply (nonempty_of_length rs sizes). }
  { apply Forall2_of_nth; [exact Hlen|].
    intros i r n Hr Hn. exact (proj1 (HP i r n Hr Hn n Hn)). }
  exists e. split; [exact He|]. split; [now rewrite Hse, Hsum|].
  intros s n f a b t d Hn Hf Ha Hd.
  destruct (nth_error rs s) as [r|] eqn:Hr.
  - rewrite (Hie s r n b t d Hr Hn Hd).
    exact (proj2 (HP s r n Hr Hn n Hn) f a Hf Ha b d t).
  - apply nth_error_None in Hr. assert (s < length sizes)%nat
      by (apply nth_error_Some; congruence). lia.
Qed.

(** Every column of the flat vector belongs to a stream. *)
Lemma column_in_stream sizes : forall c,
  (c < list_sum sizes)%nat ->
  exists s n d, nth_error sizes s = Some n /\ (d < n)%nat /\
                c = (stream_offset sizes s + d)%nat.
Proof.
  induction sizes as [|m r IH]; intros c Hc; [simpl in Hc; lia|].
  destruct (Nat.lt_ge_cases c m) as [Hlt|Hge].
  - exists 0%nat, m, c. split; [reflexivity|]. split; [exact Hlt|reflexivity].
  - destruct (IH (c - m)%nat) as (s & n & d & Hn & Hd & Hcd).
    { simpl in Hc. lia. }
    exists (S s), n, d. split; [exact Hn|]. split; [exact Hd|].
    unfold stream_offset in *. simpl. lia.
Qed.

(** C8. Filtering a trajectory with [preprocess_target] and then with
    [_shallow_ar_inference], with the same coefficients, gives the
    trajectory back (in real arithmetic, from zero initial conditions). *)
Theorem synthesis_inverts_analysis
    (self : Conv1dResnetSAR) (y : Tensor) (B T C : nat) :
  shape y = [B; T; C] ->
  list_sum (cs_stream_sizes self) = C ->
  cs_stream_sizes self <> [] ->
  filters_fit (cs_stream_sizes self) (cs_analysis_filts self) ->
  exists e r,
    Conv1dResnetSAR_preprocess_target self y = Ok e /\
    _shallow_ar_inference e (cs_stream_sizes self) (cs_analysis_filts self)
    = Ok r /\
    shape r = shape y /\
    forall b t c, (c < C)%nat -> item r [b; t; c] = item y [b; t; c].
Proof.
  intros Hy Hsum Hne Hfit. unfold Conv1dResnetSAR_preprocess_target.
  destruct (preprocess_target_cols y _ _ B T C Hy Hsum Hne Hfit)
    as (e & He & Hse & Hce).
  destruct (shallow_ar_inference_cols e _ _ B T C Hse Hsum Hne Hfit)
    as (r & Hr & Hsr & Hcr).
  exists e, r. split; [exact He|]. split; [exact Hr|].
  split; [now rewrite Hsr, Hy|].
  intros b t c Hc. rewrite <- Hsum in Hc.
  destruct (column_in_stream _ c Hc) as (s & n & d & Hn & Hd & ->).
  destruct (Hfit s n Hn) as (f & K & Hf & Hw).
  destruct (get_filt_coefs_spec f n K Hw) as (a & Ha & Hsa & _).
  rewrite (Hcr s n f a b t d Hn Hf Ha Hd).
  destruct (taps_last_one f a n K d Hw Ha) as (h' & Hh & _).
  rewrite Hh.
  apply (iir_inverts_fir h' _ _
           (fun m => item y [b; m; (stream_offset (cs_stream_sizes self) s + d)%nat])).
  intros m. rewrite (Hce s n f a b m d Hn Hf Ha Hd).
  now rewrite causal_conv_dot, Hh.
Qed.

Lemma synthesis_inverts_analysis_witness :
  exists e r,
    Conv1dResnetSAR_preprocess_target example_sar two_frames = Ok e /\
    _shallow_ar_inference e (cs_stream_sizes example_sar)
                          (cs_analysis_filts example_sar) = Ok r /\
    shape r = shape two_frames /\
    forall b t c, (c < 1)%nat -> item r [b; t; c] = item two_frames [b; t; c].
Proof.
  apply (synthesis_inverts_analysis example_sar two_frames 1 2 1
           eq_refl eq_refl).
  - discriminate.
  - exact example_filters_fit.
Defined.

End RoundTrip.

(** ** Inference and forward of the deterministic predictors *)

Section InferenceForward.
Local Open Scope R_scope.

(** The network output of the example: two frames equal to 1. *)
Lemma example_sar_forward :
  exists out,
    forward_output (PConv1dResnetSAR example_sar) two_frames None = Ok (Traj out) /\
    conv_apply (cs_model example_sar) two_frames = Ok out /\
    shape out = [1; 2; 1]%nat /\
    forall idx, item out idx = 1.
Proof.
  eexists. split; [reflexivity|]. split; [reflexivity|].
  split; [reflexivity|]. intros idx. reflexivity.
Qed.

(** Its second synthesised frame is 1 - 1/2. *)
Lemma example_sar_inference :
  exists r,
    inference no_resolver (PConv1dResnetSAR example_sar) two_frames None
    = Ok (Traj r) /\
    item r [0; 1; 0]%nat = / 2.
Proof.
  destruct example_sar_forward as (out & _ & Hc & Hs & Hv).
  destruct (shallow_ar_inference_cols out [1%nat] (cs_analysis_filts example_sar)
              1 2 1 Hs eq_refl ltac:(discriminate) example_filters_fit)
    as (r & Hr & _ & Hcols).
  exists r. split.
  - cbn [inference]. unfold Conv1dResnetSAR_inference. rewrite Hc. cbn [bind].
    change (cs_stream_sizes example_sar) with [1%nat]. now rewrite Hr.
  - destruct (get_filt_coefs_spec
                {| weight := const_tensor [1; 1; 2]%nat (/ 2) |} 1 1 eq_refl)
      as (a & Ha & Hsa & Hit).
    pose proof (Hcols 0%nat 1%nat _ a 0%nat 1%nat 0%nat eq_refl eq_refl Ha
                  ltac:(lia)) as E.
    change (stream_offset [1%nat] 0 + 0)%nat with 0%nat in E. rewrite E.
    rewrite (taps_row a 0 1 2 Hsa). cbn [seq map rev app length Nat.sub repeat].
    rewrite !Hit. cbn [Nat.eqb]. unfold iir.
    cbn [iir_hist past dot hd tl]. rewrite !Hv.
    cbn [weight const_tensor item]. lra.
Qed.

(** C9, as stated, fails: the shallow-AR predictor is deterministic and its
    inference is not its forward. *)
Lemma sar_inference_is_not_forward :
  use_mdn (PConv1dResnetSAR example_sar) = false /\
  inference no_resolver (PConv1dResnetSAR example_sar) two_frames None
  <> forward_output (PConv1dResnetSAR example_sar) two_frames None.
Proof.
  split; [reflexivity|].
  destruct example_sar_forward as (out & Hf & _ & _ & Hv).
  destruct example_sar_inference as (r & Hi & Hr).
  rewrite Hf, Hi. intros H. injection H as H.
  assert (E : item r [0; 1; 0]%nat = item out [0; 1; 0]%nat) by now rewrite H.
  rewrite Hr, Hv in E. lra.
Qed.

(** C9, amended.  A deterministic predictor without shallow-AR structure
    returns from [inference] exactly the trajectory of [forward] (the first
    component of the pair for the residual-F0 models); the shallow-AR
    predictors return that trajectory passed through
    [_shallow_ar_inference]. *)
Theorem deterministic_inference_is_forward
    (resolver : Tensor -> Tensor -> Tensor -> res (Tensor * Tensor))
    (p : Predictor) (x : Tensor) (lengths : Lengths) :
  use_mdn p = false ->
  inference resolver p x lengths =
    match sar_config p with
    | None => forward_output p x lengths
    | Some cfg => let* o := forward_output p x lengths in sar_filtered cfg o
    end.
Proof.
  intros Hdet.
  destruct p as [m|m|m|m|m|m];
    cbn [use_mdn] in Hdet; cbn [inference forward_output sar_config].
  - unfold Conv1dResnet_inference. now rewrite Hdet.
  - unfold Conv1dResnetSAR_inference, Conv1dResnetSAR_forward,
      Conv1dResnet_forward.
    cbn [Conv1dResnetSAR_super c_model c_use_mdn].
    destruct (conv_apply (cs_model m) x) as [out|e]; reflexivity.
  - unfold LSTMRNNSAR_inference.
    destruct (LSTMRNNSAR_forward m x lengths) as [[out| |]|e]; reflexivity.
  - unfold ResF0Conv1dResnet_inference. now rewrite Hdet.
  - unfold ResSkipF0FFConvLSTM_inference. now rewrite Hdet.
  - unfold ResF0VariancePredictor_inference.
    destruct (ResF0VariancePredictor_forward m x lengths) as [[out r]|e];
      reflexivity.
Qed.

Lemma deterministic_inference_is_forward_witness :
  inference no_resolver (PResF0VariancePredictor example_variance_predictor)
            half_frame None
  = forward_output (PResF0VariancePredictor example_variance_predictor)
                   half_frame None.
Proof.
  apply (deterministic_inference_is_forward no_resolver
           (PResF0VariancePredictor example_variance_predictor) half_frame None).
  reflexivity.
Defined.

End InferenceForward.

(** ** A mixture with a single component *)

Section SingleGaussian.
Local Open Scope R_scope.

Lemma strip_ones_keeps_last (B T : nat) :
  T <> 1%nat -> exists s, strip_ones [B; T] = s ++ [T].
Proof.
  intros HT. destruct B as [|[|B]].
  - now exists [0%nat].
  - exists []. destruct T as [|[|T]]; [reflexivity|contradiction|reflexivity].
  - now exists [S (S B)].
Qed.

(** With [use_mdn] and one Gaussian, [squeeze(-1)] drops the component
    axis of the predicted lf0 and the assignment into [mu] fails as soon as
    there are two frames. *)
Lemma lf0_injection_single_gaussian
    (a : gmap string pyval) (x mu : Tensor) (i o : Z)
    (vmin vmax vmean vscale : pyval) (B T D C kin kout : nat) :
  lf0_attrs a i o vmin vmax vmean vscale ->
  shape x = [B; T; D] ->
  shape mu = [B; T; 1%nat; C] ->
  T <> 1%nat ->
  py_index D i = Ok kin ->
  py_index C o = Ok kout ->
  lf0_injection a true x mu = Raise RuntimeError.
Proof.
  intros (H1 & H2 & H3 & H4 & H5 & H6) Hx Hmu HT Hkin Hkout.
  destruct (predict_lf0_4axis x mu i o (float_of vmin) (float_of vmax)
              (float_of vmean) (float_of vscale) 600 B T D 1 C kin kout
              Hx Hmu Hkin Hkout)
    as (pred & resid & Heq & Hsp & Hsr & Hval).
  unfold lf0_injection.
  rewrite (getattr_some _ _ _ H1), (getattr_some _ _ _ H2),
    (getattr_some _ _ _ H3), (getattr_some _ _ _ H4),
    (getattr_some _ _ _ H5), (getattr_some _ _ _ H6).
  cbn [bind index_of]. rewrite Heq. cbn [bind].
  unfold setitem_select. rewrite Hmu. cbn [nth_error]. rewrite Hkout.
  cbn [bind firstn skipn app].
  unfold expand_to, squeeze_last. rewrite Hsp. cbn [rev app shape removelast].
  rewrite decide_False by discriminate.
  destruct (strip_ones_keeps_last B T HT) as [s ->].
  rewrite rev_app_distr. cbn [rev app expandable_rev].
  replace (T =? 1)%nat with false by (symmetry; now apply Nat.eqb_neq).
  reflexivity.
Qed.

(** C3. A mixture predictor with a single Gaussian on a batch of two
    frames: the network and its mixture layer produce the raw output [mu]
    of shape (1, 2, 1, 1) with valid lf0 columns, and [forward] raises
    RuntimeError at the assignment into [mu]; no output of the shape of
    [mu] with a corrected lf0 column is returned. *)
Theorem resf0_forward_single_gaussian_raises :
  ResF0Conv1dResnet_raw example_single_gaussian two_frames None
  = Ok (Some (const_tensor [1; 2; 1]%nat 0, const_tensor [1; 2; 1; 1]%nat 0),
        const_tensor [1; 2; 1; 1]%nat 0) /\
  ResF0Conv1dResnet_forward example_single_gaussian two_frames None
  = Raise RuntimeError /\
  forall r, ResF0Conv1dResnet_forward example_single_gaussian two_frames None
            <> Ok r.
Proof.
  assert (Hraw : ResF0Conv1dResnet_raw example_single_gaussian two_frames None
                 = Ok (Some (const_tensor [1; 2; 1]%nat 0,
                             const_tensor [1; 2; 1; 1]%nat 0),
                       const_tensor [1; 2; 1; 1]%nat 0)) by reflexivity.
  assert (Hfwd : ResF0Conv1dResnet_forward example_single_gaussian two_frames
                   None = Raise RuntimeError).
  { unfold ResF0Conv1dResnet_forward. rewrite Hraw. cbn [bind].
    cbn [example_single_gaussian rc_attrs rc_use_mdn].
    now rewrite (lf0_injection_single_gaussian example_attrs two_frames
                   (const_tensor [1; 2; 1; 1]%nat 0)
                   0 0 (PyInt 5) (PyInt 6) (PyInt 0) (PyInt 1) 1 2 1 1 0 0
                   example_attrs_ok eq_refl eq_refl ltac:(discriminate)
                   eq_refl eq_refl). }
  split; [exact Hraw|]. split; [exact Hfwd|].
  intros r Hr. rewrite Hfwd in Hr. discriminate.
Qed.

End SingleGaussian.

(** * Further properties of the code *)

(** ** [predict_lf0_with_residual]: indices and shapes *)

Section PredictEdges.
Local Open Scope R_scope.

Lemma bdim_cases n m :
  (exists d, bdim n m = Ok d) \/ bdim n m = Raise RuntimeError.
Proof.
  unfold bdim.
  destruct (Nat.eqb n m); [left; eauto|].
  destruct (Nat.eqb n 1); [left; eauto|].
  destruct (Nat.eqb m 1); [left; eauto|now right].
Qed.

Lemma bdim_fail n m :
  n <> m -> n <> 1%nat -> m <> 1%nat -> bdim n m = Raise RuntimeError.
Proof.
  intros H1 H2 H3. unfold bdim.
  destruct (Nat.eqb_spec n m); [contradiction|].
  destruct (Nat.eqb_spec n 1); [contradiction|].
  destruct (Nat.eqb_spec m 1); [contradiction|reflexivity].
Qed.

(** Batches or time axes that are neither equal nor of size 1 do not
    broadcast. *)
Lemma broadcast_shapes_3_fail B T B' T' n m :
  (T <> T' /\ T <> 1%nat /\ T' <> 1%nat) \/
  (B <> B' /\ B <> 1%nat /\ B' <> 1%nat) ->
  broadcast_shapes [B; T; n] [B'; T'; m] = Raise RuntimeError.
Proof.
  intros H. unfold broadcast_shapes. cbn [rev app bshape_rev].
  destruct (bdim_cases n m) as [[d ->]| ->]; [cbn [bind]|reflexivity].
  destruct H as [(H1 & H2 & H3)|(H1 & H2 & H3)].
  - now rewrite (bdim_fail T T' H1 H2 H3).
  - destruct (bdim_cases T T') as [[d' ->]| ->]; [cbn [bind]|reflexivity].
    now rewrite (bdim_fail B B' H1 H2 H3).
Qed.

(** X1. An lf0 index outside the feature axis is an IndexError: for
    [in_lf0_idx] whatever the model output is, for [out_lf0_idx] on a
    3-axis and on a 4-axis output. *)
Theorem predict_lf0_index_error
    (in_feats out_feats : Tensor) (in_lf0_idx out_lf0_idx : Z)
    (in_lf0_min in_lf0_max out_lf0_mean out_lf0_scale cent : R)
    (B T D : nat) :
  shape in_feats = [B; T; D] ->
  (py_index D in_lf0_idx = Raise IndexError ->
   predict_lf0_with_residual in_feats out_feats in_lf0_idx in_lf0_min
     in_lf0_max out_lf0_idx out_lf0_mean out_lf0_scale cent
   = Raise IndexError) /\
  (forall kin s C,
     py_index D in_lf0_idx = Ok kin ->
     shape out_feats = s ++ [C] -> (length s = 2 \/ length s = 3)%nat ->
     py_index C out_lf0_idx = Raise IndexError ->
     predict_lf0_with_residual in_feats out_feats in_lf0_idx in_lf0_min
       in_lf0_max out_lf0_idx out_lf0_mean out_lf0_scale cent
     = Raise IndexError).
Proof.
  intros Hin. split.
  - intros Hi. unfold predict_lf0_with_residual, select.
    rewrite Hin. cbn [nth_error]. now rewrite Hi.
  - intros kin s C Hi Hout Hlen Ho.
    unfold predict_lf0_with_residual, select.
    rewrite Hin. cbn [nth_error]. rewrite Hi. cbn [bind]. rewrite Hout.
    destruct s as [|b' [|t' [|g' [|? ?]]]]; cbn in Hlen; try lia;
      cbn [app length Nat.eqb nth_error]; now rewrite Ho.
Qed.

Lemma predict_lf0_index_error_witness :
  predict_lf0_with_residual half_frame zero_frame 300 5 6 0 0 1 600
  = Raise IndexError.
Proof.
  apply (proj1 (predict_lf0_index_error half_frame zero_frame 300 0 5 6 0 1 600
                  1 1 1 eq_refl)).
  reflexivity.
Defined.

(** X2. A score batch and a model output whose batch sizes, or numbers of
    frames, differ without one of them being 1 cannot be combined: the
    residual connection raises RuntimeError. *)
Theorem predict_lf0_shape_mismatch
    (in_feats out_feats : Tensor) (in_lf0_idx out_lf0_idx : Z)
    (in_lf0_min in_lf0_max out_lf0_mean out_lf0_scale cent : R)
    (B T D B' T' C kin kout : nat) :
  shape in_feats = [B; T; D] ->
  shape out_feats = [B'; T'; C] ->
  py_index D in_lf0_idx = Ok kin ->
  py_index C out_lf0_idx = Ok kout ->
  (T <> T' /\ T <> 1 /\ T' <> 1)%nat \/ (B <> B' /\ B <> 1 /\ B' <> 1)%nat ->
  predict_lf0_with_residual in_feats out_feats in_lf0_idx in_lf0_min
    in_lf0_max out_lf0_idx out_lf0_mean out_lf0_scale cent
  = Raise RuntimeError.
Proof.
  intros Hin Hout Hi Ho Hne.
  unfold predict_lf0_with_residual, select, tzip.
  rewrite Hin, Hout. cbn [nth_error length Nat.eqb bind].
  rewrite Hi, Ho. cbn [bind].
  cbn [shape tmap unsqueeze_last firstn skipn app].
  now rewrite (broadcast_shapes_3_fail B T B' T' 1 1 Hne).
Qed.

Lemma predict_lf0_shape_mismatch_witness :
  predict_lf0_with_residual (const_tensor [1; 2; 1]%nat 0)
    (const_tensor [1; 3; 1]%nat 0) 0 5 6 0 0 1 600
  = Raise RuntimeError.
Proof.
  apply (predict_lf0_shape_mismatch (const_tensor [1; 2; 1]%nat 0)
           (const_tensor [1; 3; 1]%nat 0) 0 0 5 6 0 1 600 1 2 1 1 3 1 0 0
           eq_refl eq_refl eq_refl eq_refl).
  left. repeat split; lia.
Defined.

(** X3. The two results are tied together: de-normalising the predicted
    lf0 with the output statistics gives the de-normalised score lf0 plus
    the returned residual (for a non-zero [out_lf0_scale]). *)
Theorem predict_lf0_residual_relation
    (in_feats out_feats : Tensor) (in_lf0_idx out_lf0_idx : Z)
    (in_lf0_min in_lf0_max out_lf0_mean out_lf0_scale cent : R)
    (B T D C kin kout : nat) (pred resid : Tensor) :
  shape in_feats = [B; T; D] ->
  py_index D in_lf0_idx = Ok kin ->
  py_index C out_lf0_idx = Ok kout ->
  out_lf0_scale <> 0 ->
  predict_lf0_with_residual in_feats out_feats in_lf0_idx in_lf0_min
    in_lf0_max out_lf0_idx out_lf0_mean out_lf0_scale cent
  = Ok (pred, resid) ->
  (shape out_feats = [B; T; C] ->
   forall b t, (b < B)%nat -> (t < T)%nat ->
     item pred [b; t; 0%nat] * out_lf0_scale + out_lf0_mean
     = (item in_feats [b; t; kin] * (in_lf0_max - in_lf0_min) + in_lf0_min)
       + item resid [b; t; 0%nat]) /\
  (forall G, shape out_feats = [B; T; G; C] ->
   forall b t g, (b < B)%nat -> (t < T)%nat -> (g < G)%nat ->
     item pred [b; t; g] * out_lf0_scale + out_lf0_mean
     = (item in_feats [b; t; kin] * (in_lf0_max - in_lf0_min) + in_lf0_min)
       + item resid [b; t; g]).
Proof.
  intros Hin Hi Ho Hs Heq. split.
  - intros Hout b t Hb Ht.
    destruct (predict_lf0_3axis in_feats out_feats in_lf0_idx out_lf0_idx
                in_lf0_min in_lf0_max out_lf0_mean out_lf0_scale cent
                B T D C kin kout Hin Hout Hi Ho)
      as (p & r & Heq' & _ & _ & Hval).
    rewrite Heq in Heq'. injection Heq' as <- <-.
    destruct (Hval b t Hb Ht) as [-> ->]. field. exact Hs.
  - intros G Hout b t g Hb Ht Hg.
    destruct (predict_lf0_4axis in_feats out_feats in_lf0_idx out_lf0_idx
                in_lf0_min in_lf0_max out_lf0_mean out_lf0_scale cent
                B T D G C kin kout Hin Hout Hi Ho)
      as (p & r & Heq' & _ & _ & Hval).
    rewrite Heq in Heq'. injection Heq' as <- <-.
    destruct (Hval b t g Hb Ht Hg) as [-> ->]. field. exact Hs.
Qed.

Lemma predict_lf0_residual_relation_witness :
  exists pred resid,
    predict_lf0_with_residual half_frame zero_frame 0 5 6 0 0 1 600
    = Ok (pred, resid) /\
    forall b t, (b < 1)%nat -> (t < 1)%nat ->
      item pred [b; t; 0%nat] * 1 + 0
      = (item half_frame [b; t; 0%nat] * (6 - 5) + 5)
        + item resid [b; t; 0%nat].
Proof.
  destruct (predict_lf0_3axis half_frame zero_frame 0 0 5 6 0 1 600
              1 1 1 1 0 0 eq_refl eq_refl eq_refl eq_refl)
    as (pred & resid & Heq & _).
  exists pred, resid. split; [exact Heq|].
  apply (proj1 (predict_lf0_residual_relation half_frame zero_frame 0 0 5 6 0 1
                  600 1 1 1 1 0 0 pred resid eq_refl eq_refl eq_refl
                  ltac:(lra) Heq) eq_refl).
Defined.

End PredictEdges.

(** ** The forward step: bounds and rejected inputs *)

Section ForwardEdges.
Local Open Scope R_scope.

Lemma half_octave : 600 * ln 2 / 1200 = ln 2 / 2.
Proof. field. Qed.

(** X4. The lf0 that a residual-F0 predictor writes into its output,
    de-normalised with the output statistics, lies less than 600 cents
    ([ln 2 / 2] in log-frequency) from the de-normalised score lf0, and the
    difference is the residual that [forward] returns. *)
Theorem resf0_forward_within_600_cents
    (p : ResF0Predictor) (x : Tensor) (lengths : Lengths)
    (mix : option (Tensor * Tensor)) (mu : Tensor) (i o : Z)
    (vmin vmax vmean vscale : pyval) (B T D C kin kout : nat) :
  resf0_raw p x lengths = Ok (mix, mu) ->
  lf0_attrs (resf0_attrs p) i o vmin vmax vmean vscale ->
  shape x = [B; T; D] ->
  py_index D i = Ok kin ->
  py_index C o = Ok kout ->
  float_of vscale <> 0 ->
  (resf0_use_mdn p = false -> shape mu = [B; T; C] ->
   exists out resid,
     resf0_forward p x lengths = Ok (with_mu mix out, resid) /\
     forall b t, (b < B)%nat -> (t < T)%nat ->
       let score := item x [b; t; kin] * (float_of vmax - float_of vmin)
                    + float_of vmin in
       let lf0 := item out [b; t; kout] * float_of vscale + float_of vmean in
       lf0 - score = item resid [b; t; 0%nat] /\
       Rabs (lf0 - score) < ln 2 / 2) /\
  (resf0_use_mdn p = true ->
   forall G, G <> 1%nat -> shape mu = [B; T; G; C] ->
   exists out resid,
     resf0_forward p x lengths = Ok (with_mu mix out, resid) /\
     forall b t g, (b < B)%nat -> (t < T)%nat -> (g < G)%nat ->
       let score := item x [b; t; kin] * (float_of vmax - float_of vmin)
                    + float_of vmin in
       let lf0 := item out [b; t; g; kout] * float_of vscale + float_of vmean in
       lf0 - score = item resid [b; t; g] /\
       Rabs (lf0 - score) < ln 2 / 2).
Proof.
  intros Hraw Hattrs Hx Hkin Hkout Hs.
  assert (HL : 0 < 600 * ln 2 / 1200) by (pose proof ln2_pos; lra).
  split.
  - intros Hmdn Hmu.
    destruct (lf0_injection_3axis _ x mu i o vmin vmax vmean vscale
                B T D C kin kout Hattrs Hx Hmu Hkin Hkout)
      as (mu' & resid & Heq & _ & _ & _ & Hcol).
    exists mu', resid. rewrite resf0_forward_unfold, Hraw, Hmdn. cbn [bind].
    rewrite Heq. cbn [bind]. split; [reflexivity|].
    intros b t Hb Ht. cbv zeta. destruct (Hcol b t Hb Ht) as [Hp Hr].
    assert (E : item mu' [b; t; kout] * float_of vscale + float_of vmean
                - (item x [b; t; kin] * (float_of vmax - float_of vmin)
                   + float_of vmin)
                = 600 * ln 2 / 1200 * tanh (item mu [b; t; kout])).
    { rewrite Hp. field. exact Hs. }
    rewrite E, Hr. split; [reflexivity|].
    rewrite <- half_octave. now apply scaled_tanh_bound.
  - intros Hmdn G HG Hmu.
    destruct (lf0_injection_4axis _ x mu i o vmin vmax vmean vscale
                B T D G C kin kout Hattrs Hx Hmu HG Hkin Hkout)
      as (mu' & resid & Heq & _ & _ & _ & Hcol).
    exists mu', resid. rewrite resf0_forward_unfold, Hraw, Hmdn. cbn [bind].
    rewrite Heq. cbn [bind]. split; [reflexivity|].
    intros b t g Hb Ht Hg. cbv zeta. destruct (Hcol b t g Hb Ht Hg) as [Hp Hr].
    assert (E : item mu' [b; t; g; kout] * float_of vscale + float_of vmean
                - (item x [b; t; kin] * (float_of vmax - float_of vmin)
                   + float_of vmin)
                = 600 * ln 2 / 1200 * tanh (item mu [b; t; g; kout])).
    { rewrite Hp. field. exact Hs. }
    rewrite E, Hr. split; [reflexivity|].
    rewrite <- half_octave. now apply scaled_tanh_bound.
Qed.

Lemma example_scale_nonzero : float_of (PyInt 1) <> 0.
Proof. cbn. lra. Qed.

Lemma resf0_forward_within_600_cents_witness :
  exists out resid,
    resf0_forward (RVar example_variance_predictor) half_frame None
    = Ok (with_mu None out, resid) /\
    forall b t, (b < 1)%nat -> (t < 1)%nat ->
      let score := item half_frame [b; t; 0%nat]
                   * (float_of (PyInt 6) - float_of (PyInt 5))
                   + float_of (PyInt 5) in
      let lf0 := item out [b; t; 0%nat] * float_of (PyInt 1)
                 + float_of (PyInt 0) in
      lf0 - score = item resid [b; t; 0%nat] /\
      Rabs (lf0 - score) < ln 2 / 2.
Proof.
  apply (proj1 (resf0_forward_within_600_cents
                  (RVar example_variance_predictor) half_frame None
                  None zero_frame 0 0 (PyInt 5) (PyInt 6) (PyInt 0) (PyInt 1)
                  1 1 1 1 0 0
                  eq_refl example_attrs_ok eq_refl eq_refl eq_refl
                  example_scale_nonzero)
               eq_refl eq_refl).
Defined.

(** X5. With an [in_lf0_idx] outside the features of the input, [forward]
    of a residual-F0 predictor returns nothing; once the network has
    produced its output the exception is IndexError.  The same holds for an
    [out_lf0_idx] outside the features of the output. *)
Theorem resf0_forward_rejects_bad_index
    (p : ResF0Predictor) (x : Tensor) (lengths : Lengths) (i o : Z)
    (vmin vmax vmean vscale : pyval) (B T D : nat) :
  lf0_attrs (resf0_attrs p) i o vmin vmax vmean vscale ->
  shape x = [B; T; D] ->
  (py_index D i = Raise IndexError ->
   (forall r, resf0_forward p x lengths <> Ok r) /\
   (forall mix mu, resf0_raw p x lengths = Ok (mix, mu) ->
                   resf0_forward p x lengths = Raise IndexError)) /\
  (forall kin mix mu s C,
     py_index D i = Ok kin ->
     resf0_raw p x lengths = Ok (mix, mu) ->
     shape mu = s ++ [C] -> (length s = 2 \/ length s = 3)%nat ->
     py_index C o = Raise IndexError ->
     resf0_forward p x lengths = Raise IndexError).
Proof.
  intros (H1 & H2 & H3 & H4 & H5 & H6) Hx.
  assert (Hget : forall use_mdn mu,
    lf0_injection (resf0_attrs p) use_mdn x mu =
    (let* '(lf0_pred, lf0_residual) :=
       predict_lf0_with_residual x mu i (float_of vmin) (float_of vmax)
         o (float_of vmean) (float_of vscale) 600 in
     let* mu' :=
       (if use_mdn
        then setitem_select 3 o mu (squeeze_last lf0_pred)
        else setitem_select 2 o mu (squeeze_last lf0_pred)) in
     Ok (mu', lf0_residual))).
  { intros use_mdn mu. unfold lf0_injection.
    now rewrite (getattr_some _ _ _ H1), (getattr_some _ _ _ H2),
      (getattr_some _ _ _ H3), (getattr_some _ _ _ H4),
      (getattr_some _ _ _ H5), (getattr_some _ _ _ H6). }
  split.
  - intros Hi.
    assert (Hbad : forall mix mu, resf0_raw p x lengths = Ok (mix, mu) ->
                     resf0_forward p x lengths = Raise IndexError).
    { intros mix mu Hraw. rewrite resf0_forward_unfold, Hraw. cbn [bind].
      rewrite Hget. unfold predict_lf0_with_residual, select.
      rewrite Hx. cbn [nth_error]. now rewrite Hi. }
    split; [|exact Hbad].
    intros r Hr.
    destruct (resf0_raw p x lengths) as [[mix mu]|e] eqn:Hraw.
    + rewrite (Hbad mix mu eq_refl) in Hr. discriminate.
    + rewrite resf0_forward_unfold, Hraw in Hr. discriminate.
  - intros kin mix mu s C Hi Hraw Hmu Hlen Ho.
    rewrite resf0_forward_unfold, Hraw. cbn [bind]. rewrite Hget.
    unfold predict_lf0_with_residual, select.
    rewrite Hx. cbn [nth_error]. rewrite Hi. cbn [bind]. rewrite Hmu.
    destruct s as [|b' [|t' [|g' [|? ?]]]]; cbn in Hlen; try lia;
      cbn [app length Nat.eqb nth_error]; now rewrite Ho.
Qed.

Lemma resf0_forward_rejects_bad_index_witness :
  (forall r, resf0_forward (RVar example_variance_predictor)
               (const_tensor [1; 1; 0]%nat 0) None <> Ok r) /\
  (forall mix mu,
     resf0_raw (RVar example_variance_predictor)
       (const_tensor [1; 1; 0]%nat 0) None = Ok (mix, mu) ->
     resf0_forward (RVar example_variance_predictor)
       (const_tensor [1; 1; 0]%nat 0) None = Raise IndexError).
Proof.
  apply (proj1 (resf0_forward_rejects_bad_index
                  (RVar example_variance_predictor)
                  (const_tensor [1; 1; 0]%nat 0) None 0 0
                  (PyInt 5) (PyInt 6) (PyInt 0) (PyInt 1) 1 1 0
                  example_attrs_ok eq_refl)).
  reflexivity.
Defined.

(** X6. A mixture predictor with a single Gaussian cannot run its forward
    step on more than one frame: [squeeze(-1)] removes the component axis
    of the predicted lf0, and the assignment into [mu] raises
    RuntimeError. *)
Theorem resf0_forward_single_gaussian
    (p : ResF0Predictor) (x : Tensor) (lengths : Lengths)
    (mix : option (Tensor * Tensor)) (mu : Tensor) (i o : Z)
    (vmin vmax vmean vscale : pyval) (B T D C kin kout : nat) :
  resf0_use_mdn p = true ->
  resf0_raw p x lengths = Ok (mix, mu) ->
  lf0_attrs (resf0_attrs p) i o vmin vmax vmean vscale ->
  shape x = [B; T; D] ->
  shape mu = [B; T; 1%nat; C] ->
  T <> 1%nat ->
  py_index D i = Ok kin ->
  py_index C o = Ok kout ->
  resf0_forward p x lengths = Raise RuntimeError.
Proof.
  intros Hmdn Hraw Hattrs Hx Hmu HT Hkin Hkout.
  rewrite resf0_forward_unfold, Hraw, Hmdn. cbn [bind].
  now rewrite (lf0_injection_single_gaussian _ x mu i o vmin vmax vmean vscale
                 B T D C kin kout Hattrs Hx Hmu HT Hkin Hkout).
Qed.

Lemma resf0_forward_single_gaussian_witness :
  resf0_forward (RConv example_single_gaussian) two_frames None
  = Raise RuntimeError.
Proof.
  apply (resf0_forward_single_gaussian (RConv example_single_gaussian)
           two_frames None
           (Some (const_tensor [1; 2; 1]%nat 0, const_tensor [1; 2; 1; 1]%nat 0))
           (const_tensor [1; 2; 1; 1]%nat 0)
           0 0 (PyInt 5) (PyInt 6) (PyInt 0) (PyInt 1) 1 2 1 1 0 0
           eq_refl eq_refl example_attrs_ok eq_refl eq_refl
           ltac:(discriminate) eq_refl eq_refl).
Defined.

End ForwardEdges.

(** ** The composer: repeated calls, untouched state, rejected layouts *)

Section ComposerEdges.
Import MultistreamParametricModel.

Lemma propagate_idem self a : propagate self (propagate self a) = propagate self a.
Proof.
  apply map_eq. intros k. unfold propagate.
  rewrite !lookup_insert. repeat case_decide; reflexivity.
Qed.

Lemma propagate_has_mean self a :
  hasattr (propagate self a) "out_lf0_mean" = true.
Proof.
  apply hasattr_true. destruct (propagate_lookup self a) as (_ & _ & _ & H & _).
  rewrite H. eauto.
Qed.

(** X7. The parameter propagation is idempotent: a second
    [_set_lf0_params] leaves the composer and the attributes of its pitch
    model exactly as the first one left them. *)
Theorem set_lf0_params_idempotent (self : t) :
  _set_lf0_params (_set_lf0_params self) = _set_lf0_params self /\
  attrs (pitch_model (_set_lf0_params (_set_lf0_params self)))
  = attrs (pitch_model (_set_lf0_params self)).
Proof.
  assert (H : _set_lf0_params (_set_lf0_params self) = _set_lf0_params self).
  { unfold _set_lf0_params at 2 3.
    destruct (hasattr (attrs (pitch_model self)) "out_lf0_mean") eqn:E.
    - unfold _set_lf0_params.
      cbn [pitch_model set_pitch_model set_attrs attrs].
      rewrite propagate_has_mean. unfold set_pitch_model, set_attrs.
      cbn [pitch_model attrs call energy_model energy_stream_sizes
           pitch_stream_sizes timbre_model timbre_stream_sizes
           in_lf0_idx in_lf0_min in_lf0_max out_lf0_idx out_lf0_mean
           out_lf0_scale].
      f_equal. f_equal.
      exact (propagate_idem self (attrs (pitch_model self))).
    - unfold _set_lf0_params. now rewrite E. }
  split; [exact H|]. now rewrite H.
Qed.

Lemma not_propagated name :
  name ∉ propagated_names ->
  name <> "in_lf0_idx" /\ name <> "in_lf0_min" /\ name <> "in_lf0_max" /\
  name <> "out_lf0_mean" /\ name <> "out_lf0_scale".
Proof.
  unfold propagated_names. intros H.
  repeat split; intros ->; apply H; set_solver.
Qed.

(** X8. [_set_lf0_params] changes nothing but the five attributes: every
    other attribute of the pitch model keeps its value, no attribute
    disappears, the pitch model's [forward] is the same function, and the
    other sub-models, the stream sizes and the composer's own parameters are
    as before. *)
Theorem set_lf0_params_frame (self : t) :
  let self' := _set_lf0_params self in
  (forall name, name ∉ propagated_names ->
     attrs (pitch_model self') !! name = attrs (pitch_model self) !! name) /\
  (forall name, hasattr (attrs (pitch_model self)) name = true ->
                hasattr (attrs (pitch_model self')) name = true) /\
  call (pitch_model self') = call (pitch_model self) /\
  energy_model self' = energy_model self /\
  timbre_model self' = timbre_model self /\
  energy_stream_sizes self' = energy_stream_sizes self /\
  pitch_stream_sizes self' = pitch_stream_sizes self /\
  timbre_stream_sizes self' = timbre_stream_sizes self /\
  (in_lf0_idx self', in_lf0_min self', in_lf0_max self',
   out_lf0_idx self', out_lf0_mean self', out_lf0_scale self')
  = (in_lf0_idx self, in_lf0_min self, in_lf0_max self,
     out_lf0_idx self, out_lf0_mean self, out_lf0_scale self).
Proof.
  cbv zeta. unfold _set_lf0_params.
  destruct (hasattr (attrs (pitch_model self)) "out_lf0_mean") eqn:E.
  - cbn [pitch_model set_pitch_model set_attrs attrs call energy_model
         energy_stream_sizes pitch_stream_sizes timbre_model
         timbre_stream_sizes in_lf0_idx in_lf0_min in_lf0_max out_lf0_idx
         out_lf0_mean out_lf0_scale].
    split; [|split; [|repeat split]].
    + intros name Hn. apply not_propagated in Hn as (N1 & N2 & N3 & N4 & N5).
      unfold propagate. now rewrite !lookup_insert_ne by congruence.
    + intros name Hn. apply hasattr_true in Hn. apply hasattr_true.
      unfold propagate. rewrite !lookup_insert.
      repeat case_decide; eauto.
  - repeat split; auto.
Qed.

Lemma set_lf0_params_frame_witness :
  attrs (pitch_model (_set_lf0_params example_composer)) !! "out_lf0_idx"
  = attrs (pitch_model example_composer) !! "out_lf0_idx".
Proof.
  apply (proj1 (set_lf0_params_frame example_composer) "out_lf0_idx").
  apply (bool_decide_unpack ("out_lf0_idx" ∉ propagated_names)). exact I.
Defined.

(** X9. The construction succeeds exactly when no sub-model declares an
    [out_dim] different from the sum of its stream sizes; a sub-model
    without the attribute [out_dim] is never checked, whatever its stream
    sizes are. *)
Theorem init_succeeds_iff
    (energy_model : PyModule Tensor) (energy_stream_sizes : list nat)
    (pitch_model : PyModule (Tensor * Tensor)) (pitch_stream_sizes : list nat)
    (timbre_model : PyModule Tensor) (timbre_stream_sizes : list nat)
    (i vmin vmax o vmean vscale : pyval) :
  (is_ok (__init__ energy_model energy_stream_sizes pitch_model
                   pitch_stream_sizes timbre_model timbre_stream_sizes
                   i vmin vmax o vmean vscale)
   <-> ~ declares_mismatch energy_model energy_stream_sizes /\
       ~ declares_mismatch pitch_model pitch_stream_sizes /\
       ~ declares_mismatch timbre_model timbre_stream_sizes) /\
  (hasattr (attrs energy_model) "out_dim" = false ->
   hasattr (attrs pitch_model) "out_dim" = false ->
   hasattr (attrs timbre_model) "out_dim" = false ->
   is_ok (__init__ energy_model energy_stream_sizes pitch_model
                   pitch_stream_sizes timbre_model timbre_stream_sizes
                   i vmin vmax o vmean vscale)).
Proof.
  assert (Hno : forall O (m : PyModule O) sizes,
             hasattr (attrs m) "out_dim" = false -> ~ declares_mismatch m sizes).
  { intros O m sizes Hh (v & Hv & _).
    assert (hasattr (attrs m) "out_dim" = true)
      by (apply hasattr_true; rewrite Hv; eauto).
    congruence. }
  assert (Hbad : forall self,
             __init__ energy_model energy_stream_sizes pitch_model
               pitch_stream_sizes timbre_model timbre_stream_sizes
               i vmin vmax o vmean vscale = Ok self ->
             forall O (m : PyModule O) sizes,
               check_out_dim m sizes = Raise AssertionError ->
               check_out_dim m sizes = Ok tt -> False)
    by (intros; congruence).
  split; [split|].
  - intros [self Hok]. unfold __init__ in Hok.
    destruct (check_out_dim energy_model energy_stream_sizes) as [[]|e] eqn:He;
      [|discriminate].
    destruct (check_out_dim pitch_model pitch_stream_sizes) as [[]|e] eqn:Hp;
      [|discriminate].
    destruct (check_out_dim timbre_model timbre_stream_sizes) as [[]|e] eqn:Ht;
      [|discriminate].
    repeat split; intros Hm; apply check_out_dim_mismatch in Hm; congruence.
  - intros (He & Hp & Ht). now apply init_accepts.
  - intros He Hp Ht. apply init_accepts; now apply Hno.
Qed.

(** X10. The timbre model must have exactly two streams: with any other
    number of timbre stream sizes, [forward] raises ValueError when it
    unpacks them into mgc and bap. *)
Theorem forward_timbre_arity
    (self : t) (x : Tensor) (lengths : Lengths)
    (eo po resid to : Tensor) (e0 : nat) (es : list nat) (B T : nat) :
  energy_stream_sizes self = e0 :: es ->
  invoke (energy_model self) x lengths = Ok eo ->
  shape eo = [B; T; list_sum (e0 :: es)] ->
  invoke (pitch_model (_set_lf0_params self)) x lengths = Ok (po, resid) ->
  shape po = [B; T; list_sum (pitch_stream_sizes self)] ->
  (2 <= length (pitch_stream_sizes self) <= 4) ->
  invoke (timbre_model self) x lengths = Ok to ->
  shape to = [B; T; list_sum (timbre_stream_sizes self)] ->
  length (timbre_stream_sizes self) <> 2 ->
  snd (forward self x lengths) = Raise ValueError.
Proof.
  intros Hes He Hseo Hp Hspo Hlen Ht Hsto Hts.
  destruct (set_lf0_params_fields self) as (F1 & F2 & F3 & F4 & F5).
  unfold forward, compose. cbn [snd]. rewrite F1, F2, F3, F4, F5.
  rewrite He. cbn [bind].
  rewrite Hes, (split_streams_3axis eo _ B T _ Hseo eq_refl).
  cbn [bind split_from getitem nth_error]. rewrite Hp. cbn [bind].
  rewrite (split_streams_3axis po _ B T _ Hspo eq_refl). cbn [bind].
  assert (Hpitch : exists pitch,
    (if length (pitch_stream_sizes self) =? 2
     then let* '(lf0, vuv) := unpack2 (split_from po 0 (pitch_stream_sizes self)) in
          Ok (Pitch2 lf0 vuv)
     else if length (pitch_stream_sizes self) =? 3
     then let* '(lf0, vuv, vib) :=
            unpack3 (split_from po 0 (pitch_stream_sizes self)) in
          Ok (Pitch3 lf0 vuv vib)
     else let* '(lf0, vuv, vib, vib_flags) :=
            unpack4 (split_from po 0 (pitch_stream_sizes self)) in
          Ok (Pitch4 lf0 vuv vib vib_flags)) = Ok pitch).
  { destruct (pitch_stream_sizes self) as [|p0 [|p1 [|p2 [|p3 [|p4 r]]]]];
      cbn [length] in Hlen; try lia; cbn; eauto. }
  destruct Hpitch as [pitch ->]. cbn [bind]. rewrite Ht. cbn [bind].
  rewrite (split_streams_3axis to _ B T _ Hsto eq_refl). cbn [bind].
  assert (Hun : unpack2 (split_from to 0 (timbre_stream_sizes self))
                = Raise ValueError).
  { destruct (timbre_stream_sizes self) as [|m [|a [|c r]]];
      cbn [length] in Hts; try lia; reflexivity. }
  now rewrite Hun.
Qed.

(** X11. The composer's own [out_lf0_idx] is stored and never read: with
    any other value [forward] returns the same result and leaves the same
    pitch model. *)
Theorem composer_out_lf0_idx_unused
    (self : t) (v : pyval) (x : Tensor) (lengths : Lengths) :
  snd (forward (with_out_lf0_idx self v) x lengths) = snd (forward self x lengths) /\
  pitch_model (fst (forward (with_out_lf0_idx self v) x lengths))
  = pitch_model (fst (forward self x lengths)) /\
  snd (inference (with_out_lf0_idx self v) x lengths)
  = snd (inference self x lengths).
Proof.
  unfold inference, forward, _set_lf0_params, with_out_lf0_idx.
  cbn [pitch_model attrs].
  destruct (hasattr (attrs (pitch_model self)) "out_lf0_mean");
    repeat split; reflexivity.
Qed.

Lemma forward_timbre_arity_witness :
  snd (forward example_composer_three_timbre half_frame None)
  = Raise ValueError.
Proof.
  destruct example_pitch_output as (po & resid & Hp & Hs & _).
  apply (forward_timbre_arity example_composer_three_timbre half_frame None
           (const_tensor [1; 1; 1]%nat 1%R) po resid
           (const_tensor [1; 1; 194]%nat 2%R) 1 [] 1 1
           eq_refl eq_refl eq_refl Hp Hs ltac:(simpl; lia) eq_refl eq_refl
           ltac:(discriminate)).
Defined.

End ComposerEdges.

(** ** Shallow-AR synthesis as a filter *)

Section SynthesisLaws.
Local Open Scope R_scope.

(** The recursion, with any numerator. *)
Lemma iir_recursion a b x t :
  iir a b x t
  = (dot b (past x t) - dot (tl a) (map (iir a b x) (rev (seq 0 t)))) / hd 0 a.
Proof.
  unfold iir at 1. cbn [iir_hist hd]. now rewrite iir_hist_outputs.
Qed.

Lemma past_ext x x' t :
  (forall m, (m <= t)%nat -> x m = x' m) -> past x t = past x' t.
Proof.
  induction t as [|t IH]; intros H.
  - cbn. now rewrite (H 0%nat) by lia.
  - cbn [past]. rewrite (H (S t)) by lia. f_equal.
    apply IH. intros m Hm. apply H. lia.
Qed.

(** The output at time [t] reads the input up to time [t] only. *)
Lemma iir_ext a b x x' : forall t,
  (forall m, (m <= t)%nat -> x m = x' m) -> iir a b x t = iir a b x' t.
Proof.
  intros t. induction t as [t IH] using lt_wf_ind. intros H.
  rewrite !iir_recursion, (past_ext x x' t H). do 3 f_equal.
  apply map_ext_in. intros m Hm. apply in_rev, in_seq in Hm.
  apply IH; [lia|]. intros k Hk. apply H. lia.
Qed.

Lemma dot_linear {A} u (f g : A -> R) al be (l : list A) :
  dot u (map (fun m => al * f m + be * g m) l)
  = al * dot u (map f l) + be * dot u (map g l).
Proof.
  revert l. induction u as [|a u IH]; intros [|m l]; cbn; try ring.
  rewrite IH. ring.
Qed.

Lemma past_map x t : past x t = map x (rev (seq 0 (S t))).
Proof. now rewrite past_cons, rev_seq_S. Qed.

(** Superposition. *)
Lemma iir_linear a b x y al be : forall t,
  iir a b (fun m => al * x m + be * y m) t
  = al * iir a b x t + be * iir a b y t.
Proof.
  intros t. induction t as [t IH] using lt_wf_ind.
  rewrite !iir_recursion, !past_map.
  rewrite (dot_linear b x y al be).
  rewrite (map_ext_in (iir a b (fun m => al * x m + be * y m))
             (fun m => al * iir a b x m + be * iir a b y m) (rev (seq 0 t)));
    [|intros m Hm; apply in_rev, in_seq in Hm; apply IH; lia].
  rewrite (dot_linear (tl a) (iir a b x) (iir a b y) al be).
  unfold Rdiv. ring.
Qed.

Lemma dot_zero_l u v : Forall (eq 0) u -> dot u v = 0.
Proof.
  intros H. revert v. induction H as [|a u <- _ IH]; intros [|b v]; cbn;
    try reflexivity.
  rewrite IH. ring.
Qed.

(** Without feedback the recursion returns its input. *)
Lemma iir_no_feedback h K x t :
  Forall (eq 0) h -> iir (1 :: h) (1 :: repeat 0 K) x t = x t.
Proof.
  intros H. rewrite iir_unit_recursion, (dot_zero_l h _ H). field.
Qed.

Lemma iir_first_sample h K x : iir (1 :: h) (1 :: repeat 0 K) x 0 = x 0%nat.
Proof. rewrite iir_unit_recursion. cbn [seq rev map]. rewrite dot_nil_r. field. Qed.

(** X12. When the learned feedback coefficients are all zero, the
    synthesis returns the network output unchanged. *)
Theorem shallow_ar_zero_feedback
    (out : Tensor) (stream_sizes : list nat)
    (analysis_filts : list TrTimeInvFIRFilter) (B T C : nat) :
  shape out = [B; T; C] ->
  list_sum stream_sizes = C ->
  stream_sizes <> [] ->
  filters_fit stream_sizes analysis_filts ->
  zero_feedback analysis_filts ->
  exists r,
    _shallow_ar_inference out stream_sizes analysis_filts = Ok r /\
    shape r = shape out /\
    forall b t c, (c < C)%nat -> item r [b; t; c] = item out [b; t; c].
Proof.
  intros Hout Hsum Hne Hfit Hz.
  destruct (shallow_ar_inference_cols out stream_sizes analysis_filts B T C
              Hout Hsum Hne Hfit) as (r & Hr & Hs & Hcols).
  exists r. split; [exact Hr|]. split; [now rewrite Hs, Hout|].
  intros b t c Hc. rewrite <- Hsum in Hc.
  destruct (column_in_stream _ c Hc) as (s & n & d & Hn & Hd & ->).
  destruct (Hfit s n Hn) as (f & K & Hf & Hw).
  destruct (get_filt_coefs_spec f n K Hw) as (a & Ha & Hsa & Hit).
  rewrite (Hcols s n f a b t d Hn Hf Ha Hd).
  rewrite (taps_row a d n (S K) Hsa), seq_S, map_app, rev_app_distr.
  cbn [map rev app plus]. rewrite Hit, Nat.eqb_refl.
  apply iir_no_feedback.
  apply List.Forall_forall. intros v Hv. apply in_rev, in_map_iff in Hv.
  destruct Hv as (j & <- & Hj). apply in_seq in Hj.
  rewrite Hit. destruct (Nat.eqb_spec j K); [lia|].
  symmetry. apply (Hz s f n K d j Hf Hw). lia.
Qed.

Lemma zero_filter_fits : filters_fit [1%nat] [zero_filter].
Proof.
  intros [|s] n Hn; [|destruct s; discriminate].
  injection Hn as <-. eexists _, 1%nat. split; reflexivity.
Qed.

Lemma zero_filter_zero : zero_feedback [zero_filter].
Proof.
  intros [|s] f n K c j Hf Hw Hj; [|destruct s; discriminate].
  injection Hf as <-. reflexivity.
Qed.

Lemma shallow_ar_zero_feedback_witness :
  exists r,
    _shallow_ar_inference two_frames [1%nat] [zero_filter] = Ok r /\
    shape r = shape two_frames /\
    forall b t c, (c < 1)%nat -> item r [b; t; c] = item two_frames [b; t; c].
Proof.
  apply (shallow_ar_zero_feedback two_frames [1%nat] [zero_filter] 1 2 1
           eq_refl eq_refl ltac:(discriminate) zero_filter_fits
           zero_filter_zero).
Defined.

(** X13. The synthesis is causal and works on each scalar trajectory by
    itself: the output at frame [t] of column [c] of batch element [b] is
    determined by the input at the frames up to [t] of the same column of the
    same batch element; the first frame is the input's first frame. *)
Theorem shallow_ar_causal
    (out out' : Tensor) (stream_sizes : list nat)
    (analysis_filts : list TrTimeInvFIRFilter) (B T C : nat) :
  shape out = [B; T; C] ->
  shape out' = [B; T; C] ->
  list_sum stream_sizes = C ->
  stream_sizes <> [] ->
  filters_fit stream_sizes analysis_filts ->
  exists r r',
    _shallow_ar_inference out stream_sizes analysis_filts = Ok r /\
    _shallow_ar_inference out' stream_sizes analysis_filts = Ok r' /\
    forall b c, (c < C)%nat ->
      item r [b; 0%nat; c] = item out [b; 0%nat; c] /\
      forall t,
        (forall m, (m <= t)%nat -> item out [b; m; c] = item out' [b; m; c]) ->
        item r [b; t; c] = item r' [b; t; c].
Proof.
  intros Hout Hout' Hsum Hne Hfit.
  destruct (shallow_ar_inference_cols out stream_sizes analysis_filts B T C
              Hout Hsum Hne Hfit) as (r & Hr & _ & Hcols).
  destruct (shallow_ar_inference_cols out' stream_sizes analysis_filts B T C
              Hout' Hsum Hne Hfit) as (r' & Hr' & _ & Hcols').
  exists r, r'. split; [exact Hr|]. split; [exact Hr'|].
  intros b c Hc. rewrite <- Hsum in Hc.
  destruct (column_in_stream _ c Hc) as (s & n & d & Hn & Hd & ->).
  destruct (Hfit s n Hn) as (f & K & Hf & Hw).
  destruct (get_filt_coefs_spec f n K Hw) as (a & Ha & Hsa & _).
  split.
  - rewrite (Hcols s n f a b 0%nat d Hn Hf Ha Hd).
    destruct (taps_last_one f a n K d Hw Ha) as (h' & -> & _).
    apply iir_first_sample.
  - intros t Hagree.
    rewrite (Hcols s n f a b t d Hn Hf Ha Hd),
      (Hcols' s n f a b t d Hn Hf Ha Hd).
    now apply iir_ext.
Qed.

Lemma shallow_ar_causal_witness :
  exists r r',
    _shallow_ar_inference two_frames [1%nat] (cs_analysis_filts example_sar)
    = Ok r /\
    _shallow_ar_inference two_frames [1%nat] (cs_analysis_filts example_sar)
    = Ok r' /\
    forall b c, (c < 1)%nat ->
      item r [b; 0%nat; c] = item two_frames [b; 0%nat; c] /\
      forall t,
        (forall m, (m <= t)%nat ->
                   item two_frames [b; m; c] = item two_frames [b; m; c]) ->
        item r [b; t; c] = item r' [b; t; c].
Proof.
  apply (shallow_ar_causal two_frames two_frames [1%nat]
           (cs_analysis_filts example_sar) 1 2 1 eq_refl eq_refl eq_refl
           ltac:(discriminate) example_filters_fit).
Defined.

(** X14. The synthesis is linear: the filtered trajectory of a weighted
    sum of two network outputs is the same weighted sum of their filtered
    trajectories. *)
Theorem shallow_ar_linear
    (out1 out2 out3 : Tensor) (al be : R) (stream_sizes : list nat)
    (analysis_filts : list TrTimeInvFIRFilter) (B T C : nat) :
  shape out1 = [B; T; C] -> shape out2 = [B; T; C] -> shape out3 = [B; T; C] ->
  (forall idx, item out3 idx = al * item out1 idx + be * item out2 idx) ->
  list_sum stream_sizes = C ->
  stream_sizes <> [] ->
  filters_fit stream_sizes analysis_filts ->
  exists r1 r2 r3,
    _shallow_ar_inference out1 stream_sizes analysis_filts = Ok r1 /\
    _shallow_ar_inference out2 stream_sizes analysis_filts = Ok r2 /\
    _shallow_ar_inference out3 stream_sizes analysis_filts = Ok r3 /\
    forall b t c, (c < C)%nat ->
      item r3 [b; t; c] = al * item r1 [b; t; c] + be * item r2 [b; t; c].
Proof.
  intros H1 H2 H3 Hsumo Hsum Hne Hfit.
  destruct (shallow_ar_inference_cols out1 stream_sizes analysis_filts B T C
              H1 Hsum Hne Hfit) as (r1 & Hr1 & _ & Hc1).
  destruct (shallow_ar_inference_cols out2 stream_sizes analysis_filts B T C
              H2 Hsum Hne Hfit) as (r2 & Hr2 & _ & Hc2).
  destruct (shallow_ar_inference_cols out3 stream_sizes analysis_filts B T C
              H3 Hsum Hne Hfit) as (r3 & Hr3 & _ & Hc3).
  exists r1, r2, r3. repeat (split; [assumption|]).
  intros b t c Hc. rewrite <- Hsum in Hc.
  destruct (column_in_stream _ c Hc) as (s & n & d & Hn & Hd & ->).
  destruct (Hfit s n Hn) as (f & K & Hf & Hw).
  destruct (get_filt_coefs_spec f n K Hw) as (a & Ha & Hsa & _).
  rewrite (Hc1 s n f a b t d Hn Hf Ha Hd), (Hc2 s n f a b t d Hn Hf Ha Hd),
    (Hc3 s n f a b t d Hn Hf Ha Hd).
  rewrite <- iir_linear. apply iir_ext. intros m _. apply Hsumo.
Qed.

Lemma shallow_ar_linear_witness :
  exists r1 r2 r3,
    _shallow_ar_inference two_frames [1%nat] (cs_analysis_filts example_sar)
    = Ok r1 /\
    _shallow_ar_inference two_frames [1%nat] (cs_analysis_filts example_sar)
    = Ok r2 /\
    _shallow_ar_inference (const_tensor [1; 2; 1]%nat (2 * 1 + 3 * 1)) [1%nat]
                          (cs_analysis_filts example_sar)
    = Ok r3 /\
    forall b t c, (c < 1)%nat ->
      item r3 [b; t; c] = 2 * item r1 [b; t; c] + 3 * item r2 [b; t; c].
Proof.
  apply (shallow_ar_linear two_frames two_frames
           (const_tensor [1; 2; 1]%nat (2 * 1 + 3 * 1)) 2 3 [1%nat]
           (cs_analysis_filts example_sar) 1 2 1 eq_refl eq_refl eq_refl
           (fun _ => eq_refl) eq_refl ltac:(discriminate) example_filters_fit).
Defined.

End SynthesisLaws.

(** ** Shallow-AR synthesis without enough filters *)

Section MissingFilter.

Lemma mapM_enum_first_error {A B} (f : nat -> A -> res B) e : forall k l s a,
  (forall i x, i < k -> nth_error l i = Some x -> exists b, f (s + i) x = Ok b) ->
  nth_error l k = Some a ->
  f (s + k) a = Raise e ->
  mapM_enum f s l = Raise e.
Proof.
  induction k as [|k IH]; intros [|x l] s a Hbefore Hk He; try discriminate.
  - injection Hk as ->. rewrite Nat.add_0_r in He.
    cbn [mapM_enum]. now rewrite He.
  - cbn [mapM_enum].
    destruct (Hbefore 0 x) as [b Hb]; [lia|reflexivity|].
    rewrite Nat.add_0_r in Hb. rewrite Hb. cbn [bind].
    rewrite (IH l (S s) a); [reflexivity| |exact Hk|].
    + intros i y Hi Hy. destruct (Hbefore (S i) y) as [b' Hb']; [lia|exact Hy|].
      exists b'. now rewrite Nat.add_succ_comm.
    + now rewrite Nat.add_succ_comm.
Qed.

(** X15. With fewer filters than streams the synthesis raises IndexError
    at the first stream that has none. *)
Theorem shallow_ar_missing_filter
    (out : Tensor) (stream_sizes : list nat)
    (analysis_filts : list TrTimeInvFIRFilter) (B T C : nat) :
  shape out = [B; T; C] ->
  list_sum stream_sizes = C ->
  length analysis_filts < length stream_sizes ->
  (forall s n, s < length analysis_filts -> nth_error stream_sizes s = Some n ->
     exists f K, nth_error analysis_filts s = Some f /\
                 shape (weight f) = [n; 1; S K]) ->
  _shallow_ar_inference out stream_sizes analysis_filts = Raise IndexError.
Proof.
  intros Hout Hsum Hlen Hfit. unfold _shallow_ar_inference.
  rewrite (split_streams_3axis out stream_sizes B T C Hout Hsum). cbn [bind].
  destruct (nth_error stream_sizes (length analysis_filts)) as [n|] eqn:Hn;
    [|apply nth_error_None in Hn; lia].
  rewrite (mapM_enum_first_error (sar_stream analysis_filts) IndexError
             (length analysis_filts) (split_from out 0 stream_sizes) 0
             (narrow_last (0 + stream_offset stream_sizes (length analysis_filts))
                          n out)).
  - reflexivity.
  - intros i x Hi Hx. cbn [plus].
    destruct (split_from_nth_inv _ _ _ _ _ Hx) as (m & Hm & ->).
    destruct (Hfit i m Hi Hm) as (f & K & Hf & Hw).
    destruct (sar_stream_spec analysis_filts i
                (narrow_last (0 + stream_offset stream_sizes i) m out)
                f B T m K (narrow_last_shape3 _ _ _ B T C Hout) Hf Hw)
      as (r & a & _ & Hr & _).
    eauto.
  - now apply split_from_nth.
  - cbn [plus]. unfold sar_stream, transpose12.
    rewrite (narrow_last_shape3 out _ n B T C Hout).
    cbn [length Nat.leb bind]. unfold getitem.
    replace (nth_error analysis_filts (length analysis_filts)) with
      (@None TrTimeInvFIRFilter)
      by (symmetry; apply nth_error_None; lia).
    reflexivity.
Qed.

Lemma shallow_ar_missing_filter_witness :
  _shallow_ar_inference two_frames [1] [] = Raise IndexError.
Proof.
  apply (shallow_ar_missing_filter two_frames [1] [] 1 2 1 eq_refl eq_refl).
  - simpl. lia.
  - intros s n Hs. simpl in Hs. lia.
Defined.

End MissingFilter.

(** ** The correction is monotone *)

Section Monotone.
Local Open Scope R_scope.

Lemma tanh_increasing x y : x < y -> tanh x < tanh y.
Proof.
  intros Hxy. rewrite !tanh_alt.
  pose proof (exp_pos x) as Ha. pose proof (exp_pos (- x)) as Hb.
  pose proof (exp_pos y) as Hc. pose proof (exp_pos (- y)) as Hd.
  pose proof (exp_increasing x y Hxy) as Hac.
  assert (Hdb : exp (- y) < exp (- x)) by (apply exp_increasing; lra).
  set (a := exp x) in *. set (b := exp (- x)) in *.
  set (c := exp y) in *. set (d := exp (- y)) in *.
  apply Rmult_lt_reg_r with ((a + b) * (c + d)); [nra|].
  replace ((a - b) / (a + b) * ((a + b) * (c + d))) with ((a - b) * (c + d))
    by (field; lra).
  replace ((c - d) / (c + d) * ((a + b) * (c + d))) with ((c - d) * (a + b))
    by (field; lra).
  nra.
Qed.

Lemma tanh_monotone x y : x <= y -> tanh x <= tanh y.
Proof.
  intros [Hlt| ->]; [left; now apply tanh_increasing | right; reflexivity].
Qed.

(** X16. For a positive [residual_f0_max_cent] and a positive
    [out_lf0_scale], the residual and the corrected lf0 never decrease when
    the raw output grows: a raw output at a frame that is at least as large
    gives a residual and a corrected lf0 at that frame that are at least as
    large, the score being the same. *)
Theorem predict_lf0_monotone
    (in_feats out1 out2 : Tensor) (in_lf0_idx out_lf0_idx : Z)
    (in_lf0_min in_lf0_max out_lf0_mean out_lf0_scale cent : R)
    (B T D C kin kout : nat) :
  shape in_feats = [B; T; D] ->
  shape out1 = [B; T; C] -> shape out2 = [B; T; C] ->
  py_index D in_lf0_idx = Ok kin ->
  py_index C out_lf0_idx = Ok kout ->
  0 < cent -> 0 < out_lf0_scale ->
  exists pred1 resid1 pred2 resid2,
    predict_lf0_with_residual in_feats out1 in_lf0_idx in_lf0_min
      in_lf0_max out_lf0_idx out_lf0_mean out_lf0_scale cent
    = Ok (pred1, resid1) /\
    predict_lf0_with_residual in_feats out2 in_lf0_idx in_lf0_min
      in_lf0_max out_lf0_idx out_lf0_mean out_lf0_scale cent
    = Ok (pred2, resid2) /\
    forall b t, (b < B)%nat -> (t < T)%nat ->
      item out1 [b; t; kout] <= item out2 [b; t; kout] ->
      item resid1 [b; t; 0%nat] <= item resid2 [b; t; 0%nat] /\
      item pred1 [b; t; 0%nat] <= item pred2 [b; t; 0%nat].
Proof.
  intros Hin H1 H2 Hi Ho Hc Hs.
  destruct (predict_lf0_3axis in_feats out1 in_lf0_idx out_lf0_idx
              in_lf0_min in_lf0_max out_lf0_mean out_lf0_scale cent
              B T D C kin kout Hin H1 Hi Ho)
    as (p1 & r1 & E1 & _ & _ & V1).
  destruct (predict_lf0_3axis in_feats out2 in_lf0_idx out_lf0_idx
              in_lf0_min in_lf0_max out_lf0_mean out_lf0_scale cent
              B T D C kin kout Hin H2 Hi Ho)
    as (p2 & r2 & E2 & _ & _ & V2).
  exists p1, r1, p2, r2. split; [exact E1|]. split; [exact E2|].
  intros b t Hb Ht Hle.
  destruct (V1 b t Hb Ht) as [-> ->]. destruct (V2 b t Hb Ht) as [-> ->].
  pose proof (tanh_monotone _ _ Hle) as Hth.
  assert (HL : 0 < cent * ln 2 / 1200) by (pose proof ln2_pos; nra).
  assert (Hr : cent * ln 2 / 1200 * tanh (item out1 [b; t; kout])
               <= cent * ln 2 / 1200 * tanh (item out2 [b; t; kout]))
    by (apply Rmult_le_compat_l; [lra|assumption]).
  split; [exact Hr|].
  unfold Rdiv at 1 3. apply Rmult_le_compat_r;
    [left; now apply Rinv_0_lt_compat|].
  lra.
Qed.

Lemma predict_lf0_monotone_witness :
  exists pred1 resid1 pred2 resid2,
    predict_lf0_with_residual half_frame zero_frame 0 5 6 0 0 1 600
    = Ok (pred1, resid1) /\
    predict_lf0_with_residual half_frame (const_tensor [1; 1; 1]%nat 1)
      0 5 6 0 0 1 600
    = Ok (pred2, resid2) /\
    forall b t, (b < 1)%nat -> (t < 1)%nat ->
      item zero_frame [b; t; 0%nat]
      <= item (const_tensor [1; 1; 1]%nat 1) [b; t; 0%nat] ->
      item resid1 [b; t; 0%nat] <= item resid2 [b; t; 0%nat] /\
      item pred1 [b; t; 0%nat] <= item pred2 [b; t; 0%nat].
Proof.
  apply (predict_lf0_monotone half_frame zero_frame
           (const_tensor [1; 1; 1]%nat 1) 0 0 5 6 0 1 600 1 1 1 1 0 0
           eq_refl eq_refl eq_refl eq_refl eq_refl ltac:(lra) ltac:(lra)).
Defined.

End Monotone.

(** ** Prediction types and bounded outputs *)

Section OtherPredictors.
Local Open Scope R_scope.

Lemma resolve_mixture_kind resolver o o' :
  resolve_mixture resolver o = Ok o' -> exists mu sigma, o' = MeanVar mu sigma.
Proof.
  destruct o as [t|lp ls mu|m sg]; cbn [resolve_mixture]; try discriminate.
  destruct (resolver lp ls mu) as [[sigma mu']|e]; cbn [bind]; [|discriminate].
  intros [= <-]. eauto.
Qed.

Lemma bind_ok {A B} (m : res A) (k : A -> res B) b :
  bind m k = Ok b -> exists a, m = Ok a /\ k a = Ok b.
Proof. destruct m as [a|e]; cbn; [eauto|discriminate]. Qed.

(** X17. [prediction_type] tells what [inference] returns: whenever
    [inference] returns, the result is a single trajectory for a
    DETERMINISTIC predictor and a pair of mean and variance for a
    PROBABILISTIC one. *)
Theorem prediction_type_of_inference
    (resolver : Tensor -> Tensor -> Tensor -> res (Tensor * Tensor))
    (p : TypedPredictor) (x : Tensor) (lengths : Lengths) (o : Output) :
  typed_inference resolver p x lengths = Ok o ->
  match prediction_type p with
  | DETERMINISTIC => exists out, o = Traj out
  | PROBABILISTIC => exists mu sigma, o = MeanVar mu sigma
  end.
Proof.
  destruct p as [m|m|m|m|m|m|m]; cbn [typed_inference prediction_type]; intros H.
  - unfold Conv1dResnet_inference, Conv1dResnet_forward in H.
    destruct (c_use_mdn m) eqn:E; cbn [by_use_mdn].
    + apply bind_ok in H as (o1 & _ & H). now apply resolve_mixture_kind in H.
    + apply bind_ok in H as (out & _ & H). injection H as <-. eauto.
  - unfold Conv1dResnetSAR_inference in H. cbn [Conv1dResnetSAR_super c_use_mdn by_use_mdn].
    apply bind_ok in H as (out & _ & H). apply bind_ok in H as (r & _ & H).
    injection H as <-. eauto.
  - unfold RMDN_inference in H.
    apply bind_ok in H as (o1 & _ & H). now apply resolve_mixture_kind in H.
  - unfold MDN_inference in H.
    apply bind_ok in H as (o1 & _ & H). now apply resolve_mixture_kind in H.
  - unfold Conv1dResnetMDN_inference in H.
    apply bind_ok in H as (o1 & _ & H). now apply resolve_mixture_kind in H.
  - unfold ResF0Conv1dResnet_inference, ResF0Conv1dResnet_forward,
      ResF0Conv1dResnet_raw in H.
    destruct (rc_use_mdn m) eqn:E; cbn [by_use_mdn].
    + apply bind_ok in H as ([o1 r1] & _ & H).
      now apply resolve_mixture_kind in H.
    + apply bind_ok in H as ([o1 r1] & H & H'). injection H' as <-.
      apply bind_ok in H as ([mix mu] & Hraw & H).
      apply bind_ok in Hraw as (out & _ & Hraw). injection Hraw as <- <-.
      apply bind_ok in H as ([mu' r'] & _ & H). injection H as <- <-.
      cbn. eauto.
  - unfold ResSkipF0FFConvLSTM_inference, ResSkipF0FFConvLSTM_forward,
      ResSkipF0FFConvLSTM_raw in H.
    destruct (rs_use_mdn m) eqn:E; cbn [by_use_mdn].
    + apply bind_ok in H as ([o1 r1] & _ & H).
      now apply resolve_mixture_kind in H.
    + apply bind_ok in H as ([o1 r1] & H & H'). injection H' as <-.
      apply bind_ok in H as ([mix mu] & Hraw & H).
      repeat (apply bind_ok in Hraw as (? & _ & Hraw)).
      injection Hraw as <- <-.
      apply bind_ok in H as ([mu' r'] & _ & H). injection H as <- <-.
      cbn. eauto.
Qed.

Lemma prediction_type_of_inference_witness :
  exists mu sigma, MeanVar zero_frame zero_frame = MeanVar mu sigma.
Proof.
  apply (prediction_type_of_inference first_resolver (TMDN example_mdn)
           half_frame None (MeanVar zero_frame zero_frame)).
  reflexivity.
Defined.

Lemma sigmoid_bounds v : 0 < / (1 + exp (- v)) < 1.
Proof.
  pose proof (exp_pos (- v)) as H. split.
  - apply Rinv_0_lt_compat. lra.
  - rewrite <- Rinv_1 at 2. apply Rinv_lt_contravar; lra.
Qed.

(** X18. With [last_sigmoid] every element of the output of [FFN] lies
    between 0 and 1, both included; the shape is the shape that the last
    linear layer produced. *)
Theorem FFN_sigmoid_range
    (self : FFN) (x : Tensor) (lengths : Lengths) (out : Tensor) :
  f_last_sigmoid self = true ->
  FFN_forward self x lengths = Ok out ->
  (forall idx, 0 <= item out idx <= 1) /\
  exists h raw, f_last_linear self h = Ok raw /\ shape out = shape raw.
Proof.
  intros Hs H. unfold FFN_forward in H.
  apply bind_ok in H as (h0 & _ & H). apply bind_ok in H as (h & _ & H).
  apply bind_ok in H as (raw & Hraw & H). rewrite Hs in H. injection H as <-.
  split.
  - intros idx. cbn [sigmoid tmap item].
    pose proof (sigmoid_bounds (item raw idx)). lra.
  - exists h, raw. split; [exact Hraw|reflexivity].
Qed.

Lemma FFN_sigmoid_range_witness :
  (forall idx, 0 <= item (sigmoid (relu (relu half_frame))) idx <= 1) /\
  exists h raw, f_last_linear example_ffn h = Ok raw /\
                shape (sigmoid (relu (relu half_frame))) = shape raw.
Proof.
  apply (FFN_sigmoid_range example_ffn half_frame None
           (sigmoid (relu (relu half_frame))) eq_refl eq_refl).
Defined.

End OtherPredictors.

(** ** A failing call *)

Section FailingCall.
Import MultistreamParametricModel.

(** X19. The assignments to the pitch model come before any sub-model is
    called: when the energy model raises, [forward] and [inference] raise
    the same exception, and the pitch model is left with the composer's
    five parameters all the same. *)
Theorem forward_failure_after_assignments
    (self : t) (x : Tensor) (lengths : Lengths) (e : pyerr) :
  hasattr (attrs (pitch_model self)) "out_lf0_mean" = true ->
  invoke (energy_model self) x lengths = Raise e ->
  snd (forward self x lengths) = Raise e /\
  snd (inference self x lengths) = Raise e /\
  let a := attrs (pitch_model (fst (forward self x lengths))) in
  a !! "in_lf0_idx" = Some (in_lf0_idx self) /\
  a !! "in_lf0_min" = Some (in_lf0_min self) /\
  a !! "in_lf0_max" = Some (in_lf0_max self) /\
  a !! "out_lf0_mean" = Some (out_lf0_mean self) /\
  a !! "out_lf0_scale" = Some (out_lf0_scale self) /\
  a !! "out_lf0_idx" = attrs (pitch_model self) !! "out_lf0_idx".
Proof.
  intros Hhas He.
  assert (Hc : compose (_set_lf0_params self) x lengths = Raise e).
  { unfold compose.
    destruct (set_lf0_params_fields self) as (-> & _).
    rewrite He. reflexivity. }
  split; [|split].
  - unfold forward. cbn [snd]. exact Hc.
  - unfold inference, forward. cbn [snd]. rewrite Hc. reflexivity.
  - unfold forward. cbn [fst]. unfold _set_lf0_params. rewrite Hhas.
    cbn [set_pitch_model pitch_model set_attrs attrs].
    apply propagate_lookup.
Qed.

Lemma forward_failure_after_assignments_witness :
  snd (forward example_composer_failing_energy half_frame None)
  = Raise RuntimeError /\
  attrs (pitch_model (fst (forward example_composer_failing_energy
                             half_frame None))) !! "in_lf0_min"
  = Some (PyFloat (539 / 100)%R).
Proof.
  destruct (forward_failure_after_assignments example_composer_failing_energy
              half_frame None RuntimeError eq_refl eq_refl)
    as (H1 & _ & _ & H2 & _).
  split; [exact H1 | exact H2].
Defined.

End FailingCall.
